(** * Token data aggregation and trust scoring (plugin-solana)

    A shallow embedding of
      - [providers/token.ts]              (class [TokenProvider]) and
      - [providers/trustScoreProvider.ts] (class [TrustScoreManager]),
    followed by theorems about the token-data aggregator, its source
    adapters and the scoring functions.

    Conventions of the embedding.
      - A JavaScript [number] is a value of [JS.num]: an exact rational, one
        of the two infinities, or NaN.  Arithmetic on finite values is exact
        (binary rounding is not modelled); division by zero, NaN
        propagation and comparisons against NaN follow IEEE 754 as
        JavaScript exposes them.  Negative zero is identified with zero.
      - [async] methods run to completion one after the other (the
        aggregator awaits each adapter in turn), so they are functions in a
        state-and-exception monad over the provider's caches.
      - Everything outside the process (HTTP endpoints, the runtime cache
        manager's availability, settings) is an oracle indexed by the number
        of external operations issued so far, so a source may answer
        differently at each attempt.
      - Cache entries are looked up as maps; an entry whose time-to-live has
        run out is simply an absent entry. *)

From Stdlib Require Import QArith Qround Qabs Qpower ZArith Lia Lqa.
From Stdlib Require Import Ascii Sorting.Sorted.
From stdpp Require Import gmap strings list.

Set Default Proof Using "Type".

(* ===================================================================== *)
(** ** JavaScript numbers *)
(* ===================================================================== *)

Module JS.

Inductive num : Type :=
| Num (q : Q)
| PosInf
| NegInf
| NaN.

Definition ofZ (z : Z) : num := Num (inject_Z z).

(** Sign of a rational: [Gt] positive, [Eq] zero, [Lt] negative. *)
Definition sgn (q : Q) : comparison := Qcompare q 0.

Definition neg (a : num) : num :=
  match a with
  | Num q => Num (- q)
  | PosInf => NegInf
  | NegInf => PosInf
  | NaN => NaN
  end.

Definition add (a b : num) : num :=
  match a, b with
  | NaN, _ | _, NaN => NaN
  | Num x, Num y => Num (x + y)
  | PosInf, NegInf | NegInf, PosInf => NaN
  | PosInf, _ | _, PosInf => PosInf
  | NegInf, _ | _, NegInf => NegInf
  end.

Definition sub (a b : num) : num := add a (neg b).

(** An infinity scaled by a finite factor. *)
Definition scale_inf (positive : bool) (q : Q) : num :=
  match sgn q with
  | Eq => NaN
  | Gt => if positive then PosInf else NegInf
  | Lt => if positive then NegInf else PosInf
  end.

Definition mul (a b : num) : num :=
  match a, b with
  | NaN, _ | _, NaN => NaN
  | Num x, Num y => Num (x * y)
  | Num x, PosInf | PosInf, Num x => scale_inf true x
  | Num x, NegInf | NegInf, Num x => scale_inf false x
  | PosInf, PosInf | NegInf, NegInf => PosInf
  | PosInf, NegInf | NegInf, PosInf => NegInf
  end.

(** [a / b].  A finite value over zero is an infinity of the sign of the
    numerator, and [0 / 0] is NaN. *)
Definition div (a b : num) : num :=
  match a, b with
  | NaN, _ | _, NaN => NaN
  | Num x, Num y =>
      match sgn y with
      | Eq => match sgn x with
              | Gt => PosInf
              | Lt => NegInf
              | Eq => NaN
              end
      | _ => Num (x / y)
      end
  | Num _, PosInf | Num _, NegInf => Num 0
  | PosInf, Num y => match sgn y with Lt => NegInf | _ => PosInf end
  | NegInf, Num y => match sgn y with Lt => PosInf | _ => NegInf end
  | _, _ => NaN
  end.

(** [a < b]; every comparison with NaN is false. *)
Definition lt (a b : num) : bool :=
  match a, b with
  | NaN, _ | _, NaN => false
  | Num x, Num y => negb (Qle_bool y x)
  | NegInf, NegInf => false
  | NegInf, _ => true
  | _, PosInf => match a with PosInf => false | _ => true end
  | _, _ => false
  end.

Definition gt (a b : num) : bool := lt b a.

(** [a <= b]. *)
Definition le (a b : num) : bool :=
  match a, b with
  | NaN, _ | _, NaN => false
  | Num x, Num y => Qle_bool x y
  | NegInf, _ => true
  | _, PosInf => true
  | _, _ => false
  end.

(** [a !== b] on numbers. *)
Definition strict_neq (a b : num) : bool :=
  match a, b with
  | NaN, _ | _, NaN => true
  | Num x, Num y => negb (Qeq_bool x y)
  | PosInf, PosInf | NegInf, NegInf => false
  | _, _ => true
  end.

Definition isNaN (a : num) : bool :=
  match a with NaN => true | _ => false end.

(** Truthiness of a number: [0] and NaN are falsy. *)
Definition truthy (a : num) : bool :=
  match a with
  | Num q => negb (Qeq_bool q 0)
  | NaN => false
  | _ => true
  end.

(** [Math.min] and [Math.max] of two arguments. *)
Definition min (a b : num) : num :=
  match a, b with
  | NaN, _ | _, NaN => NaN
  | _, _ => if le a b then a else b
  end.

Definition max (a b : num) : num :=
  match a, b with
  | NaN, _ | _, NaN => NaN
  | _, _ => if le a b then b else a
  end.

Definition abs (a : num) : num :=
  match a with
  | Num q => Num (Qabs q)
  | PosInf | NegInf => PosInf
  | NaN => NaN
  end.

(** [Math.round]: the nearest integer, halves rounded up. *)
Definition round (a : num) : num :=
  match a with
  | Num q => Num (inject_Z (Qfloor (q + (1 # 2))))
  | _ => a
  end.

(** [a || b] on numbers. *)
Definition or (a b : num) : num := if truthy a then a else b.

(** [x || d] where [x] may be [null] or [undefined]. *)
Definition or_default (x : option num) (d : num) : num :=
  match x with
  | Some a => or a d
  | None => d
  end.

(** [x ?? d]. *)
Definition nullish (x : option num) (d : num) : num :=
  match x with
  | Some a => a
  | None => d
  end.

(** Equality of numbers as values ([Num] up to equality of rationals). *)
Definition same (a b : num) : Prop :=
  match a, b with
  | Num x, Num y => x == y
  | PosInf, PosInf | NegInf, NegInf | NaN, NaN => True
  | _, _ => False
  end.

Definition finite (a : num) : Prop :=
  match a with Num _ => True | _ => False end.

(** Truthiness of a string: only the empty string is falsy. *)
Definition truthy_string (s : string) : bool :=
  match s with
  | EmptyString => false
  | _ => true
  end.

(** [x || d] where [x] is a string that may be [null] or [undefined]. *)
Definition or_string (x : option string) (d : string) : string :=
  match x with
  | Some s => if truthy_string s then s else d
  | None => d
  end.

End JS.

Abbreviation num := JS.num.
Abbreviation Num := JS.Num.
Abbreviation NaN := JS.NaN.
Abbreviation PosInf := JS.PosInf.
Abbreviation NegInf := JS.NegInf.

(* ===================================================================== *)
(** ** Data model

    The records of [types/token.ts], with the fields the provider and the
    trust-score manager read or write.  The many per-bucket fields of
    [TokenTradeData] that no method below inspects are filled by the same
    [overview.x || 0] pattern as [price] and are left out. *)
(* ===================================================================== *)

Record TokenSecurityData := {
  ownerBalance : string;
  creatorBalance : string;
  ownerPercentage : num;
  creatorPercentage : num;
  top10HolderBalance : string;
  top10HolderPercent : num;
  totalSupply : string;
}.

(** A percent-change field is a number or [null]. *)
Record TokenTradeData := {
  td_address : option string;
  price : num;
  price_change_24h_percent : num;
  unique_wallet_30m_change_percent : option num;
  unique_wallet_1h_change_percent : option num;
  unique_wallet_2h_change_percent : option num;
  unique_wallet_4h_change_percent : option num;
  unique_wallet_8h_change_percent : option num;
  unique_wallet_24h : num;
  unique_wallet_24h_change_percent : option num;
  trade_24h_change_percent : option num;
  volume_24h : num;
  volume_24h_usd : num;
  volume_24h_change_percent : option num;
}.

Record BaseToken := { bt_address : string }.
Record Liquidity := { usd : num }.
Record Boosts := { active : num }.

Record DexScreenerPair := {
  chainId : string;
  baseToken : BaseToken;
  liquidity : Liquidity;
  marketCap : num;
  boosts : option Boosts;
}.

Record DexScreenerData := {
  schemaVersion : string;
  pairs : list DexScreenerPair;
}.

Record HolderData := {
  address : string;
  balance : string;
}.

Record TokenCodex := {
  tc_id : string;
  tc_address : option string;
  cmcId : option num;
  decimals : option num;
  tc_name : string;
  symbol : string;
  tc_totalSupply : string;
  circulatingSupply : option string;
  imageThumbUrl : option string;
  blueCheckmark : option bool;
  isScam : bool;
}.

Record HighValueHolder := {
  holderAddress : string;
  balanceUsd : string;
}.

Record ProcessedTokenData := {
  security : TokenSecurityData;
  tradeData : option TokenTradeData;
  holderDistributionTrend : string;
  highValueHolders : list HighValueHolder;
  recentTrades : bool;
  highSupplyHoldersCount : nat;
  dexScreenerData : DexScreenerData;
  isDexScreenerListed : bool;
  isDexScreenerPaid : bool;
  tokenCodex : TokenCodex;
}.

(** The fields of [TokenPerformance] and [RecommenderMetrics]
    (plugin-trustdb) that the trust-score manager computes with.  Dates are
    millisecond timestamps. *)
Record TokenPerformance := {
  tp_tokenAddress : string;
  priceChange24h : num;
  volumeChange24h : num;
  trade_24h_change : option num;
  tp_liquidity : num;
  holderChange24h : option num;
  rugPull : bool;
  tp_isScam : bool;
  tp_sustainedGrowth : bool;
  rapidDump : bool;
  tp_suspiciousVolume : bool;
  tp_balance : num;
  initialMarketCap : num;
}.

Record RecommenderMetrics := {
  recommenderId : string;
  trustScore : num;
  totalRecommendations : num;
  successfulRecs : num;
  avgTokenPerformance : num;
  riskScore : num;
  consistencyScore : num;
  virtualConfidence : num;
  lastActiveDate : Z;
  trustDecay : num;
  lastUpdated : Z;
}.

(** *** Raw payloads of the external sources *)

(** [data.data] of the security endpoint; a balance is given after
    [?.toString()]. *)
Record RawSecurity := {
  raw_ownerBalance : option string;
  raw_creatorBalance : option string;
  raw_ownerPercentage : option num;
  raw_creatorPercentage : option num;
  raw_top10HolderBalance : option string;
  raw_top10HolderPercent : option num;
  raw_totalSupply : option string;
}.

Record SecurityReply := {
  sec_success : bool;
  sec_data : option RawSecurity;
}.

(** [data.data] of the token-overview endpoint. *)
Record Overview := {
  ov_price : option num;
  ov_priceChange24hPercent : option num;
  ov_uniqueWallet30mChangePercent : option num;
  ov_uniqueWallet1hChangePercent : option num;
  ov_uniqueWallet2hChangePercent : option num;
  ov_uniqueWallet4hChangePercent : option num;
  ov_uniqueWallet8hChangePercent : option num;
  ov_uniqueWallet24h : option num;
  ov_uniqueWallet24hChangePercent : option num;
  ov_trade24hChangePercent : option num;
  ov_v24h : option num;
  ov_v24hUSD : option num;
  ov_v24hChangePercent : option num;
}.

Record OverviewReply := {
  ov_success : bool;
  ov_data : option Overview;
}.

(** [responseData.data?.token] of the GraphQL endpoint. *)
Record RawToken := {
  rt_id : string;
  rt_address : option string;
  rt_cmcId : option num;
  rt_decimals : option num;
  rt_name : string;
  rt_symbol : string;
  rt_totalSupply : string;
  rt_circulatingSupply : option string;
  rt_imageThumbUrl : option string;
  rt_blueCheckmark : option bool;
  rt_isScam : option bool;
}.

Record CodexReply := {
  cx_errors : bool;
  cx_token : option RawToken;
}.

Record DexReply := {
  dx_schemaVersion : option string;
  dx_pairs : option (list DexScreenerPair);
}.

(** One element of [data.result.value] of [getTokenLargestAccounts]. *)
Record RawAccount := {
  acc_address : option string;
  acc_amount : option string;
}.

(** [hx_value] is [Some] exactly when [data.result.value] is an array. *)
Record HeliusReply := {
  hx_value : option (list RawAccount);
}.

(* ===================================================================== *)
(** ** Effects: exceptions, the caches and the outside world *)
(* ===================================================================== *)

Inductive exn : Type := Exn (msg : string).

Inductive Res (A : Type) : Type :=
| Ok (a : A)
| Throw (e : exn).
Arguments Ok {A} a.
Arguments Throw {A} e.

(** What the caches hold: one shape per adapter.  Each adapter reads and
    writes under a key prefix of its own, and [getCachedData<T>] types what
    it finds there as [T]; an entry of another shape under an adapter's key
    is treated by the model as absent. *)
Inductive CacheVal : Type :=
| VSecurity (s : TokenSecurityData)
| VTrade (t : TokenTradeData)
| VDex (d : DexScreenerData)
| VHolders (l : list HolderData)
| VCodex (c : TokenCodex).

(** The mutable state: the provider's in-memory [NodeCache]
    ([this.cache]), the contents of the runtime's cache manager
    ([this.cacheManager]), the recommender table of the trust database and
    the number of external operations issued. *)
Record World := {
  cache : gmap string CacheVal;
  store : gmap string CacheVal;
  recommenders : gmap string RecommenderMetrics;
  clock : nat;
}.

(** The answer to one HTTP request: [fetch] rejects, or a response arrives
    with its [ok] flag and a body ([None] when [response.json()]
    rejects). *)
Inductive Response (B : Type) : Type :=
| NetworkFailure (e : exn)
| Reply (ok : bool) (body : option B).
Arguments NetworkFailure {B} e.
Arguments Reply {B} ok body.

(** The outside world, as oracles over the operation count. *)
Record Env := {
  birdeyeSecurity : nat -> Response SecurityReply;
  birdeyeOverview : nat -> Response OverviewReply;
  codexGraphql : nat -> Response CodexReply;
  dexScreener : nat -> Response DexReply;
  heliusRpc : nat -> Response HeliusReply;
  cacheManagerFails : nat -> bool;
  BIRDEYE_API_KEY : option string;
  tokenAccountBalance : nat -> Res num;
  dateNow : nat -> Z;
}.

Definition M (A : Type) : Type := World -> Res A * World.

Definition ret {A} (a : A) : M A := fun w => (Ok a, w).

Definition throw {A} (e : exn) : M A := fun w => (Throw e, w).

Definition bind {A B} (m : M A) (k : A -> M B) : M B :=
  fun w =>
    match m w with
    | (Ok a, w') => k a w'
    | (Throw e, w') => (Throw e, w')
    end.

(** [try { m } catch (e) { h e }]. *)
Definition try_catch {A} (m : M A) (h : exn -> M A) : M A :=
  fun w =>
    match m w with
    | (Ok a, w') => (Ok a, w')
    | (Throw e, w') => h e w'
    end.

Declare Scope js_scope.
Delimit Scope js_scope with js.
Notation "x <- m ;; k" := (bind m (fun x => k))
  (at level 100, m at next level, right associativity) : js_scope.
Notation "m ;; k" := (bind m (fun _ => k))
  (at level 100, right associativity) : js_scope.
Open Scope js_scope.

(** Issue one external operation: read the operation count and advance it. *)
Definition tick : M nat :=
  fun w => (Ok (clock w),
            {| cache := cache w; store := store w;
               recommenders := recommenders w; clock := S (clock w) |}).

Definition fetch {B} (source : nat -> Response B) : M (Response B) :=
  n <- tick ;; ret (source n).

(** [response.json()] of a response already received. *)
Definition json {B} (body : option B) : M B :=
  match body with
  | Some b => ret b
  | None => throw (Exn "Unexpected token in JSON")
  end.

(** *** Strings *)

Definition lower_ascii (c : ascii) : ascii :=
  let n := nat_of_ascii c in
  if (65 <=? n)%nat && (n <=? 90)%nat then ascii_of_nat (n + 32) else c.

Fixpoint toLowerCase (s : string) : string :=
  match s with
  | EmptyString => EmptyString
  | String c rest => String (lower_ascii c) (toLowerCase rest)
  end.

(** A nullable string inside a template literal. *)
Definition template (s : option string) : string :=
  match s with
  | Some a => a
  | None => "null"
  end.

(** A path separator in [s]: [/], or the backslash of Windows paths. *)
Fixpoint hasSeparator (s : string) : bool :=
  match s with
  | EmptyString => false
  | String c rest =>
      (Ascii.eqb c "/" || Ascii.eqb c "092") || hasSeparator rest
  end.

(** A key that is one path segment: it holds no separator and is neither
    empty nor a dot segment, so that [path.join] has nothing to
    normalise. *)
Definition plainKey (key : string) : bool :=
  negb (hasSeparator key) && negb (String.eqb key EmptyString)
  && negb (String.eqb key ".") && negb (String.eqb key "..").

(** [path.join(dir, key)] for a [key] that is one path segment
    ([plainKey]): the key is appended to the directory as it stands.  The
    cache keys of the provider are of this kind whenever the token address
    holds no separator. *)
Definition path_join (dir key : string) : string := dir +:+ "/" +:+ key.

(* ===================================================================== *)
(** ** [TokenProvider] *)
(* ===================================================================== *)

Definition MAX_RETRIES : nat := 3.

(** The provider object; [this.cache] lives in the [World]. *)
Record TokenProvider := { tokenAddress : option string }.

Section Provider.

(** [normalizeAddress] of [keypairUtils] and [toBN] of [bignumber.ts]
    (with [BigNumber]'s [toFixed(2)]) are imported by the provider; the
    provider is modelled over any implementation of them.  [toBN] on a
    string may throw; a [BigNumber] is modelled as a [num]. *)
Variable normalizeAddress : string -> Res string.
Variable toBN : string -> Res num.
Variable toFixed2 : num -> string.
Variable env : Env.

(** The constructor: an address that fails normalization is replaced by
    [null]; an empty or absent address is kept as it is. *)
Definition constructor (address : option string) : Res TokenProvider :=
  match address with
  | Some a =>
      if JS.truthy_string a then
        match normalizeAddress a with
        | Ok normalized => Ok {| tokenAddress := Some normalized |}
        | Throw _ => Ok {| tokenAddress := None |}
        end
      else Ok {| tokenAddress := address |}
  | None => Ok {| tokenAddress := None |}
  end.

Definition getTokenAddress (self : TokenProvider) : option string :=
  tokenAddress self.

Definition getDefaultTradeData (self : TokenProvider) : TokenTradeData :=
  {| td_address := tokenAddress self;
     price := Num 0;
     price_change_24h_percent := Num 0;
     unique_wallet_30m_change_percent := Some (Num 0);
     unique_wallet_1h_change_percent := Some (Num 0);
     unique_wallet_2h_change_percent := Some (Num 0);
     unique_wallet_4h_change_percent := Some (Num 0);
     unique_wallet_8h_change_percent := None;
     unique_wallet_24h := Num 0;
     unique_wallet_24h_change_percent := None;
     trade_24h_change_percent := None;
     volume_24h := Num 0;
     volume_24h_usd := Num 0;
     volume_24h_change_percent := None |}.

(** *** The two cache tiers *)

Definition cacheKey : string := "solana/tokens".

Definition cache_get (key : string) : M (option CacheVal) :=
  fun w => (Ok (cache w !! key), w).

Definition cache_set (key : string) (data : CacheVal) : M unit :=
  fun w => (Ok tt,
            {| cache := <[key := data]> (cache w);
               store := store w;
               recommenders := recommenders w; clock := clock w |}).

Definition cacheManager_get (key : string) : M (option CacheVal) :=
  n <- tick ;;
  if cacheManagerFails env n then throw (Exn "cache manager unavailable")
  else fun w => (Ok (store w !! key), w).

Definition cacheManager_set (key : string) (data : CacheVal) : M unit :=
  n <- tick ;;
  if cacheManagerFails env n then throw (Exn "cache manager unavailable")
  else fun w => (Ok tt,
                 {| cache := cache w;
                    store := <[key := data]> (store w);
                    recommenders := recommenders w; clock := clock w |}).

Definition cacheManager_delete (key : string) : M unit :=
  n <- tick ;;
  if cacheManagerFails env n then throw (Exn "cache manager unavailable")
  else fun w => (Ok tt,
                 {| cache := cache w;
                    store := delete key (store w);
                    recommenders := recommenders w; clock := clock w |}).

Definition readFromCache (key : string) : M (option CacheVal) :=
  try_catch (cacheManager_get (path_join cacheKey key))
            (fun _ => ret None).

Definition writeToCache (key : string) (data : CacheVal) : M unit :=
  try_catch (cacheManager_set (path_join cacheKey key) data)
            (fun _ => ret tt).

Definition getCachedData (key : string) : M (option CacheVal) :=
  try_catch
    (cachedData <- cache_get key ;;
     match cachedData with
     | Some v => ret (Some v)
     | None =>
         fileCachedData <- readFromCache key ;;
         match fileCachedData with
         | Some v => cache_set key v ;; ret (Some v)
         | None => ret None
         end
     end)
    (fun _ => ret None).

Definition setCachedData (key : string) (data : CacheVal) : M unit :=
  try_catch (cache_set key data ;; writeToCache key data)
            (fun _ => ret tt).

(** *** The retrying fetch client *)

(** One pass through the loop body of [fetchWithRetry]. *)
Definition attempt {B} (source : nat -> Response B) : M B :=
  response <- fetch source ;;
  match response with
  | NetworkFailure e => throw e
  | Reply ok body =>
      if negb ok then throw (Exn "HTTP error!") else json body
  end.

Fixpoint fetchWithRetry_loop {B} (source : nat -> Response B)
         (remaining : nat) (lastError : exn) : M B :=
  match remaining with
  | O => throw lastError
  | S k =>
      try_catch (attempt source)
                (fun error => fetchWithRetry_loop source k error)
  end.

Definition fetchWithRetry {B} (source : nat -> Response B) : M B :=
  fetchWithRetry_loop source MAX_RETRIES (Exn "undefined").

(** *** Source adapters *)

Definition defaultSecurity : TokenSecurityData :=
  {| ownerBalance := "0";
     creatorBalance := "0";
     ownerPercentage := Num 0;
     creatorPercentage := Num 0;
     top10HolderBalance := "0";
     top10HolderPercent := Num 0;
     totalSupply := "0" |}.

Definition securityOfRaw (d : RawSecurity) : TokenSecurityData :=
  {| ownerBalance :=
       JS.or_string (raw_ownerBalance d)
                    (JS.or_string (raw_creatorBalance d) "0");
     creatorBalance := JS.or_string (raw_creatorBalance d) "0";
     ownerPercentage :=
       JS.or_default (raw_ownerPercentage d)
                     (JS.or_default (raw_creatorPercentage d) (Num 0));
     creatorPercentage := JS.or_default (raw_creatorPercentage d) (Num 0);
     top10HolderBalance := JS.or_string (raw_top10HolderBalance d) "0";
     top10HolderPercent := JS.or_default (raw_top10HolderPercent d) (Num 0);
     totalSupply := JS.or_string (raw_totalSupply d) "0" |}.

Definition fetchTokenSecurity (self : TokenProvider)
  : M TokenSecurityData :=
  match tokenAddress self with
  | None => throw (Exn "TypeError: Cannot read properties of null")
  | Some addr =>
      let cacheKey := "tokenSecurity_" +:+ toLowerCase addr in
      cachedData <- getCachedData cacheKey ;;
      match cachedData with
      | Some (VSecurity s) => ret s
      | _ =>
          try_catch
            (data <- fetchWithRetry (birdeyeSecurity env) ;;
             match (if sec_success data then sec_data data else None) with
             | None => ret defaultSecurity
             | Some d =>
                 let security := securityOfRaw d in
                 setCachedData cacheKey (VSecurity security) ;;
                 ret security
             end)
            (fun _ => ret defaultSecurity)
      end
  end.

(** [x || null]. *)
Definition or_null (x : option num) : option num :=
  match x with
  | Some a => if JS.truthy a then Some a else None
  | None => None
  end.

Definition tradeDataOfOverview (self : TokenProvider) (overview : Overview)
  : TokenTradeData :=
  {| td_address := tokenAddress self;
     price := JS.or_default (ov_price overview) (Num 0);
     price_change_24h_percent :=
       JS.or_default (ov_priceChange24hPercent overview) (Num 0);
     unique_wallet_30m_change_percent :=
       Some (JS.or_default (ov_uniqueWallet30mChangePercent overview) (Num 0));
     unique_wallet_1h_change_percent :=
       Some (JS.or_default (ov_uniqueWallet1hChangePercent overview) (Num 0));
     unique_wallet_2h_change_percent :=
       Some (JS.or_default (ov_uniqueWallet2hChangePercent overview) (Num 0));
     unique_wallet_4h_change_percent :=
       Some (JS.or_default (ov_uniqueWallet4hChangePercent overview) (Num 0));
     unique_wallet_8h_change_percent :=
       ov_uniqueWallet8hChangePercent overview;
     unique_wallet_24h := JS.or_default (ov_uniqueWallet24h overview) (Num 0);
     unique_wallet_24h_change_percent :=
       ov_uniqueWallet24hChangePercent overview;
     trade_24h_change_percent := or_null (ov_trade24hChangePercent overview);
     volume_24h := JS.or_default (ov_v24h overview) (Num 0);
     volume_24h_usd := JS.or_default (ov_v24hUSD overview) (Num 0);
     volume_24h_change_percent := or_null (ov_v24hChangePercent overview) |}.

(** The request part of [fetchTokenTradeData], after a cache miss. *)
Definition fetchFreshTradeData (self : TokenProvider) (cacheKey : string)
  : M (option TokenTradeData) :=
  try_catch
    (match BIRDEYE_API_KEY env with
     | None => ret None
     | Some apiKey =>
         if negb (JS.truthy_string apiKey) then ret None
         else
           data <- fetchWithRetry (birdeyeOverview env) ;;
           match (if ov_success data then ov_data data else None) with
           | None => throw (Exn "No token overview data available")
           | Some overview =>
               let tradeData := tradeDataOfOverview self overview in
               setCachedData cacheKey (VTrade tradeData) ;;
               ret (Some tradeData)
           end
     end)
    (fun _ => throw (Exn "Failed to fetch token trade data")).

(** Returns [null] when no API key is configured. *)
Definition fetchTokenTradeData (self : TokenProvider)
  : M (option TokenTradeData) :=
  let cacheKey := "tokenTradeData_" +:+ template (tokenAddress self) in
  cachedData <- getCachedData cacheKey ;;
  match cachedData with
  | Some (VTrade t) =>
      if JS.truthy (price t) then ret (Some t)
      else fetchFreshTradeData self cacheKey
  | _ => fetchFreshTradeData self cacheKey
  end.

Definition codexOfRaw (token : RawToken) : TokenCodex :=
  {| tc_id := rt_id token;
     tc_address := rt_address token;
     cmcId := rt_cmcId token;
     decimals := rt_decimals token;
     tc_name := rt_name token;
     symbol := rt_symbol token;
     tc_totalSupply := rt_totalSupply token;
     circulatingSupply := rt_circulatingSupply token;
     imageThumbUrl := rt_imageThumbUrl token;
     blueCheckmark := rt_blueCheckmark token;
     isScam := match rt_isScam token with Some true => true | _ => false end
  |}.

(** [fetchTokenCodex()] as the aggregator calls it, without a runtime or
    a symbol (so no address lookup by symbol is attempted). *)
Definition fetchTokenCodex (self : TokenProvider) : M TokenCodex :=
  try_catch
    (match tokenAddress self with
     | None =>
         throw (Exn "No token address available for fetching token codex")
     | Some addr =>
         if negb (JS.truthy_string addr) then
           throw (Exn "No token address available for fetching token codex")
         else
           let cacheKey := "token_" +:+ addr in
           cachedData <- getCachedData cacheKey ;;
           match cachedData with
           | Some (VCodex c) => ret c
           | _ =>
               response <- fetch (codexGraphql env) ;;
               match response with
               | NetworkFailure e => throw e
               | Reply ok body =>
                   responseData <- json body ;;
                   if negb ok then throw (Exn "Codex API error")
                   else if cx_errors responseData then
                     throw (Exn "GraphQL errors")
                   else
                     match cx_token responseData with
                     | None => throw (Exn "No data returned for token")
                     | Some token =>
                         let tokenCodex := codexOfRaw token in
                         setCachedData cacheKey (VCodex tokenCodex) ;;
                         ret tokenCodex
                     end
               end
           end
     end)
    (fun error => throw error).

Definition emptyDexData : DexScreenerData :=
  {| schemaVersion := "1.0.0"; pairs := [] |}.

(** The filter for Solana pairs of this token.  The callback reads
    [this.tokenAddress.toLowerCase()] only for a pair on chain
    ["solana"], where a [null] address is a [TypeError]. *)
Definition solanaPairsOf (self : TokenProvider) (ps : list DexScreenerPair)
  : M (list DexScreenerPair) :=
  match tokenAddress self with
  | Some addr =>
      ret (List.filter
             (fun pair =>
                String.eqb (chainId pair) "solana" &&
                String.eqb (toLowerCase (bt_address (baseToken pair)))
                           (toLowerCase addr))
             ps)
  | None =>
      if existsb (fun pair => String.eqb (chainId pair) "solana") ps
      then throw (Exn "TypeError: Cannot read properties of null")
      else ret []
  end.

(** The request part of [fetchDexScreenerData], after a cache miss. *)
Definition fetchFreshDexData (self : TokenProvider) (cacheKey : string)
  : M DexScreenerData :=
  try_catch
    (response <- fetch (dexScreener env) ;;
     match response with
     | NetworkFailure e => throw e
     | Reply _ body =>
         data <- json body ;;
         match dx_pairs data with
         | None | Some [] => ret emptyDexData
         | Some ps =>
             solanaPairs <- solanaPairsOf self ps ;;
             let dexData :=
               {| schemaVersion :=
                    JS.or_string (dx_schemaVersion data) "1.0.0";
                  pairs := solanaPairs |} in
             match solanaPairs with
             | [] => ret dexData
             | _ :: _ =>
                 setCachedData cacheKey (VDex dexData) ;; ret dexData
             end
         end
     end)
    (fun _ => ret emptyDexData).

Definition fetchDexScreenerData (self : TokenProvider)
  : M DexScreenerData :=
  let cacheKey := "dexScreenerData_" +:+ template (tokenAddress self) in
  cachedData <- getCachedData cacheKey ;;
  match cachedData with
  | Some (VDex d) =>
      match pairs d with
      | _ :: _ => ret d
      | [] => fetchFreshDexData self cacheKey
      end
  | _ => fetchFreshDexData self cacheKey
  end.

(** [map] then [filter] of [fetchHolderList]: an account without an
    address or an amount (absent or empty) is dropped. *)
Definition holderOfAccount (account : RawAccount) : option HolderData :=
  match acc_address account, acc_amount account with
  | Some a, Some b =>
      if JS.truthy_string a && JS.truthy_string b
      then Some {| address := a; balance := b |}
      else None
  | _, _ => None
  end.

(** The request part of [fetchHolderList], after a cache miss. *)
Definition fetchFreshHolderList (cacheKey : string) : M (list HolderData) :=
  try_catch
    (response <- fetch (heliusRpc env) ;;
     match response with
     | NetworkFailure e => throw e
     | Reply _ body =>
         data <- json body ;;
         match hx_value data with
         | None => ret []
         | Some value =>
             let holders := omap holderOfAccount value in
             match holders with
             | _ :: _ =>
                 setCachedData cacheKey (VHolders holders) ;; ret holders
             | [] => ret holders
             end
         end
     end)
    (fun _ => ret []).

Definition fetchHolderList (self : TokenProvider) : M (list HolderData) :=
  let cacheKey := "holderList_" +:+ template (tokenAddress self) in
  cachedData <- getCachedData cacheKey ;;
  match cachedData with
  | Some (VHolders l) =>
      match l with
      | _ :: _ => ret l
      | [] => fetchFreshHolderList cacheKey
      end
  | _ => fetchFreshHolderList cacheKey
  end.

(** *** Derived signals *)

(** One entry of [intervals]: [tradeData?.field ?? 0]. *)
Definition intervalChange (tradeData : option TokenTradeData)
           (field : TokenTradeData -> option num) : option num :=
  Some (JS.nullish (match tradeData with
                    | Some t => field t
                    | None => None
                    end) (Num 0)).

(** The filter's test
    [change !== null && change !== undefined && !isNaN(change)]. *)
Definition validChange (change : option num) : option num :=
  match change with
  | Some c => if JS.isNaN c then None else Some c
  | None => None
  end.

Definition analyzeHolderDistribution (tradeData : option TokenTradeData)
  : string :=
  let intervals :=
    [ intervalChange tradeData unique_wallet_30m_change_percent;
      intervalChange tradeData unique_wallet_1h_change_percent;
      intervalChange tradeData unique_wallet_2h_change_percent;
      intervalChange tradeData unique_wallet_4h_change_percent;
      intervalChange tradeData unique_wallet_8h_change_percent;
      intervalChange tradeData unique_wallet_24h_change_percent ] in
  let validChanges := omap validChange intervals in
  match validChanges with
  | [] => "stable"
  | _ :: _ =>
      let averageChange :=
        JS.div (fold_left JS.add validChanges (Num 0))
               (JS.ofZ (Z.of_nat (length validChanges))) in
      let increaseThreshold := Num 10 in
      let decreaseThreshold := Num (-10) in
      if JS.gt averageChange increaseThreshold then "increasing"
      else if JS.lt averageChange decreaseThreshold then "decreasing"
      else "stable"
  end.

(** [holder.balance || "0"]. *)
Definition balanceOrZero (holder : HolderData) : string :=
  if JS.truthy_string (balance holder) then balance holder else "0".

Fixpoint mapM {A B} (f : A -> M B) (l : list A) : M (list B) :=
  match l with
  | [] => ret []
  | x :: rest => y <- f x ;; ys <- mapM f rest ;; ret (y :: ys)
  end.

Definition filterHighValueHolders (self : TokenProvider)
           (tradeData : option TokenTradeData) : M (list HighValueHolder) :=
  try_catch
    (match tradeData with
     | None => ret []
     | Some t =>
         if negb (JS.truthy (price t)) then ret []
         else
           holdersData <- fetchHolderList self ;;
           match holdersData with
           | [] => ret []
           | _ :: _ =>
               let tokenPriceUsd := price t in
               let kept :=
                 List.filter
                   (fun holder =>
                      match toBN (balanceOrZero holder) with
                      | Ok b => JS.gt (JS.mul b tokenPriceUsd) (Num 5)
                      | Throw _ => false
                      end)
                   holdersData in
               mapM (fun holder =>
                       match toBN (balanceOrZero holder) with
                       | Ok b =>
                           ret {| holderAddress := address holder;
                                  balanceUsd :=
                                    toFixed2 (JS.mul b tokenPriceUsd) |}
                       | Throw e => throw e
                       end)
                    kept
           end
     end)
    (fun _ => ret []).

Definition checkRecentTrades (tradeData : option TokenTradeData) : bool :=
  match tradeData with
  | None => false
  | Some t =>
      if negb (JS.truthy (volume_24h_usd t)) then false
      else JS.gt (volume_24h_usd t) (Num 0)
  end.

(** [BigNumber.isZero]. *)
Definition isZero (a : num) : bool :=
  match a with
  | Num q => Qeq_bool q 0
  | _ => false
  end.

(** [toBN] inside a [try] block. *)
Definition toBN_M (s : string) : M num :=
  match toBN s with
  | Ok b => ret b
  | Throw e => throw e
  end.

Definition countHighSupplyHolders (self : TokenProvider)
           (securityData : option TokenSecurityData) : M nat :=
  try_catch
    (match securityData with
     | None => ret 0%nat
     | Some s =>
         let balanceToUse :=
           if JS.truthy_string (ownerBalance s) then ownerBalance s
           else creatorBalance s in
         if negb (JS.truthy_string balanceToUse) then ret 0%nat
         else
           mainBalance <- toBN_M balanceToUse ;;
           totalSupply <-
             toBN_M (if JS.truthy_string (totalSupply s)
                     then totalSupply s else "0") ;;
           if isZero totalSupply then ret 0%nat
           else
             holdersData <- fetchHolderList self ;;
             ret (length
                    (List.filter
                       (fun holder =>
                          match toBN (balance holder) with
                          | Ok b =>
                              JS.gt (JS.div b totalSupply) (Num (2 # 100))
                          | Throw _ => false
                          end)
                       holdersData))
     end)
    (fun _ => ret 0%nat).

(** *** The aggregator *)

Definition defaultCodex (self : TokenProvider) : TokenCodex :=
  {| tc_id := "";
     tc_address := tokenAddress self;
     cmcId := Some (Num 0);
     decimals := Some (Num 9);
     tc_name := "";
     symbol := "";
     tc_totalSupply := "0";
     circulatingSupply := Some "0";
     imageThumbUrl := Some "";
     blueCheckmark := Some false;
     isScam := false |}.

(** [!tradeData || !tradeData.price]. *)
Definition invalidTradeData (tradeData : option TokenTradeData) : bool :=
  match tradeData with
  | None => true
  | Some t => negb (JS.truthy (price t))
  end.

(** [pair.boosts && pair.boosts.active > 0]. *)
Definition boosted (pair : DexScreenerPair) : bool :=
  match boosts pair with
  | Some b => JS.gt (active b) (Num 0)
  | None => false
  end.

(** The three guarded adapter calls of [getProcessedTokenData]: each is
    a [try] block whose [catch] substitutes the default record. *)
Definition tokenCodexOrDefault (self : TokenProvider) : M TokenCodex :=
  try_catch (fetchTokenCodex self)
            (fun _ => ret (defaultCodex self)).

Definition tradeDataOrDefault (self : TokenProvider)
  : M (option TokenTradeData) :=
  try_catch
    (tradeData <- fetchTokenTradeData self ;;
     if invalidTradeData tradeData then
       let cacheKey :=
         "tokenTradeData_" +:+ template (tokenAddress self) in
       cacheManager_delete cacheKey ;;
       fetchTokenTradeData self
     else ret tradeData)
    (fun _ => ret (Some (getDefaultTradeData self))).

Definition dexDataOrDefault (self : TokenProvider) : M DexScreenerData :=
  try_catch
    (dexData <- fetchDexScreenerData self ;;
     match pairs dexData with
     | [] => ret emptyDexData
     | _ :: _ => ret dexData
     end)
    (fun _ => ret emptyDexData).

Definition getProcessedTokenData (self : TokenProvider)
  : M ProcessedTokenData :=
  try_catch
    (security <- fetchTokenSecurity self ;;
     tokenCodex <- tokenCodexOrDefault self ;;
     tradeData <- tradeDataOrDefault self ;;
     dexData <- dexDataOrDefault self ;;
     let holderDistributionTrend := analyzeHolderDistribution tradeData in
     highValueHolders <- filterHighValueHolders self tradeData ;;
     let recentTrades := checkRecentTrades tradeData in
     highSupplyHoldersCount <-
       countHighSupplyHolders self (Some security) ;;
     let isDexScreenerListed :=
       match pairs dexData with [] => false | _ :: _ => true end in
     let isDexScreenerPaid := existsb boosted (pairs dexData) in
     ret {| security := security;
            tradeData := tradeData;
            holderDistributionTrend := holderDistributionTrend;
            highValueHolders := highValueHolders;
            recentTrades := recentTrades;
            highSupplyHoldersCount := highSupplyHoldersCount;
            dexScreenerData := dexData;
            isDexScreenerListed := isDexScreenerListed;
            isDexScreenerPaid := isDexScreenerPaid;
            tokenCodex := tokenCodex |})
    (fun error => throw error).

End Provider.

(** *** The canonical pair

    [getHighestLiquidityPair] sorts [dexData.pairs] with
    [Array.prototype.sort], which reorders the array object itself.  Arrays
    are therefore kept in a store and [dexData.pairs] is a reference into
    it: every holder of the reference sees the new order. *)

Record DexScreenerDataRef := {
  ref_schemaVersion : string;
  ref_pairs : nat;
}.

(** A pair as the array holds it at run time.  The array is [data.pairs] of
    a parsed response, or a cached copy of it, stored without validation,
    so either field the comparison reads may be missing: [po_liquidity] is
    [None] for a pair without a [liquidity] object and [po_marketCap] is
    [None] for a pair without [marketCap].  A [null] market cap counts as
    0 in a subtraction and is [Some (Num 0)] here. *)
Record PairObject := {
  po_baseToken : BaseToken;
  po_liquidity : option Liquidity;
  po_marketCap : option num;
}.

(** A pair that carries both fields, as [DexScreenerPair] declares it. *)
Definition ofPair (p : DexScreenerPair) : PairObject :=
  {| po_baseToken := baseToken p;
     po_liquidity := Some (liquidity p);
     po_marketCap := Some (marketCap p) |}.

(** A missing property reads as [undefined], and [undefined] in a
    subtraction is NaN. *)
Definition toNumber (x : option num) : num :=
  match x with
  | Some v => v
  | None => NaN
  end.

(** [p.liquidity.usd]: reading [usd] of a missing [liquidity] throws. *)
Definition readLiquidityUsd (p : PairObject) : Res num :=
  match po_liquidity p with
  | Some l => Ok (usd l)
  | None =>
      Throw (Exn "TypeError: Cannot read properties of undefined (reading 'usd')")
  end.

(** The comparison function handed to [sort]; it reads [b.liquidity.usd]
    before [a.liquidity.usd]. *)
Definition comparePairs (a b : PairObject) : Res num :=
  match readLiquidityUsd b with
  | Throw e => Throw e
  | Ok bUsd =>
      match readLiquidityUsd a with
      | Throw e => Throw e
      | Ok aUsd =>
          let liquidityDiff := JS.sub bUsd aUsd in
          if JS.strict_neq liquidityDiff (Num 0) then Ok liquidityDiff
          else Ok (JS.sub (toNumber (po_marketCap b))
                          (toNumber (po_marketCap a)))
      end
  end.

(** [Array.prototype.sort(comparefn)] with a comparison function that may
    throw: the call either returns, the array holding [l] afterwards, or
    ends with the exception of a call of [comparefn], the array holding
    [remains]. *)
Inductive SortOutcome (A : Type) : Type :=
| Reordered (l : list A)
| Aborted (e : exn) (remains : list A).

Arguments Reordered {A} l.
Arguments Aborted {A} e remains.

Section Comparator.

Context {A : Type}.
Variable comparefn : A -> A -> Res num.

(** [a <CF b], [a =CF b] and [a >CF b] of the language specification:
    [comparefn(a, b)] is below, equal to, or above 0. *)
Definition lessBy (a b : A) : Prop :=
  exists v, comparefn a b = Ok v /\ JS.lt v (Num 0) = true.

Definition equalBy (a b : A) : Prop :=
  exists v, comparefn a b = Ok v /\ JS.strict_neq v (Num 0) = false.

Definition greaterBy (a b : A) : Prop :=
  exists v, comparefn a b = Ok v /\ JS.gt v (Num 0) = true.

(** A consistent comparator for the values of [l], as the language
    specification defines it: every call returns a number that is not NaN,
    [=CF] is reflexive, symmetric and transitive, and [<CF] and [>CF] are
    transitive. *)
Definition consistentComparator (l : list A) : Prop :=
  (forall a b, a ∈ l -> b ∈ l ->
     exists v, comparefn a b = Ok v /\ JS.isNaN v = false) /\
  (forall a, a ∈ l -> equalBy a a) /\
  (forall a b, a ∈ l -> b ∈ l -> equalBy a b -> equalBy b a) /\
  (forall a b c, a ∈ l -> b ∈ l -> c ∈ l ->
     equalBy a b -> equalBy b c -> equalBy a c) /\
  (forall a b c, a ∈ l -> b ∈ l -> c ∈ l ->
     lessBy a b -> lessBy b c -> lessBy a c) /\
  (forall a b c, a ∈ l -> b ∈ l -> c ∈ l ->
     greaterBy a b -> greaterBy b c -> greaterBy a c).

(** The sort order of the language specification: no element stands
    behind one it compares less than. *)
Definition sortedBy (l : list A) : Prop :=
  StronglySorted (fun x y => ~ lessBy y x) l.

(** An insertion sort that stops at the first exception: [x] goes behind
    every [y] with [comparefn(x, y) > 0]; a NaN result counts as 0. *)
Fixpoint insertBy (x : A) (l : list A) : Res (list A) :=
  match l with
  | [] => Ok [x]
  | y :: rest =>
      match comparefn x y with
      | Throw e => Throw e
      | Ok v =>
          if JS.gt v (Num 0) then
            match insertBy x rest with
            | Throw e => Throw e
            | Ok l' => Ok (y :: l')
            end
          else Ok (x :: l)
      end
  end.

Fixpoint sortBy (l : list A) : Res (list A) :=
  match l with
  | [] => Ok []
  | x :: rest =>
      match sortBy rest with
      | Throw e => Throw e
      | Ok sorted => insertBy x sorted
      end
  end.

End Comparator.

(** What the language specification fixes about [sort], whatever algorithm
    the engine runs.  When the call returns, the array holds a
    rearrangement of its elements, and that rearrangement is in sort order
    if [comparefn] is a consistent comparator for them; otherwise the order
    is up to the engine.  When the call throws, the exception is the one a
    call of [comparefn] on two elements of the array threw. *)
Definition conformingSort {A}
  (sort : (A -> A -> Res num) -> list A -> SortOutcome A) : Prop :=
  forall comparefn l,
    match sort comparefn l with
    | Reordered l' =>
        l' ≡ₚ l /\ (consistentComparator comparefn l -> sortedBy comparefn l')
    | Aborted e _ =>
        exists a b, a ∈ l /\ b ∈ l /\ comparefn a b = Throw e
    end.

(** One engine that conforms; an exception leaves the array as it was. *)
Definition insertionSort {A} (comparefn : A -> A -> Res num) (l : list A)
  : SortOutcome A :=
  match sortBy comparefn l with
  | Ok l' => Reordered l'
  | Throw e => Aborted e l
  end.

(** [sort] is the engine's [Array.prototype.sort]. *)
Definition getHighestLiquidityPair
           (sort : (PairObject -> PairObject -> Res num) ->
                   list PairObject -> SortOutcome PairObject)
           (dexData : DexScreenerDataRef)
           (arrays : gmap nat (list PairObject))
  : Res (option PairObject) * gmap nat (list PairObject) :=
  match arrays !! ref_pairs dexData with
  | None => (Throw (Exn "TypeError: Cannot read properties of undefined"),
             arrays)
  | Some [] => (Ok None, arrays)
  | Some ps =>
      match sort comparePairs ps with
      | Reordered sorted =>
          (Ok (head sorted), <[ref_pairs dexData := sorted]> arrays)
      | Aborted e remains =>
          (Throw e, <[ref_pairs dexData := remains]> arrays)
      end
  end.

(** [Array.prototype.sort(comparefn)]: a stable sort in which [x] stays in
    front of [y] unless [comparefn(x, y) > 0] (a NaN result counts as 0). *)
Fixpoint sort_insert {A} (comparefn : A -> A -> num) (x : A) (l : list A)
  : list A :=
  match l with
  | [] => [x]
  | y :: rest =>
      if JS.gt (comparefn x y) (Num 0) then y :: sort_insert comparefn x rest
      else x :: l
  end.

Definition array_sort {A} (comparefn : A -> A -> num) (l : list A) : list A :=
  foldr (sort_insert comparefn) [] l.

(** *** Gem score *)

Record GemToken := {
  volume24hUSD : num;
  liquidityUSD : num;
  priceChange24h_percent : num;
  gem_marketCap : num;
}.

Record GemCriteria := {
  volumeThreshold : num;
  liquidityThreshold : num;
  priceSurgeThreshold : num;
  maxMarketCap : num;
}.

Definition normalize (value min max : num) : num :=
  JS.max (Num 0)
         (JS.min (Num 1) (JS.div (JS.sub value min) (JS.sub max min))).

Definition weight_volume24hUSD : num := Num (3 # 10).
Definition weight_liquidityUSD : num := Num (25 # 100).
Definition weight_priceChange24h_percent : num := Num (25 # 100).
Definition weight_marketCap : num := Num (2 # 10).

Definition calculateGemScore (token : GemToken) (criteria : GemCriteria)
  : num :=
  let score := Num 0 in
  let score :=
    JS.add score
      (JS.mul (normalize (volume24hUSD token) (Num 0)
                         (volumeThreshold criteria))
              weight_volume24hUSD) in
  let score :=
    JS.add score
      (JS.mul (normalize (liquidityUSD token) (Num 0)
                         (liquidityThreshold criteria))
              weight_liquidityUSD) in
  let score :=
    JS.add score
      (JS.mul (normalize (JS.abs (priceChange24h_percent token)) (Num 0)
                         (priceSurgeThreshold criteria))
              weight_priceChange24h_percent) in
  let score :=
    JS.add score
      (JS.mul (JS.sub (Num 1)
                      (normalize (gem_marketCap token) (Num 0)
                                 (maxMarketCap criteria)))
              weight_marketCap) in
  JS.round (JS.mul score (Num 100)).

(* ===================================================================== *)
(** ** [TrustScoreManager] *)
(* ===================================================================== *)

Definition DECAY_RATE : Q := 95 # 100.
Definition MAX_DECAY_DAYS : Z := 30.

Section Manager.

Variable toBN : string -> Res num.
Variable toFixed2 : num -> string.
Variable env : Env.
(** [this.tokenProvider]. *)
Variable tokenProvider : TokenProvider.

(** [new Date()], as its timestamp. *)
Definition newDate : M Z := n <- tick ;; ret (dateNow env n).

(** The token-account balance of the recommender's wallet over RPC;
    any failure gives 0. *)
Definition getRecommenederBalance (recommenderWallet : string) : M num :=
  try_catch
    (n <- tick ;;
     match tokenAccountBalance env n with
     | Ok b => ret b
     | Throw e => throw e
     end)
    (fun _ => ret (Num 0)).

(** Modelled from the spec: the relational store's recommender read and
    write (package plugin-trustdb is not among the sources), as a table
    keyed by recommender id that is read by lookup and written by
    replacing the row. *)
Definition db_getRecommenderMetrics (id : string)
  : M (option RecommenderMetrics) :=
  fun w => (Ok (recommenders w !! id), w).

(** Modelled from the spec: the store's recommender write, replacing the
    row of the recommender. *)
Definition db_updateRecommenderMetrics (m : RecommenderMetrics) : M unit :=
  fun w => (Ok tt,
            {| cache := cache w; store := store w;
               recommenders := <[recommenderId m := m]> (recommenders w);
               clock := clock w |}).

(** The three lines both [generateTrustScore] and
    [updateRecommenderMetrics] use to decay the stored trust score. *)
Definition inactiveDays (lastActive now : Z) : Z :=
  (now - lastActive) / (1000 * 60 * 60 * 24).

Definition decayFactor (lastActive now : Z) : Q :=
  Qpower DECAY_RATE (Z.min (inactiveDays lastActive now) MAX_DECAY_DAYS).

Definition decayedScore (recommenderMetrics : RecommenderMetrics) (now : Z)
  : num :=
  JS.mul (trustScore recommenderMetrics)
         (Num (decayFactor (lastActiveDate recommenderMetrics) now)).

Definition calculateRiskScore (tokenPerformance : TokenPerformance) : num :=
  let riskScore := Num 0 in
  let riskScore :=
    if rugPull tokenPerformance
    then JS.add riskScore (Num 10) else riskScore in
  let riskScore :=
    if tp_isScam tokenPerformance
    then JS.add riskScore (Num 10) else riskScore in
  let riskScore :=
    if rapidDump tokenPerformance
    then JS.add riskScore (Num 5) else riskScore in
  let riskScore :=
    if tp_suspiciousVolume tokenPerformance
    then JS.add riskScore (Num 5) else riskScore in
  riskScore.

Definition calculateConsistencyScore (tokenPerformance : TokenPerformance)
           (recommenderMetrics : RecommenderMetrics) : num :=
  JS.abs (JS.sub (priceChange24h tokenPerformance)
                 (avgTokenPerformance recommenderMetrics)).

Definition calculateTrustScore (tokenPerformance : TokenPerformance)
           (recommenderMetrics : RecommenderMetrics) : num :=
  let riskScore := calculateRiskScore tokenPerformance in
  let consistencyScore :=
    calculateConsistencyScore tokenPerformance recommenderMetrics in
  JS.div (JS.add riskScore consistencyScore) (Num 2).

Definition calculateOverallRiskScore (tokenPerformance : TokenPerformance)
           (recommenderMetrics : RecommenderMetrics) : num :=
  let riskScore := calculateRiskScore tokenPerformance in
  let consistencyScore :=
    calculateConsistencyScore tokenPerformance recommenderMetrics in
  JS.div (JS.add riskScore consistencyScore) (Num 2).

Definition updateRecommenderMetrics (id : string)
           (tokenPerformance : TokenPerformance)
           (recommenderWallet : string) : M unit :=
  found <- db_getRecommenderMetrics id ;;
  match found with
  | None => throw (Exn "TypeError: Cannot read properties of null")
  | Some recommenderMetrics =>
      let totalRecommendations' :=
        JS.add (totalRecommendations recommenderMetrics) (Num 1) in
      let successfulRecs' :=
        if rugPull tokenPerformance
        then successfulRecs recommenderMetrics
        else JS.add (successfulRecs recommenderMetrics) (Num 1) in
      let avgTokenPerformance' :=
        JS.div (JS.add (JS.mul (avgTokenPerformance recommenderMetrics)
                               (totalRecommendations recommenderMetrics))
                       (priceChange24h tokenPerformance))
               totalRecommendations' in
      let overallTrustScore :=
        calculateTrustScore tokenPerformance recommenderMetrics in
      let riskScore' :=
        calculateOverallRiskScore tokenPerformance recommenderMetrics in
      let consistencyScore' :=
        calculateConsistencyScore tokenPerformance recommenderMetrics in
      balance <- getRecommenederBalance recommenderWallet ;;
      let virtualConfidence' := JS.div balance (Num 1000000) in
      now <- newDate ;;
      let decayed := decayedScore recommenderMetrics now in
      lastActiveDate' <- newDate ;;
      lastUpdated' <- newDate ;;
      db_updateRecommenderMetrics
        {| recommenderId := id;
           trustScore := overallTrustScore;
           totalRecommendations := totalRecommendations';
           successfulRecs := successfulRecs';
           avgTokenPerformance := avgTokenPerformance';
           riskScore := riskScore';
           consistencyScore := consistencyScore';
           virtualConfidence := virtualConfidence';
           lastActiveDate := lastActiveDate';
           trustDecay := decayed;
           lastUpdated := lastUpdated' |}
  end.

(** [processedData.tradeData.field]: a [TypeError] on a [null]
    [tradeData]. *)
Definition tradeDataOf (processedData : ProcessedTokenData)
  : M TokenTradeData :=
  match tradeData processedData with
  | Some t => ret t
  | None => throw (Exn "TypeError: Cannot read properties of null")
  end.

Definition suspiciousVolume (tokenAddress : string) : M bool :=
  processedData <- getProcessedTokenData toBN toFixed2 env tokenProvider ;;
  t <- tradeDataOf processedData ;;
  let unique_wallet_24h := unique_wallet_24h t in
  let volume_24h := volume_24h t in
  let suspiciousVolume :=
    JS.gt (JS.div unique_wallet_24h volume_24h) (Num (5 # 10)) in
  ret suspiciousVolume.

(** A [null] operand of [<] or [>] converts to 0. *)
Definition sustainedGrowth (tokenAddress : string) : M bool :=
  processedData <- getProcessedTokenData toBN toFixed2 env tokenProvider ;;
  t <- tradeDataOf processedData ;;
  ret (JS.gt (JS.nullish (volume_24h_change_percent t) (Num 0)) (Num 50)).

Definition isRapidDump (tokenAddress : string) : M bool :=
  processedData <- getProcessedTokenData toBN toFixed2 env tokenProvider ;;
  t <- tradeDataOf processedData ;;
  ret (JS.lt (JS.nullish (trade_24h_change_percent t) (Num 0))
             (Num (-50))).

(** The result of [generateTrustScore].  ([validationTrust], computed by
    the trust database, and the date fields of the token performance are
    not part of the modelled records; the date is still read.) *)
Definition generateTrustScore (tokenAddress id recommenderWallet : string)
  : M (TokenPerformance * RecommenderMetrics) :=
  processedData <- getProcessedTokenData toBN toFixed2 env tokenProvider ;;
  found <- db_getRecommenderMetrics id ;;
  isRapidDump' <- isRapidDump tokenAddress ;;
  sustainedGrowth' <- sustainedGrowth tokenAddress ;;
  suspiciousVolume' <- suspiciousVolume tokenAddress ;;
  balance <- getRecommenederBalance recommenderWallet ;;
  let virtualConfidence' := JS.div balance (Num 1000000) in
  match found with
  | None => throw (Exn "TypeError: Cannot read properties of null")
  | Some recommenderMetrics =>
      now <- newDate ;;
      let decayed := decayedScore recommenderMetrics now in
      t <- tradeDataOf processedData ;;
      let firstPair := head (pairs (dexScreenerData processedData)) in
      tokenPerformanceUpdated <- newDate ;;
      let tokenPerformance :=
        {| tp_tokenAddress :=
             match firstPair with
             | Some p =>
                 if JS.truthy_string (bt_address (baseToken p))
                 then bt_address (baseToken p) else ""
             | None => ""
             end;
           priceChange24h := price_change_24h_percent t;
           volumeChange24h := volume_24h t;
           trade_24h_change := trade_24h_change_percent t;
           tp_liquidity :=
             match firstPair with
             | Some p => JS.or (usd (liquidity p)) (Num 0)
             | None => Num 0
             end;
           holderChange24h := unique_wallet_24h_change_percent t;
           rugPull := false;
           tp_isScam := isScam (tokenCodex processedData);
           tp_sustainedGrowth := sustainedGrowth';
           rapidDump := isRapidDump';
           tp_suspiciousVolume := suspiciousVolume';
           tp_balance := balance;
           initialMarketCap :=
             match firstPair with
             | Some p => JS.or (marketCap p) (Num 0)
             | None => Num 0
             end |} in
      lastUpdated' <- newDate ;;
      ret (tokenPerformance,
           {| recommenderId := id;
              trustScore := trustScore recommenderMetrics;
              totalRecommendations :=
                totalRecommendations recommenderMetrics;
              successfulRecs := successfulRecs recommenderMetrics;
              avgTokenPerformance := avgTokenPerformance recommenderMetrics;
              riskScore := riskScore recommenderMetrics;
              consistencyScore := consistencyScore recommenderMetrics;
              virtualConfidence := virtualConfidence';
              lastActiveDate := now;
              trustDecay := decayed;
              lastUpdated := lastUpdated' |})
  end.

End Manager.

(* ===================================================================== *)
(** ** Running the monad *)
(* ===================================================================== *)

(** [m] completes normally from every world. *)
Definition total {A} (m : M A) : Prop :=
  forall w, exists a w', m w = (Ok a, w').

(** [m] leaves the recommender table as it found it, however it ends. *)
Definition keeps_recommenders {A} (m : M A) : Prop :=
  forall w r w', m w = (r, w') -> recommenders w' = recommenders w.

(** The two cache tiers of [w'] are those of [w]. *)
Definition same_caches (w w' : World) : Prop :=
  cache w' = cache w /\ store w' = store w.

(** *** Concrete surroundings, for evaluating the model *)

(** A source that is down at every attempt. *)
Definition unreachable {B} : nat -> Response B :=
  fun _ => NetworkFailure (Exn "fetch failed").

(** Every source down; the cache manager works and an API key is set. *)
Definition offline : Env :=
  {| birdeyeSecurity := unreachable;
     birdeyeOverview := unreachable;
     codexGraphql := unreachable;
     dexScreener := unreachable;
     heliusRpc := unreachable;
     cacheManagerFails := fun _ => false;
     BIRDEYE_API_KEY := Some "key";
     tokenAccountBalance := fun _ => Throw (Exn "fetch failed");
     dateNow := fun _ => 0%Z |}.

(** Every source down and the cache manager down as well. *)
Definition blackout : Env :=
  {| birdeyeSecurity := unreachable;
     birdeyeOverview := unreachable;
     codexGraphql := unreachable;
     dexScreener := unreachable;
     heliusRpc := unreachable;
     cacheManagerFails := fun _ => true;
     BIRDEYE_API_KEY := Some "key";
     tokenAccountBalance := fun _ => Throw (Exn "fetch failed");
     dateNow := fun _ => 0%Z |}.

(** As [offline], but the ledger RPC answers every request with an empty
    list of largest accounts. *)
Definition noHolders : Env :=
  {| birdeyeSecurity := unreachable;
     birdeyeOverview := unreachable;
     codexGraphql := unreachable;
     dexScreener := unreachable;
     heliusRpc := fun _ => Reply true (Some {| hx_value := Some [] |});
     cacheManagerFails := fun _ => false;
     BIRDEYE_API_KEY := Some "key";
     tokenAccountBalance := fun _ => Throw (Exn "fetch failed");
     dateNow := fun _ => 0%Z |}.

(** As [offline], but the ledger RPC answers with one holder account. *)
Definition oneHolder : Env :=
  {| birdeyeSecurity := unreachable;
     birdeyeOverview := unreachable;
     codexGraphql := unreachable;
     dexScreener := unreachable;
     heliusRpc :=
       fun _ => Reply true
                  (Some {| hx_value :=
                             Some [ {| acc_address := Some "holder1";
                                       acc_amount := Some "1000" |} ] |});
     cacheManagerFails := fun _ => false;
     BIRDEYE_API_KEY := Some "key";
     tokenAccountBalance := fun _ => Throw (Exn "fetch failed");
     dateNow := fun _ => 0%Z |}.

Definition emptyWorld : World :=
  {| cache := ∅; store := ∅; recommenders := ∅; clock := 0 |}.

(** Stand-ins for the imported helpers: a [toBN] that reads a string of
    decimal digits (anything else is BigNumber's NaN), a [toFixed] that
    prints no digits, and a [normalizeAddress] that accepts base-58 strings
    of 32 to 44 characters unchanged and throws on anything else. *)
Fixpoint digits_value (s : string) (acc : N) : option N :=
  match s with
  | EmptyString => Some acc
  | String c rest =>
      let n := N_of_ascii c in
      if (48 <=? n)%N && (n <=? 57)%N
      then digits_value rest (acc * 10 + (n - 48))%N
      else None
  end.

Definition demo_toBN (s : string) : Res num :=
  match s with
  | EmptyString => Ok NaN
  | _ => match digits_value s 0%N with
         | Some n => Ok (JS.ofZ (Z.of_N n))
         | None => Ok NaN
         end
  end.

Definition demo_toFixed2 (_ : num) : string := "0.00".

Definition base58_char (c : ascii) : bool :=
  let n := nat_of_ascii c in
  ((49 <=? n)%nat && (n <=? 57)%nat) ||
  ((65 <=? n)%nat && (n <=? 90)%nat && negb (n =? 73)%nat
     && negb (n =? 79)%nat) ||
  ((97 <=? n)%nat && (n <=? 122)%nat && negb (n =? 108)%nat).

Fixpoint all_chars (p : ascii -> bool) (s : string) : bool :=
  match s with
  | EmptyString => true
  | String c rest => p c && all_chars p rest
  end.

Definition demo_normalizeAddress (s : string) : Res string :=
  if all_chars base58_char s
     && (32 <=? String.length s)%nat && (String.length s <=? 44)%nat
  then Ok s
  else Throw (Exn "Invalid address format").

Definition solMint : string := "So11111111111111111111111111111111111111112".

Definition solProvider : TokenProvider := {| tokenAddress := Some solMint |}.

(** Trade data whose four short buckets each report a 15% rise in unique
    wallets and whose 8h and 24h buckets are [null], as the overview
    adapter produces when the source has no history for them. *)
Definition risingTrade : TokenTradeData :=
  {| td_address := Some solMint;
     price := Num 1;
     price_change_24h_percent := Num 0;
     unique_wallet_30m_change_percent := Some (Num 15);
     unique_wallet_1h_change_percent := Some (Num 15);
     unique_wallet_2h_change_percent := Some (Num 15);
     unique_wallet_4h_change_percent := Some (Num 15);
     unique_wallet_8h_change_percent := None;
     unique_wallet_24h := Num 0;
     unique_wallet_24h_change_percent := None;
     trade_24h_change_percent := None;
     volume_24h := Num 0;
     volume_24h_usd := Num 0;
     volume_24h_change_percent := None |}.

(** [t] with every [null] unique-wallet change replaced by 0. *)
Definition zeroFilled (t : TokenTradeData) : TokenTradeData :=
  let fill (x : option num) := Some (JS.nullish x (Num 0)) in
  {| td_address := td_address t;
     price := price t;
     price_change_24h_percent := price_change_24h_percent t;
     unique_wallet_30m_change_percent :=
       fill (unique_wallet_30m_change_percent t);
     unique_wallet_1h_change_percent :=
       fill (unique_wallet_1h_change_percent t);
     unique_wallet_2h_change_percent :=
       fill (unique_wallet_2h_change_percent t);
     unique_wallet_4h_change_percent :=
       fill (unique_wallet_4h_change_percent t);
     unique_wallet_8h_change_percent :=
       fill (unique_wallet_8h_change_percent t);
     unique_wallet_24h := unique_wallet_24h t;
     unique_wallet_24h_change_percent :=
       fill (unique_wallet_24h_change_percent t);
     trade_24h_change_percent := trade_24h_change_percent t;
     volume_24h := volume_24h t;
     volume_24h_usd := volume_24h_usd t;
     volume_24h_change_percent := volume_24h_change_percent t |}.

(** Trade data with a price, 50 unique wallets and no volume over 24h. *)
Definition zeroVolumeTrade : TokenTradeData :=
  {| td_address := Some solMint;
     price := Num 1;
     price_change_24h_percent := Num 0;
     unique_wallet_30m_change_percent := Some (Num 0);
     unique_wallet_1h_change_percent := Some (Num 0);
     unique_wallet_2h_change_percent := Some (Num 0);
     unique_wallet_4h_change_percent := Some (Num 0);
     unique_wallet_8h_change_percent := None;
     unique_wallet_24h := Num 50;
     unique_wallet_24h_change_percent := None;
     trade_24h_change_percent := None;
     volume_24h := Num 0;
     volume_24h_usd := Num 0;
     volume_24h_change_percent := None |}.

(** A world whose memory tier holds [zeroVolumeTrade] for [solMint]. *)
Definition zeroVolumeWorld : World :=
  {| cache := {[ "tokenTradeData_" +:+ solMint := VTrade zeroVolumeTrade ]};
     store := ∅; recommenders := ∅; clock := 0 |}.

(** A recommender with trust score 80, last active at time 0, and a clock
    that reads 40 days later. *)
Definition veteran : RecommenderMetrics :=
  {| recommenderId := "veteran";
     trustScore := Num 80;
     totalRecommendations := Num 4;
     successfulRecs := Num 3;
     avgTokenPerformance := Num 12;
     riskScore := Num 5;
     consistencyScore := Num 2;
     virtualConfidence := Num 0;
     lastActiveDate := 0;
     trustDecay := Num 80;
     lastUpdated := 0 |}.

Definition fortyDaysLater : Env :=
  {| birdeyeSecurity := unreachable;
     birdeyeOverview := unreachable;
     codexGraphql := unreachable;
     dexScreener := unreachable;
     heliusRpc := unreachable;
     cacheManagerFails := fun _ => false;
     BIRDEYE_API_KEY := Some "key";
     tokenAccountBalance := fun _ => Ok (Num 2000000);
     dateNow := fun _ => (40 * (1000 * 60 * 60 * 24))%Z |}.

Definition veteranWorld : World :=
  {| cache := ∅; store := ∅;
     recommenders := {[ "veteran" := veteran ]}; clock := 0 |}.

(** [veteranWorld] with [zeroVolumeTrade] cached for [solMint]. *)
Definition veteranTradingWorld : World :=
  {| cache := {[ "tokenTradeData_" +:+ solMint := VTrade zeroVolumeTrade ]};
     store := ∅;
     recommenders := {[ "veteran" := veteran ]}; clock := 0 |}.

Definition samplePerformance : TokenPerformance :=
  {| tp_tokenAddress := solMint;
     priceChange24h := Num 20;
     volumeChange24h := Num 1000;
     trade_24h_change := None;
     tp_liquidity := Num 5000;
     holderChange24h := None;
     rugPull := false;
     tp_isScam := false;
     tp_sustainedGrowth := false;
     rapidDump := true;
     tp_suspiciousVolume := false;
     tp_balance := Num 0;
     initialMarketCap := Num 100000 |}.

(** Gem criteria and tokens for evaluating the gem score: usual positive
    thresholds, the same with a volume threshold of 0, and two tokens that
    differ in their 24h volume only. *)
Definition usualCriteria : GemCriteria :=
  {| volumeThreshold := Num 100000;
     liquidityThreshold := Num 50000;
     priceSurgeThreshold := Num 20;
     maxMarketCap := Num 1000000 |}.

Definition zeroVolumeThreshold : GemCriteria :=
  {| volumeThreshold := Num 0;
     liquidityThreshold := Num 50000;
     priceSurgeThreshold := Num 20;
     maxMarketCap := Num 1000000 |}.

Definition quietToken : GemToken :=
  {| volume24hUSD := Num 0;
     liquidityUSD := Num 25000;
     priceChange24h_percent := Num (-5);
     gem_marketCap := Num 400000 |}.

Definition busyToken : GemToken :=
  {| volume24hUSD := Num 60000;
     liquidityUSD := Num 25000;
     priceChange24h_percent := Num (-5);
     gem_marketCap := Num 400000 |}.

(** A pair whose liquidity and market cap are finite numbers, as every
    pair parsed from a JSON response with both fields present is. *)
Definition finitePair (p : DexScreenerPair) : Prop :=
  JS.finite (usd (liquidity p)) /\ JS.finite (marketCap p).

(** The same of a pair as the array holds it. *)
Definition finitePairObject (p : PairObject) : Prop :=
  match po_liquidity p, po_marketCap p with
  | Some l, Some cap => JS.finite (usd l) /\ JS.finite cap
  | _, _ => False
  end.

Definition hasLiquidity (p : PairObject) : Prop :=
  po_liquidity p <> None.

(** [a] may stand in front of [b] in an array ordered by descending
    liquidity with ties ordered by descending market cap. *)
Definition ranksBefore (a b : PairObject) : Prop :=
  match po_liquidity a, po_liquidity b with
  | Some la, Some lb =>
      JS.lt (usd lb) (usd la) = true \/
      (JS.same (usd la) (usd lb) /\
       JS.le (toNumber (po_marketCap b)) (toNumber (po_marketCap a)) = true)
  | _, _ => False
  end.

Definition samplePair (liquidityUsd cap : Q) : DexScreenerPair :=
  {| chainId := "solana";
     baseToken := {| bt_address := solMint |};
     liquidity := {| usd := Num liquidityUsd |};
     marketCap := Num cap;
     boosts := None |}.

(** An array store with one array of three pairs at reference 7. *)
Definition threePairs : gmap nat (list PairObject) :=
  {[ 7%nat := map ofPair
                  [ samplePair 100 5; samplePair 300 1; samplePair 100 9 ] ]}.

Definition threePairsData : DexScreenerDataRef :=
  {| ref_schemaVersion := "1.0.0"; ref_pairs := 7 |}.

(** A pair for which the response carries no market cap, and an array in
    which it ties on liquidity with a pair that has one. *)
Definition uncappedPair : PairObject :=
  {| po_baseToken := {| bt_address := solMint |};
     po_liquidity := Some {| usd := Num 100 |};
     po_marketCap := None |}.

Definition tiedPairs : gmap nat (list PairObject) :=
  {[ 7%nat := [ uncappedPair; ofPair (samplePair 100 5) ] ]}.

(** A pair without a [liquidity] object. *)
Definition illiquidPair : PairObject :=
  {| po_baseToken := {| bt_address := solMint |};
     po_liquidity := None;
     po_marketCap := Some (Num 5) |}.

(** The trend as the specification words it: the average runs over the
    buckets that hold a number, and buckets holding [null] are left out. *)
Definition trendExcludingNulls (t : TokenTradeData) : string :=
  let known :=
    omap validChange
         [ unique_wallet_30m_change_percent t;
           unique_wallet_1h_change_percent t;
           unique_wallet_2h_change_percent t;
           unique_wallet_4h_change_percent t;
           unique_wallet_8h_change_percent t;
           unique_wallet_24h_change_percent t ] in
  match known with
  | [] => "stable"
  | _ :: _ =>
      let average :=
        JS.div (fold_left JS.add known (Num 0))
               (JS.ofZ (Z.of_nat (length known))) in
      if JS.gt average (Num 10) then "increasing"
      else if JS.lt average (Num (-10)) then "decreasing"
      else "stable"
  end.

(** A response on which a request fails: the network failed, the body is
    not JSON, or (where the caller checks [response.ok]) the status is not
    a success. *)
Definition responseFails {B} (checksOk : bool) (r : Response B) : bool :=
  match r with
  | NetworkFailure _ => true
  | Reply _ None => true
  | Reply ok (Some _) => checksOk && negb ok
  end.

Definition alwaysFails {B} (checksOk : bool) (source : nat -> Response B)
  : Prop :=
  forall n, responseFails checksOk (source n) = true.

(** A lookup under [key] that finds nothing in either tier. *)
Definition misses (env : Env) (key : string) (w : World) : Prop :=
  fst (getCachedData env key w) = Ok None.

(** The world after [k] more external operations. *)
Definition later (k : nat) (w : World) : World :=
  {| cache := cache w; store := store w;
     recommenders := recommenders w; clock := k + clock w |}.

(* ===================================================================== *)
(** ** Further methods of [TokenProvider] *)
(* ===================================================================== *)

(** The labels of the gem criteria a token matches, in the order the
    method tests them. *)
Definition evaluateGemCriteria (token : GemToken) (criteria : GemCriteria)
  : list string :=
  let matches := [] in
  let matches :=
    if JS.gt (liquidityUSD token) (liquidityThreshold criteria)
    then matches ++ ["High Liquidity"] else matches in
  let matches :=
    if JS.gt (volume24hUSD token) (volumeThreshold criteria)
    then matches ++ ["High Volume"] else matches in
  let matches :=
    if JS.gt (JS.abs (priceChange24h_percent token))
             (priceSurgeThreshold criteria)
    then matches ++ ["Recent Price Surge"] else matches in
  let matches :=
    if JS.lt (gem_marketCap token) (maxMarketCap criteria)
    then matches ++ ["Low Market Cap"] else matches in
  matches.

Definition getRiskReason (token : GemToken) (criteria : GemCriteria)
  : string :=
  if JS.gt (JS.abs (priceChange24h_percent token)) (Num 50)
  then "recent extreme volatility"
  else if JS.lt (liquidityUSD token)
                (JS.div (liquidityThreshold criteria) (Num 2))
       then "low liquidity"
       else "stable market conditions".

Definition assessRisk (token : GemToken) (criteria : GemCriteria) : string :=
  let riskLevel := "Low" in
  let riskLevel :=
    if JS.gt (JS.abs (priceChange24h_percent token)) (Num 50) then "High"
    else if JS.lt (liquidityUSD token)
                  (JS.div (liquidityThreshold criteria) (Num 2))
         then "Moderate"
         else riskLevel in
  "**Risk:** " +:+ riskLevel +:+ ", due to " +:+ getRiskReason token criteria.

(* ===================================================================== *)
(** ** Further methods of [TrustScoreManager] *)
(* ===================================================================== *)

(** [createTradeInBe]: up to [retries] requests to the backend; the first
    one that does not reject ends the method, whatever its status, and a
    rejection of the last one is only logged.  The backend is an oracle
    like the other sources. *)
Fixpoint createTradeInBe_loop {B} (backend : nat -> Response B)
         (remaining : nat) : M unit :=
  match remaining with
  | O => ret tt
  | S k =>
      try_catch
        (response <- fetch backend ;;
         match response with
         | NetworkFailure e => throw e
         | Reply _ _ => ret tt
         end)
        (fun _ => createTradeInBe_loop backend k)
  end.

Definition createTradeInBe {B} (backend : nat -> Response B) (retries : nat)
  : M unit :=
  createTradeInBe_loop backend retries.

(* ===================================================================== *)
(** ** [RiskAnalyzer] and [MarketAnalyzer]

    The methods of [utils/riskAnalysis.ts] and [utils/marketAnalysis.ts]
    that read fields the data model carries.  A [BigNumber] is a [num], as
    in the provider.  Where nothing inside a method's [try] block can throw
    on a [ProcessedTokenData], its [catch] block is unreachable and left
    out; where the block reads a field of [data.tradeData], a [null]
    [tradeData] leads to the [catch] block's value. *)
(* ===================================================================== *)

(** [data.dexScreenerData?.pairs?.[0]?.liquidity?.usd || 0]. *)
Definition firstPairLiquidity (data : ProcessedTokenData) : num :=
  match head (pairs (dexScreenerData data)) with
  | Some first => JS.or (usd (liquidity first)) (Num 0)
  | None => Num 0
  end.

(** [data.dexScreenerData?.pairs?.[0]?.marketCap || 0]. *)
Definition firstPairMarketCap (data : ProcessedTokenData) : num :=
  match head (pairs (dexScreenerData data)) with
  | Some first => JS.or (marketCap first) (Num 0)
  | None => Num 0
  end.

(** [RiskAnalyzer.calculateVolatility] reads [price_change_1h_percent],
    a field of the trade data that the record above does not carry; it is
    the accessor [price_change_1h_percent] here. *)
Definition calculateVolatility
           (price_change_1h_percent : TokenTradeData -> option num)
           (data : ProcessedTokenData) : num :=
  match tradeData data with
  | None => Num 50
  | Some t =>
      let timeframes :=
        [ (JS.or_default (price_change_1h_percent t) (Num 0), Num (3 # 10));
          (JS.or (price_change_24h_percent t) (Num 0), Num (7 # 10)) ] in
      let weightedVolatility :=
        fold_left
          (fun acc timeframe =>
             JS.add acc (JS.mul (JS.abs (fst timeframe)) (snd timeframe)))
          timeframes (Num 0) in
      JS.min (Num 100) weightedVolatility
  end.

Definition calculateLiquidityRisk (data : ProcessedTokenData) : num :=
  let liquidity := firstPairLiquidity data in
  let marketCap := firstPairMarketCap data in
  if isZero marketCap then Num 100
  else
    let liquidityRatio := JS.mul (JS.div liquidity marketCap) (Num 100) in
    let riskScore := JS.max (Num 0) (JS.sub (Num 100) liquidityRatio) in
    JS.min (Num 100) riskScore.

Definition calculateHolderConcentration (data : ProcessedTokenData) : num :=
  let concentration := JS.or (top10HolderPercent (security data)) (Num 0) in
  JS.min (Num 100) (JS.mul (JS.div concentration (Num 80)) (Num 100)).

Definition calculateSecurityScore (data : ProcessedTokenData) : num :=
  let factors :=
    [ (match blueCheckmark (tokenCodex data) with
       | Some true => Num 0
       | _ => Num 100
       end, Num (3 # 10));
      (JS.or (creatorPercentage (security data)) (Num 0), Num (4 # 10));
      (if isScam (tokenCodex data) then Num 100 else Num 0, Num (3 # 10)) ] in
  let weightedScore :=
    fold_left (fun acc factor => JS.add acc (JS.mul (fst factor) (snd factor)))
              factors (Num 0) in
  JS.min (Num 100) weightedScore.

Definition calculateMarketStability (data : ProcessedTokenData) : num :=
  match tradeData data with
  | None => Num 50
  | Some t =>
      let factors :=
        [ (JS.abs (JS.or_default (trade_24h_change_percent t) (Num 0)),
           Num (4 # 10));
          (JS.abs (JS.or_default (volume_24h_change_percent t) (Num 0)),
           Num (3 # 10));
          (JS.or_default (unique_wallet_24h_change_percent t) (Num 0),
           Num (3 # 10)) ] in
      let stabilityScore :=
        fold_left
          (fun acc factor =>
             JS.add acc (JS.mul (JS.min (Num 100) (JS.abs (fst factor)))
                                (snd factor)))
          factors (Num 0) in
      JS.min (Num 100) stabilityScore
  end.

(** The argument of [calculateOverallRisk]. *)
Record RiskSubscores := {
  volatilityScore : num;
  liquidityRisk : num;
  holderConcentration : num;
  securityScore : num;
  marketStability : num;
}.

Definition calculateOverallRisk (metrics : RiskSubscores) : num :=
  let weights :=
    [ (volatilityScore metrics, Num (25 # 100));
      (liquidityRisk metrics, Num (25 # 100));
      (holderConcentration metrics, Num (2 # 10));
      (securityScore metrics, Num (2 # 10));
      (marketStability metrics, Num (1 # 10)) ] in
  let overallRisk :=
    fold_left (fun acc entry => JS.add acc (JS.mul (fst entry) (snd entry)))
              weights (Num 0) in
  JS.min (Num 100) (JS.round overallRisk).

(** [MarketAnalyzer.calculateLiquidityChange]: the "previous" liquidity is
    taken to be 95% of the current one. *)
Definition calculateLiquidityChange (data : ProcessedTokenData) : num :=
  match head (pairs (dexScreenerData data)) with
  | None => Num 0
  | Some first =>
      let currentLiquidity := JS.or (usd (liquidity first)) (Num 0) in
      let previousLiquidity := JS.mul currentLiquidity (Num (95 # 100)) in
      if isZero previousLiquidity then Num 0
      else
        JS.mul (JS.div (JS.sub currentLiquidity previousLiquidity)
                       previousLiquidity)
               (Num 100)
  end.

(* ===================================================================== *)
(** ** Further concrete surroundings *)
(* ===================================================================== *)

(** A source that rejects its first two requests and answers the third. *)
Definition flaky : nat -> Response nat :=
  fun n => if (n <? 2)%nat then NetworkFailure (Exn "ECONNRESET")
           else Reply true (Some 7%nat).

(** A source that rejects twice and then, for good, answers with an HTTP
    error status. *)
Definition failing : nat -> Response nat :=
  fun n => if (n <? 2)%nat then NetworkFailure (Exn "ECONNRESET")
           else NetworkFailure (Exn "ETIMEDOUT").

(** A world whose file tier alone holds the default security record of
    [solMint]. *)
Definition fileTierWorld : World :=
  {| cache := ∅;
     store :=
       {[ path_join cacheKey ("tokenSecurity_" +:+ toLowerCase solMint)
          := VSecurity defaultSecurity ]};
     recommenders := ∅; clock := 0 |}.

(** A security answer in which the owner fields are missing. *)
Definition creatorOnly : RawSecurity :=
  {| raw_ownerBalance := None;
     raw_creatorBalance := Some "250";
     raw_ownerPercentage := None;
     raw_creatorPercentage := Some (Num (1 # 4));
     raw_top10HolderBalance := Some "600";
     raw_top10HolderPercent := Some (Num (6 # 10));
     raw_totalSupply := Some "1000" |}.

(** As [oneHolder], and the security source answers with [creatorOnly]. *)
Definition securityUp : Env :=
  {| birdeyeSecurity :=
       fun _ => Reply true (Some {| sec_success := true;
                                    sec_data := Some creatorOnly |});
     birdeyeOverview := unreachable;
     codexGraphql := unreachable;
     dexScreener := unreachable;
     heliusRpc :=
       fun _ => Reply true
                  (Some {| hx_value :=
                             Some [ {| acc_address := Some "holder1";
                                       acc_amount := Some "1000" |};
                                    {| acc_address := Some "";
                                       acc_amount := Some "5" |};
                                    {| acc_address := Some "holder3";
                                       acc_amount := Some "3" |} ] |});
     cacheManagerFails := fun _ => false;
     BIRDEYE_API_KEY := Some "key";
     tokenAccountBalance := fun _ => Throw (Exn "fetch failed");
     dateNow := fun _ => 0%Z |}.

(** A usable holder: neither its address nor its balance is empty. *)
Definition validHolder (h : HolderData) : Prop :=
  JS.truthy_string (address h) = true /\ JS.truthy_string (balance h) = true.

(** [holder]'s entry in the list of high-value holders at token price
    [tokenPriceUsd], if its balance is worth more than 5 USD. *)
Definition highValueEntry (toBN : string -> Res num)
           (toFixed2 : num -> string) (tokenPriceUsd : num)
           (holder : HolderData) : option HighValueHolder :=
  match toBN (balanceOrZero holder) with
  | Ok b =>
      if JS.gt (JS.mul b tokenPriceUsd) (Num 5)
      then Some {| holderAddress := address holder;
                   balanceUsd := toFixed2 (JS.mul b tokenPriceUsd) |}
      else None
  | Throw _ => None
  end.

(** [w'] holds what [w] holds under every memory-tier key outside [keys]
    and under every file-tier path outside [slots]. *)
Definition agree_outside (keys slots : list string) (w w' : World) : Prop :=
  (forall k, ~ In k keys -> cache w' !! k = cache w !! k) /\
  (forall s, ~ In s slots -> store w' !! s = store w !! s).

(** [m] changes the memory tier under the keys [keys] only and the file
    tier under the paths [slots] only, however it ends. *)
Definition writes_within {A} (keys slots : list string) (m : M A) : Prop :=
  forall w r w', m w = (r, w') -> agree_outside keys slots w w'.

(** The five cache keys of a provider for the token at [addr]. *)
Definition providerKeys (addr : string) : list string :=
  [ "tokenSecurity_" +:+ toLowerCase addr;
    "token_" +:+ addr;
    "tokenTradeData_" +:+ addr;
    "dexScreenerData_" +:+ addr;
    "holderList_" +:+ addr ].

(** The file-tier paths of the provider: its five keys inside the cache
    directory, and the trade-data key as it stands, which
    [getProcessedTokenData] hands to [cacheManager.delete] without the
    directory. *)
Definition providerSlots (addr : string) : list string :=
  map (path_join cacheKey) (providerKeys addr)
  ++ [ "tokenTradeData_" +:+ addr ].

(** Neither tier of [w] holds an entry under [key]. *)
Definition absent (key : string) (w : World) : Prop :=
  cache w !! key = None /\ store w !! path_join cacheKey key = None.

(** As [securityUp], but no API key for the overview source is
    configured. *)
Definition noApiKey : Env :=
  {| birdeyeSecurity := birdeyeSecurity securityUp;
     birdeyeOverview := unreachable;
     codexGraphql := unreachable;
     dexScreener := unreachable;
     heliusRpc := heliusRpc securityUp;
     cacheManagerFails := fun _ => false;
     BIRDEYE_API_KEY := None;
     tokenAccountBalance := fun _ => Throw (Exn "fetch failed");
     dateNow := fun _ => 0%Z |}.

(** A world whose file tier holds an entry under the bare trade-data key
    of [solMint], outside the cache directory. *)
Definition bareKeyWorld : World :=
  {| cache := ∅;
     store := {[ "tokenTradeData_" +:+ solMint := VSecurity defaultSecurity ]};
     recommenders := ∅; clock := 0 |}.

(** A token that matches all four gem criteria of [usualCriteria]. *)
Definition gemToken : GemToken :=
  {| volume24hUSD := Num 250000;
     liquidityUSD := Num 80000;
     priceChange24h_percent := Num (-35);
     gem_marketCap := Num 400000 |}.

(** A number that is not negative: a rational from 0 up, or [Infinity]. *)
Definition nonnegative (a : num) : Prop :=
  match a with
  | Num q => (0 <= q)%Q
  | PosInf => True
  | _ => False
  end.

(** A number on the 0 to 100 scale of the risk metrics. *)
Definition percentage (a : num) : Prop :=
  match a with
  | Num q => (0 <= q <= 100)%Q
  | _ => False
  end.

(** A snapshot of a listed token: one pair with 40000 USD of liquidity
    against a market cap of 100000, a creator holding 25% and the ten
    largest holders 60%. *)
Definition listedSnapshot : ProcessedTokenData :=
  {| security :=
       {| ownerBalance := "0";
          creatorBalance := "250";
          ownerPercentage := Num 0;
          creatorPercentage := Num 25;
          top10HolderBalance := "600";
          top10HolderPercent := Num 60;
          totalSupply := "1000" |};
     tradeData := Some risingTrade;
     holderDistributionTrend := "stable";
     highValueHolders := [];
     recentTrades := false;
     highSupplyHoldersCount := 0;
     dexScreenerData :=
       {| schemaVersion := "1.0.0"; pairs := [samplePair 40000 100000] |};
     isDexScreenerListed := true;
     isDexScreenerPaid := false;
     tokenCodex := defaultCodex solProvider |}.

(* ===================================================================== *)
(** ** Prices and buy amounts

    [fetchPrices] caches a [Prices] object under the key "prices".  The
    cache values of the [World] have no case for it, so the entry under
    that key is kept in slots of its own, one per tier, next to the
    [World]; methods that touch it run in [MP], the same monad over the
    pair of both. *)
(* ===================================================================== *)

(** [{ usd: string }]. *)
Record UsdQuote := { quote_usd : string }.

Record Prices := {
  solana : UsdQuote;
  bitcoin : UsdQuote;
  ethereum : UsdQuote;
}.

Record CalculatedBuyAmounts := {
  none : num;
  low : num;
  medium : num;
  high : num;
}.

(** The answer of the price endpoint, as far as [response?.data?.value]
    reads it. *)
Record PriceData := { pd_value : option num }.
Record PriceReply := { pr_data : option PriceData }.

(** The entry under the key "prices" in the memory tier and in the file
    tier. *)
Record PriceSlots := {
  memoryPrices : option Prices;
  filePrices : option Prices;
}.

Definition MP (A : Type) : Type :=
  World * PriceSlots -> Res A * (World * PriceSlots).

Definition retP {A} (a : A) : MP A := fun ws => (Ok a, ws).

Definition throwP {A} (e : exn) : MP A := fun ws => (Throw e, ws).

Definition bindP {A B} (m : MP A) (k : A -> MP B) : MP B :=
  fun ws =>
    match m ws with
    | (Ok a, ws') => k a ws'
    | (Throw e, ws') => (Throw e, ws')
    end.

Definition try_catchP {A} (m : MP A) (h : exn -> MP A) : MP A :=
  fun ws =>
    match m ws with
    | (Ok a, ws') => (Ok a, ws')
    | (Throw e, ws') => h e ws'
    end.

(** A method of the provider that leaves the "prices" entry alone. *)
Definition liftP {A} (m : M A) : MP A :=
  fun ws =>
    match m (fst ws) with
    | (r, w') => (r, (w', snd ws))
    end.

Declare Scope price_scope.
Delimit Scope price_scope with price.
Notation "x <- m ;; k" := (bindP m (fun x => k))
  (at level 100, m at next level, right associativity) : price_scope.
Notation "m ;; k" := (bindP m (fun _ => k))
  (at level 100, right associativity) : price_scope.

Definition SOL : string := "So11111111111111111111111111111111111111112".
Definition BTC : string := "3NZ9JMVBmGAqocybic2c7LQCJScmgsAZ6vQqTDzcqmJh".
Definition ETH : string := "7vfCXTUXx5WJV5JADk17DUJ4ksgau7utNKj4b963voxs".

Definition zeroPrices : Prices :=
  {| solana := {| quote_usd := "0" |};
     bitcoin := {| quote_usd := "0" |};
     ethereum := {| quote_usd := "0" |} |}.

Definition noBuyAmounts : CalculatedBuyAmounts :=
  {| none := Num 0; low := Num 0; medium := Num 0; high := Num 0 |}.

Section PricesOfProvider.

Variable toBN : string -> Res num.
Variable env : Env.
(** The price endpoint, per requested token address, and
    [Number.prototype.toString]. *)
Variable birdeyePrice : string -> nat -> Response PriceReply.
Variable numberToString : num -> string.

Definition memoryPrices_get : MP (option Prices) :=
  fun ws => (Ok (memoryPrices (snd ws)), ws).

Definition memoryPrices_set (data : Prices) : MP unit :=
  fun ws => (Ok tt,
             (fst ws, {| memoryPrices := Some data;
                         filePrices := filePrices (snd ws) |})).

(** [readFromCache], [writeToCache], [getCachedData] and [setCachedData]
    at the key "prices". *)
Definition readPricesFromCache : MP (option Prices) :=
  try_catchP
    (n <- liftP tick ;;
     if cacheManagerFails env n
     then throwP (Exn "cache manager unavailable")
     else fun ws => (Ok (filePrices (snd ws)), ws))%price
    (fun _ => retP None).

Definition writePricesToCache (data : Prices) : MP unit :=
  try_catchP
    (n <- liftP tick ;;
     if cacheManagerFails env n
     then throwP (Exn "cache manager unavailable")
     else fun ws => (Ok tt,
                     (fst ws, {| memoryPrices := memoryPrices (snd ws);
                                 filePrices := Some data |})))%price
    (fun _ => retP tt).

Definition getCachedPrices : MP (option Prices) :=
  try_catchP
    (cachedData <- memoryPrices_get ;;
     match cachedData with
     | Some p => retP (Some p)
     | None =>
         fileCachedData <- readPricesFromCache ;;
         match fileCachedData with
         | Some p => memoryPrices_set p ;; retP (Some p)
         | None => retP None
         end
     end)%price
    (fun _ => retP None).

Definition setCachedPrices (data : Prices) : MP unit :=
  try_catchP
    (memoryPrices_set data ;; writePricesToCache data)%price
    (fun _ => retP tt).

(** [prices[token === SOL ? "solana" : token === BTC ? "bitcoin" :
    "ethereum"].usd = price]. *)
Definition setUsd (token price : string) (prices : Prices) : Prices :=
  if String.eqb token SOL
  then {| solana := {| quote_usd := price |};
          bitcoin := bitcoin prices;
          ethereum := ethereum prices |}
  else if String.eqb token BTC
       then {| solana := solana prices;
               bitcoin := {| quote_usd := price |};
               ethereum := ethereum prices |}
       else {| solana := solana prices;
               bitcoin := bitcoin prices;
               ethereum := {| quote_usd := price |} |}.

(** The body of the loop over the three tokens: a failed request leaves
    the prices as they are and the loop goes on. *)
Definition fetchPriceOf (token : string) (prices : Prices) : MP Prices :=
  try_catchP
    (response <- liftP (fetchWithRetry (birdeyePrice token)) ;;
     match (match pr_data response with
            | Some d => pd_value d
            | None => None
            end) with
     | Some value =>
         if JS.truthy value
         then retP (setUsd token (numberToString value) prices)
         else retP prices
     | None => retP prices
     end)%price
    (fun _ => retP prices).

Fixpoint fetchPricesOf (tokens : list string) (prices : Prices)
  : MP Prices :=
  match tokens with
  | [] => retP prices
  | token :: rest =>
      (prices' <- fetchPriceOf token prices ;;
       fetchPricesOf rest prices')%price
  end.

Definition fetchPrices : MP Prices :=
  try_catchP
    (cachedData <- getCachedPrices ;;
     match cachedData with
     | Some p => retP p
     | None =>
         prices <- fetchPricesOf [SOL; BTC; ETH] zeroPrices ;;
         if existsb (fun p => negb (String.eqb (quote_usd p) "0"))
                    [solana prices; bitcoin prices; ethereum prices]
         then setCachedPrices prices ;; retP prices
         else retP prices
     end)%price
    (fun _ => retP zeroPrices).

(** [toBN] of a number is that number; [toBN] of the price string is the
    imported function, outside any [try] block. *)
Definition calculateBuyAmounts (self : TokenProvider)
  : MP CalculatedBuyAmounts :=
  (dexScreenerData <- liftP (fetchDexScreenerData env self) ;;
   prices <- fetchPrices ;;
   solPrice <- liftP (toBN_M toBN (quote_usd (solana prices))) ;;
   match pairs dexScreenerData with
   | [] => retP noBuyAmounts
   | first :: _ =>
       let liquidityUsd := JS.or (usd (liquidity first)) (Num 0) in
       if JS.le liquidityUsd (Num 0) then retP noBuyAmounts
       else
         let lowBuyAmountUSD := JS.mul liquidityUsd (Num (1 # 100)) in
         let mediumBuyAmountUSD := JS.mul liquidityUsd (Num (5 # 100)) in
         let highBuyAmountUSD := JS.mul liquidityUsd (Num (1 # 10)) in
         retP {| none := Num 0;
                 low := JS.div lowBuyAmountUSD solPrice;
                 medium := JS.div mediumBuyAmountUSD solPrice;
                 high := JS.div highBuyAmountUSD solPrice |}
   end)%price.

End PricesOfProvider.

(** No "prices" entry in either tier. *)
Definition noPrices : PriceSlots :=
  {| memoryPrices := None; filePrices := None |}.

(** A price endpoint that is down for every token. *)
Definition priceless : string -> nat -> Response PriceReply :=
  fun _ => unreachable.

(** As [offline], but the DEX source lists one pair of [solMint] with
    40000 USD of liquidity. *)
Definition dexUp : Env :=
  {| birdeyeSecurity := unreachable;
     birdeyeOverview := unreachable;
     codexGraphql := unreachable;
     dexScreener :=
       fun _ => Reply true
                  (Some {| dx_schemaVersion := Some "1.0.0";
                           dx_pairs := Some [samplePair 40000 100000] |});
     heliusRpc := unreachable;
     cacheManagerFails := fun _ => false;
     BIRDEYE_API_KEY := Some "key";
     tokenAccountBalance := fun _ => Throw (Exn "fetch failed");
     dateNow := fun _ => 0%Z |}.

(* ===================================================================== *)
(** ** Risk concerns and trend summary *)
(* ===================================================================== *)

(** [{ ...metrics, overallRisk }], the value [calculateRiskMetrics]
    builds from the five metrics. *)
Record RiskMetrics := {
  subscores : RiskSubscores;
  overallRisk : num;
}.

Definition withOverallRisk (metrics : RiskSubscores) : RiskMetrics :=
  {| subscores := metrics; overallRisk := calculateOverallRisk metrics |}.

(** The array [concerns] that [formatRiskConcerns] fills. *)
Definition riskConcerns (riskMetrics : RiskMetrics) : list string :=
  let concerns := [] in
  let concerns :=
    if JS.gt (volatilityScore (subscores riskMetrics)) (Num 70)
    then concerns ++ ["high volatility"] else concerns in
  let concerns :=
    if JS.gt (liquidityRisk (subscores riskMetrics)) (Num 70)
    then concerns ++ ["low liquidity"] else concerns in
  let concerns :=
    if JS.gt (holderConcentration (subscores riskMetrics)) (Num 70)
    then concerns ++ ["concentrated holdings"] else concerns in
  let concerns :=
    if JS.gt (securityScore (subscores riskMetrics)) (Num 70)
    then concerns ++ ["security risks"] else concerns in
  let concerns :=
    if JS.gt (marketStability (subscores riskMetrics)) (Num 70)
    then concerns ++ ["market instability"] else concerns in
  let concerns :=
    if JS.gt (overallRisk riskMetrics) (Num 80)
    then concerns ++ ["extreme risk level"]
    else if JS.gt (overallRisk riskMetrics) (Num 60)
         then concerns ++ ["elevated risk level"]
         else concerns in
  concerns.

Definition formatRiskConcerns (riskMetrics : RiskMetrics) : string :=
  let concerns := riskConcerns riskMetrics in
  if (0 <? length concerns)%nat
  then "Key Risks: " +:+ String.concat ", " concerns
  else "No major concerns identified".







(** Metrics on the risk scale with two of them above 70. *)
Definition riskyScores : RiskSubscores :=
  {| volatilityScore := Num 100;
     liquidityRisk := Num 100;
     holderConcentration := Num 70;
     securityScore := Num 70;
     marketStability := Num 70 |}.


(* ===================================================================== *)
(** ** [shouldTradeToken] *)
(* ===================================================================== *)

(** [s || "0"] on a string. *)
Definition orZeroString (s : string) : string :=
  if JS.truthy_string s then s else "0".

(** [shouldTradeToken].  [toBN] of a number is that number, as above.
    [bigNumberOf] is [BigNumber]'s own reading of a string operand (of
    [plus]), and [price_change_12h_percent] a field of the trade data that
    the record above does not carry. *)
Definition shouldTradeToken (toBN : string -> Res num)
           (toFixed2 : num -> string) (env : Env)
           (bigNumberOf : string -> num)
           (price_change_12h_percent : TokenTradeData -> option num)
           (self : TokenProvider) : M bool :=
  try_catch
    (tokenData <- getProcessedTokenData toBN toFixed2 env self ;;
     match head (pairs (dexScreenerData tokenData)) with
     | None => ret false
     | Some first =>
         let ownerBalance := ownerBalance (security tokenData) in
         let creatorBalance := creatorBalance (security tokenData) in
         let liquidityUsd := JS.or (usd (liquidity first)) (Num 0) in
         let marketCapUsd := JS.or (marketCap first) (Num 0) in
         owner <- toBN_M toBN (orZeroString ownerBalance) ;;
         let totalSupply :=
           JS.add owner (bigNumberOf (orZeroString creatorBalance)) in
         owner' <- toBN_M toBN (orZeroString ownerBalance) ;;
         let ownerPercentage := JS.div owner' totalSupply in
         creator <- toBN_M toBN (orZeroString creatorBalance) ;;
         let creatorPercentage := JS.div creator totalSupply in
         match tradeData tokenData with
         | None => ret false
         | Some t =>
             volume <- (if JS.truthy (volume_24h_usd t)
                        then ret (volume_24h_usd t)
                        else toBN_M toBN "0") ;;
             let top10HolderPercent := JS.div volume totalSupply in
             let priceChange24hPercent :=
               JS.or (price_change_24h_percent t) (Num 0) in
             let priceChange12hPercent :=
               JS.or_default (price_change_12h_percent t) (Num 0) in
             let uniqueWallet24h := JS.or (unique_wallet_24h t) (Num 0) in
             let volume24hUsd := JS.or (volume_24h_usd t) (Num 0) in
             let volume24hUsdThreshold := Num 1000 in
             let priceChange24hPercentThreshold := Num 10 in
             let priceChange12hPercentThreshold := Num 5 in
             let top10HolderPercentThreshold := Num (5 # 100) in
             let uniqueWallet24hThreshold := Num 100 in
             let isTop10Holder :=
               JS.le top10HolderPercentThreshold top10HolderPercent in
             let isVolume24h := JS.le volume24hUsdThreshold volume24hUsd in
             let isPriceChange24h :=
               JS.le priceChange24hPercentThreshold priceChange24hPercent in
             let isPriceChange12h :=
               JS.le priceChange12hPercentThreshold priceChange12hPercent in
             let isUniqueWallet24h :=
               JS.le uniqueWallet24hThreshold uniqueWallet24h in
             let isLiquidityTooLow := JS.lt liquidityUsd (Num 1000) in
             let isMarketCapTooLow := JS.lt marketCapUsd (Num 100000) in
             ret (isTop10Holder || isVolume24h || isPriceChange24h
                  || isPriceChange12h || isUniqueWallet24h
                  || isLiquidityTooLow || isMarketCapTooLow)
         end
     end)
    (fun error => throw error).

(** As [offline], but the DEX source lists one pair of [solMint] with
    500 USD of liquidity and a market cap of 50000. *)
Definition thinMarket : Env :=
  {| birdeyeSecurity := unreachable;
     birdeyeOverview := unreachable;
     codexGraphql := unreachable;
     dexScreener :=
       fun _ => Reply true
                  (Some {| dx_schemaVersion := Some "1.0.0";
                           dx_pairs := Some [samplePair 500 50000] |});
     heliusRpc := unreachable;
     cacheManagerFails := fun _ => false;
     BIRDEYE_API_KEY := Some "key";
     tokenAccountBalance := fun _ => Throw (Exn "fetch failed");
     dateNow := fun _ => 0%Z |}.

(* ===================================================================== *)
(** ** [getRecommendations] *)
(* ===================================================================== *)

(** The fields of a [TokenRecommendation] that the method reads. *)
Record TokenRecommendation := {
  rec_recommenderId : string;
  rec_tokenAddress : string;
}.

(** One element of [recommenders] in a summary. *)
Record RecommenderData := {
  rd_recommenderId : string;
  rd_trustScore : num;
  rd_riskScore : num;
  rd_consistencyScore : num;
  rd_recommenderMetrics : RecommenderMetrics;
}.

Record TokenRecommendationSummary := {
  sum_tokenAddress : string;
  averageTrustScore : num;
  averageRiskScore : num;
  averageConsistencyScore : num;
  sum_recommenders : list RecommenderData;
}.

(** The accumulators of the [forEach] over the recommendations of one
    token. *)
Record Totals := {
  totalTrustScore : num;
  totalRiskScore : num;
  totalConsistencyScore : num;
  recommenderData : list RecommenderData;
}.

Section Recommendations.

(** The three reads of the trust database (package plugin-trustdb); a
    missing row is [null]. *)
Variable getRecommendationsByDateRange : Z -> Z -> list TokenRecommendation.
Variable getTokenPerformance : string -> option TokenPerformance.
Variable getRecommenderMetrics : string -> option RecommenderMetrics.

(** The callback of [reduce]: push the recommendation on the array of its
    token address, creating the array at the first one.  The object is an
    association list in the order in which the keys were created, which is
    the order of [Object.keys] for keys that are not array indices. *)
Fixpoint groupPush (acc : list (string * list TokenRecommendation))
         (recommendation : TokenRecommendation)
  : list (string * list TokenRecommendation) :=
  match acc with
  | [] => [(rec_tokenAddress recommendation, [recommendation])]
  | (tokenAddress, recommendations) :: rest =>
      if String.eqb tokenAddress (rec_tokenAddress recommendation)
      then (tokenAddress, recommendations ++ [recommendation]) :: rest
      else (tokenAddress, recommendations) :: groupPush rest recommendation
  end.

(** The callback of [forEach]; reading a field of a missing row is a
    [TypeError]. *)
Definition accumulate (totals : Totals) (recommendation : TokenRecommendation)
  : Res Totals :=
  match getTokenPerformance (rec_tokenAddress recommendation),
        getRecommenderMetrics (rec_recommenderId recommendation) with
  | Some tokenPerformance, Some recommenderMetrics =>
      let trustScore :=
        calculateTrustScore tokenPerformance recommenderMetrics in
      let consistencyScore :=
        calculateConsistencyScore tokenPerformance recommenderMetrics in
      let riskScore := calculateRiskScore tokenPerformance in
      Ok {| totalTrustScore := JS.add (totalTrustScore totals) trustScore;
            totalRiskScore := JS.add (totalRiskScore totals) riskScore;
            totalConsistencyScore :=
              JS.add (totalConsistencyScore totals) consistencyScore;
            recommenderData :=
              recommenderData totals
              ++ [ {| rd_recommenderId := rec_recommenderId recommendation;
                      rd_trustScore := trustScore;
                      rd_riskScore := riskScore;
                      rd_consistencyScore := consistencyScore;
                      rd_recommenderMetrics := recommenderMetrics |} ] |}
  | _, _ => Throw (Exn "TypeError: Cannot read properties of null")
  end.

Fixpoint forEach (recommendations : list TokenRecommendation)
         (totals : Totals) : Res Totals :=
  match recommendations with
  | [] => Ok totals
  | recommendation :: rest =>
      match accumulate totals recommendation with
      | Ok totals' => forEach rest totals'
      | Throw e => Throw e
      end
  end.

(** The callback of [map] over the token addresses. *)
Definition summarize (group : string * list TokenRecommendation)
  : Res TokenRecommendationSummary :=
  let tokenAddress := fst group in
  let tokenRecommendations := snd group in
  match forEach tokenRecommendations
                {| totalTrustScore := Num 0;
                   totalRiskScore := Num 0;
                   totalConsistencyScore := Num 0;
                   recommenderData := [] |} with
  | Ok totals =>
      let count := JS.ofZ (Z.of_nat (length tokenRecommendations)) in
      Ok {| sum_tokenAddress := tokenAddress;
            averageTrustScore := JS.div (totalTrustScore totals) count;
            averageRiskScore := JS.div (totalRiskScore totals) count;
            averageConsistencyScore :=
              JS.div (totalConsistencyScore totals) count;
            sum_recommenders := recommenderData totals |}
  | Throw e => Throw e
  end.

(** The comparison function handed to [sort]. *)
Definition byTrustScore (a b : TokenRecommendationSummary) : num :=
  JS.sub (averageTrustScore b) (averageTrustScore a).

Fixpoint mapRes {A B} (f : A -> Res B) (l : list A) : Res (list B) :=
  match l with
  | [] => Ok []
  | x :: rest =>
      match f x with
      | Ok y =>
          match mapRes f rest with
          | Ok ys => Ok (y :: ys)
          | Throw e => Throw e
          end
      | Throw e => Throw e
      end
  end.

Definition getRecommendations (startDate endDate : Z)
  : Res (list TokenRecommendationSummary) :=
  let recommendations := getRecommendationsByDateRange startDate endDate in
  let groupedRecommendations := fold_left groupPush recommendations [] in
  match mapRes summarize groupedRecommendations with
  | Ok result =>
      Ok (array_sort byTrustScore result)
  | Throw e => Throw e
  end.

End Recommendations.

(** Three recommendations, two of them for [solMint]. *)
Definition sampleRecommendations : list TokenRecommendation :=
  [ {| rec_recommenderId := "veteran"; rec_tokenAddress := solMint |};
    {| rec_recommenderId := "veteran"; rec_tokenAddress := BTC |};
    {| rec_recommenderId := "veteran"; rec_tokenAddress := solMint |} ].

(** [a] may stand in front of [b] in an array ordered by descending
    average trust score. *)
Definition trustedBefore (a b : TokenRecommendationSummary) : Prop :=
  JS.le (averageTrustScore b) (averageTrustScore a) = true.

(* ===================================================================== *)
(** ** The cache of [WalletProvider]

    The provider's [NodeCache] holds values of the caller's type and, while
    the cache is being validated, the test string. *)
(* ===================================================================== *)

Inductive CachedValue (V : Type) : Type :=
| TestString (s : string)
| Stored (v : V).
Arguments TestString {V} s.
Arguments Stored {V} v.

Record WalletProvider (V : Type) := {
  wp_cache : gmap string (CachedValue V);
  isCacheInitialized : bool;
}.
Arguments wp_cache {V} _.
Arguments isCacheInitialized {V} _.

(** [retrieved !== testValue]. *)
Definition differsFrom {V} (retrieved : option (CachedValue V))
           (testValue : string) : bool :=
  match retrieved with
  | Some (TestString s) => negb (String.eqb s testValue)
  | _ => true
  end.

Definition validateCache {V} (this : WalletProvider V)
  : bool * WalletProvider V :=
  if negb (isCacheInitialized this) then (false, this)
  else
    let testKey := "_test_validate_" in
    let testValue := "test" in
    let afterSet := <[testKey := TestString testValue]> (wp_cache this) in
    let retrieved := afterSet !! testKey in
    let afterDel := delete testKey afterSet in
    if differsFrom retrieved testValue
    then (false, {| wp_cache := afterDel; isCacheInitialized := false |})
    else (true, {| wp_cache := afterDel;
                   isCacheInitialized := isCacheInitialized this |}).

(** [undefined] is [None]. *)
Definition getCacheValue {V} (key : string) (this : WalletProvider V)
  : option (CachedValue V) * WalletProvider V :=
  match validateCache this with
  | (false, this') => (None, this')
  | (true, this') => (wp_cache this' !! key, this')
  end.

Definition setCacheValue {V} (key : string) (value : V)
           (this : WalletProvider V) : bool * WalletProvider V :=
  match validateCache this with
  | (false, this') => (false, this')
  | (true, this') =>
      (true, {| wp_cache := <[key := Stored value]> (wp_cache this');
                isCacheInitialized := isCacheInitialized this' |})
  end.

(** A provider as the constructor leaves it: an empty, initialized
    cache. *)
Definition freshWallet : WalletProvider nat :=
  {| wp_cache := ∅; isCacheInitialized := true |}.

(* ===================================================================== *)
(** ** Properties of the monad and of the cache tiers *)
(* ===================================================================== *)

Section MonadFacts.

Context {A B : Type}.

Lemma total_ret (a : A) : total (ret a).
Proof. intros w. exists a, w. reflexivity. Qed.

Lemma total_bind (m : M A) (k : A -> M B) :
  total m -> (forall a, total (k a)) -> total (bind m k).
Proof.
  intros Hm Hk w. destruct (Hm w) as (a & w1 & E).
  destruct (Hk a w1) as (b & w2 & E2).
  exists b, w2. unfold bind. rewrite E. exact E2.
Qed.

(** A [try] whose handler always completes, completes. *)
Lemma total_try_catch (m : M A) (h : exn -> M A) :
  (forall e, total (h e)) -> total (try_catch m h).
Proof.
  intros Hh w. unfold try_catch.
  destruct (m w) as [[a | e] w1] eqn:E.
  - exists a, w1. reflexivity.
  - apply Hh.
Qed.

(** A [try] around a body that always completes, completes. *)
Lemma total_try_body (m : M A) (h : exn -> M A) :
  total m -> total (try_catch m h).
Proof.
  intros Hm w. destruct (Hm w) as (a & w1 & E).
  exists a, w1. unfold try_catch. rewrite E. reflexivity.
Qed.

(** A [bind] that completes normally ran both of its parts normally. *)
Lemma bind_Ok (m : M A) (k : A -> M B) w b w' :
  bind m k w = (Ok b, w') ->
  exists a w1, m w = (Ok a, w1) /\ k a w1 = (Ok b, w').
Proof.
  unfold bind. destruct (m w) as [[a | e] w1]; [| discriminate].
  intros E. exists a, w1. split; [reflexivity | exact E].
Qed.

End MonadFacts.

Lemma total_tick : total tick.
Proof. intros w. eexists _, _. reflexivity. Qed.

Lemma total_fetch {B} (source : nat -> Response B) : total (fetch source).
Proof.
  unfold fetch. apply total_bind; [apply total_tick | intros; apply total_ret].
Qed.

Section CacheFacts.

Variable env : Env.

Lemma total_getCachedData key : total (getCachedData env key).
Proof. apply total_try_catch. intros; apply total_ret. Qed.

Lemma total_setCachedData key v : total (setCachedData env key v).
Proof. apply total_try_catch. intros; apply total_ret. Qed.

(** Reading the file tier changes nothing but the operation count. *)
Lemma readFromCache_run key w :
  exists r, readFromCache env key w = (Ok r, later 1 w) /\
            (r = None \/ r = store w !! path_join cacheKey key).
Proof.
  unfold readFromCache, try_catch, cacheManager_get, bind, tick, later.
  simpl. destruct (cacheManagerFails env (clock w)); simpl.
  - exists None. split; [reflexivity | now left].
  - eexists. split; [reflexivity | now right].
Qed.

(** A lookup never touches the file tier, and what it leaves in the
    memory tier under another key is what was there. *)
Lemma getCachedData_run key w :
  exists c w1,
    getCachedData env key w = (Ok c, w1) /\
    store w1 = store w /\
    recommenders w1 = recommenders w /\
    (cache w1 = cache w \/
     exists v, c = Some v /\ cache w1 = <[key := v]> (cache w)) /\
    (c = None -> cache w1 = cache w).
Proof.
  unfold getCachedData, try_catch, bind, cache_get, cache_set, ret.
  destruct (cache w !! key) as [v |] eqn:Hc.
  - exists (Some v), w. repeat split; auto.
  - destruct (readFromCache_run key w) as (r & Hr & _). rewrite Hr.
    destruct r as [v |]; simpl.
    + eexists (Some v), _. split; [reflexivity |].
      repeat split; simpl; eauto. discriminate.
    + exists None, (later 1 w). repeat split; auto.
Qed.

End CacheFacts.

(* ===================================================================== *)
(** ** The aggregator is total *)
(* ===================================================================== *)

Section Totality.

Variable toBN : string -> Res num.
Variable toFixed2 : num -> string.
Variable env : Env.
Variable self : TokenProvider.

(** The security adapter completes whenever the provider has an
    address: its request is wrapped in a [try] whose handler returns the
    default record. *)
Lemma total_fetchTokenSecurity addr :
  tokenAddress self = Some addr -> total (fetchTokenSecurity env self).
Proof.
  intros Haddr. unfold fetchTokenSecurity. rewrite Haddr.
  apply total_bind; [apply total_getCachedData |].
  intros [[s | t | d | l | c] |];
    first [ apply total_ret
          | apply total_try_catch; intros; apply total_ret ].
Qed.

Lemma total_filterHighValueHolders tradeData :
  total (filterHighValueHolders toBN toFixed2 env self tradeData).
Proof. apply total_try_catch. intros; apply total_ret. Qed.

Lemma total_countHighSupplyHolders securityData :
  total (countHighSupplyHolders toBN env self securityData).
Proof. apply total_try_catch. intros; apply total_ret. Qed.

(** The body of [getProcessedTokenData]: the security adapter, three
    guarded adapter calls, and the derived signals. *)
Lemma total_getProcessedTokenData addr :
  tokenAddress self = Some addr ->
  total (getProcessedTokenData toBN toFixed2 env self).
Proof.
  intros Haddr. unfold getProcessedTokenData.
  apply total_try_body.
  apply total_bind; [eapply total_fetchTokenSecurity; eassumption |].
  intros security.
  apply total_bind; [apply total_try_catch; intros; apply total_ret |].
  intros codex.
  apply total_bind; [apply total_try_catch; intros; apply total_ret |].
  intros trade.
  apply total_bind; [apply total_try_catch; intros; apply total_ret |].
  intros dex.
  apply total_bind; [apply total_filterHighValueHolders |].
  intros holders.
  apply total_bind; [apply total_countHighSupplyHolders |].
  intros count. apply total_ret.
Qed.

(** Without an address the security adapter dereferences [null] before
    any [try] block, and the aggregator rethrows. *)
Lemma getProcessedTokenData_null_address w :
  tokenAddress self = None ->
  exists e, getProcessedTokenData toBN toFixed2 env self w = (Throw e, w).
Proof.
  intros Haddr. eexists.
  unfold getProcessedTokenData, try_catch, bind, fetchTokenSecurity.
  rewrite Haddr. reflexivity.
Qed.

End Totality.

(** C1. For every provider that holds a token address (a valid
    identifier), in every state of the caches and whatever the security,
    trade-data, token-codex, DEX-pair and holder-list sources and the cache
    manager answer or fail to answer, [getProcessedTokenData] returns a
    [ProcessedTokenData] value and does not throw. *)
Theorem getProcessedTokenData_never_throws :
  forall (toBN : string -> Res num) (toFixed2 : num -> string)
         (env : Env) (self : TokenProvider) (addr : string) (w : World),
    tokenAddress self = Some addr ->
    exists (data : ProcessedTokenData) (w' : World),
      getProcessedTokenData toBN toFixed2 env self w = (Ok data, w').
Proof.
  intros toBN toFixed2 env self addr w Haddr.
  exact (total_getProcessedTokenData toBN toFixed2 env self addr Haddr w).
Qed.

(** With every source and the cache manager down and nothing cached, the
    snapshot is made of the default records and nothing is cached. *)
Example getProcessedTokenData_blackout :
  fst (getProcessedTokenData demo_toBN demo_toFixed2 blackout solProvider
                             emptyWorld)
  = Ok {| security := defaultSecurity;
          tradeData := Some (getDefaultTradeData solProvider);
          holderDistributionTrend := "stable";
          highValueHolders := [];
          recentTrades := false;
          highSupplyHoldersCount := 0;
          dexScreenerData := emptyDexData;
          isDexScreenerListed := false;
          isDexScreenerPaid := false;
          tokenCodex := defaultCodex solProvider |} /\
  same_caches emptyWorld
              (snd (getProcessedTokenData demo_toBN demo_toFixed2 blackout
                                          solProvider emptyWorld)).
Proof. split; [| split]; vm_compute; reflexivity. Qed.

Lemma getProcessedTokenData_never_throws_witness :
  exists (data : ProcessedTokenData) (w' : World),
    getProcessedTokenData demo_toBN demo_toFixed2 blackout solProvider
                          emptyWorld = (Ok data, w').
Proof.
  apply (getProcessedTokenData_never_throws
           demo_toBN demo_toFixed2 blackout solProvider solMint emptyWorld).
  reflexivity.
Defined.

(* ===================================================================== *)
(** ** Source adapters on a failing source *)
(* ===================================================================== *)

Lemma later_later a b w : later a (later b w) = later (a + b) w.
Proof. unfold later. simpl. f_equal. lia. Qed.

Lemma same_caches_later k w : same_caches w (later k w).
Proof. split; reflexivity. Qed.

Lemma same_caches_trans w1 w2 w3 :
  same_caches w1 w2 -> same_caches w2 w3 -> same_caches w1 w3.
Proof. intros [A1 B1] [A2 B2]. split; congruence. Qed.

Section RetryFacts.

Context {B : Type}.
Variable source : nat -> Response B.

(** One failing pass through the loop body throws and costs one
    operation. *)
Lemma attempt_fails w :
  responseFails true (source (clock w)) = true ->
  exists e, attempt source w = (Throw e, later 1 w).
Proof.
  unfold attempt, fetch, bind, tick, ret, later. simpl.
  destruct (source (clock w)) as [e | ok [b |]]; simpl.
  - intros _. eexists. reflexivity.
  - destruct ok; simpl; [discriminate |]. intros _. eexists. reflexivity.
  - intros _. destruct ok; simpl; eexists; reflexivity.
Qed.

(** A passing pass returns the body. *)
Lemma attempt_succeeds w b :
  source (clock w) = Reply true (Some b) ->
  attempt source w = (Ok b, later 1 w).
Proof.
  intros E. unfold attempt, fetch, bind, tick, ret, later. simpl.
  rewrite E. reflexivity.
Qed.

(** When every attempt fails, the loop gives up after exactly the
    remaining number of attempts and throws. *)
Lemma fetchWithRetry_loop_fails remaining :
  alwaysFails true source ->
  forall lastError w,
  exists e,
    fetchWithRetry_loop source remaining lastError w
    = (Throw e, later remaining w).
Proof.
  intros Hfail. induction remaining as [| k IH]; intros lastError w.
  - exists lastError. destruct w; reflexivity.
  - simpl. unfold try_catch.
    destruct (attempt_fails w (Hfail (clock w))) as (e1 & E1).
    rewrite E1. destruct (IH e1 (later 1 w)) as (e & E).
    exists e. rewrite E, later_later. do 2 f_equal. lia.
Qed.

Lemma fetchWithRetry_fails w :
  alwaysFails true source ->
  exists e, fetchWithRetry source w = (Throw e, later MAX_RETRIES w).
Proof. intros Hfail. apply fetchWithRetry_loop_fails, Hfail. Qed.

(** The first attempt that passes ends the loop. *)
Lemma fetchWithRetry_first_try w b :
  source (clock w) = Reply true (Some b) ->
  fetchWithRetry source w = (Ok b, later 1 w).
Proof.
  intros E. unfold fetchWithRetry. simpl. unfold try_catch.
  rewrite (attempt_succeeds w b E). reflexivity.
Qed.

End RetryFacts.

Section AdapterFailure.

Variable env : Env.
Variable self : TokenProvider.

(** A lookup that misses leaves both tiers as they were. *)
Lemma misses_run key w :
  misses env key w ->
  exists w1, getCachedData env key w = (Ok None, w1) /\ same_caches w w1.
Proof.
  unfold misses. intros Hmiss.
  destruct (getCachedData_run env key w)
    as (c & w1 & E & Hstore & _ & _ & Hnone).
  rewrite E in Hmiss. simpl in Hmiss. injection Hmiss as ->.
  exists w1. split; [exact E |]. split; [apply Hnone; reflexivity | exact Hstore].
Qed.

Lemma fetchTokenSecurity_source_down addr w :
  tokenAddress self = Some addr ->
  alwaysFails true (birdeyeSecurity env) ->
  misses env ("tokenSecurity_" +:+ toLowerCase addr) w ->
  exists w',
    fetchTokenSecurity env self w = (Ok defaultSecurity, w') /\
    same_caches w w'.
Proof.
  intros Haddr Hdown Hmiss.
  destruct (misses_run _ _ Hmiss) as (w1 & E & Hsame).
  destruct (fetchWithRetry_fails (birdeyeSecurity env) w1 Hdown) as (e & Ef).
  exists (later MAX_RETRIES w1). split.
  - unfold fetchTokenSecurity. rewrite Haddr. unfold bind at 1.
    rewrite E. unfold try_catch, bind. rewrite Ef. reflexivity.
  - eapply same_caches_trans; [exact Hsame | apply same_caches_later].
Qed.

Lemma fetchFreshTradeData_source_down key apiKey w :
  BIRDEYE_API_KEY env = Some apiKey ->
  JS.truthy_string apiKey = true ->
  alwaysFails true (birdeyeOverview env) ->
  fetchFreshTradeData env self key w
  = (Throw (Exn "Failed to fetch token trade data"), later MAX_RETRIES w).
Proof.
  intros Hkey Htruthy Hdown.
  destruct (fetchWithRetry_fails (birdeyeOverview env) w Hdown) as (e & Ef).
  unfold fetchFreshTradeData, try_catch. rewrite Hkey, Htruthy. simpl.
  unfold bind. rewrite Ef. reflexivity.
Qed.

Lemma fetchTokenTradeData_source_down apiKey w :
  BIRDEYE_API_KEY env = Some apiKey ->
  JS.truthy_string apiKey = true ->
  alwaysFails true (birdeyeOverview env) ->
  misses env ("tokenTradeData_" +:+ template (tokenAddress self)) w ->
  exists w',
    fetchTokenTradeData env self w
    = (Throw (Exn "Failed to fetch token trade data"), w') /\
    same_caches w w'.
Proof.
  intros Hkey Htruthy Hdown Hmiss.
  destruct (misses_run _ _ Hmiss) as (w1 & E & Hsame).
  exists (later MAX_RETRIES w1). split.
  - unfold fetchTokenTradeData, bind. rewrite E.
    eapply fetchFreshTradeData_source_down; eassumption.
  - eapply same_caches_trans; [exact Hsame | apply same_caches_later].
Qed.

Lemma fetchTokenCodex_source_down addr w :
  tokenAddress self = Some addr ->
  JS.truthy_string addr = true ->
  alwaysFails true (codexGraphql env) ->
  misses env ("token_" +:+ addr) w ->
  exists e w',
    fetchTokenCodex env self w = (Throw e, w') /\ same_caches w w'.
Proof.
  intros Haddr Htruthy Hdown Hmiss.
  destruct (misses_run _ _ Hmiss) as (w1 & E & Hsame).
  assert (exists e,
             fetchTokenCodex env self w = (Throw e, later 1 w1)) as (e & Ec).
  { unfold fetchTokenCodex, try_catch. rewrite Haddr, Htruthy. simpl.
    unfold bind at 1. rewrite E.
    unfold bind, fetch, tick, ret, throw, json. simpl.
    specialize (Hdown (clock w1)).
    destruct (codexGraphql env (clock w1)) as [e0 | ok [b |]]; simpl in *.
    - eexists; reflexivity.
    - destruct ok; simpl in *; [discriminate | eexists; reflexivity].
    - eexists; reflexivity. }
  exists e, (later 1 w1). split; [exact Ec |].
  eapply same_caches_trans; [exact Hsame | apply same_caches_later].
Qed.

Lemma fetchFreshDexData_source_down key w :
  alwaysFails false (dexScreener env) ->
  fetchFreshDexData env self key w = (Ok emptyDexData, later 1 w).
Proof.
  intros Hdown. specialize (Hdown (clock w)).
  unfold fetchFreshDexData, try_catch, bind, fetch, tick, ret, throw, json.
  simpl.
  destruct (dexScreener env (clock w)) as [e0 | ok [b |]]; simpl in *;
    first [ reflexivity | discriminate ].
Qed.

Lemma fetchDexScreenerData_source_down w :
  alwaysFails false (dexScreener env) ->
  misses env ("dexScreenerData_" +:+ template (tokenAddress self)) w ->
  exists w',
    fetchDexScreenerData env self w = (Ok emptyDexData, w') /\
    same_caches w w'.
Proof.
  intros Hdown Hmiss.
  destruct (misses_run _ _ Hmiss) as (w1 & E & Hsame).
  exists (later 1 w1). split.
  - unfold fetchDexScreenerData, bind. rewrite E.
    apply fetchFreshDexData_source_down, Hdown.
  - eapply same_caches_trans; [exact Hsame | apply same_caches_later].
Qed.

Lemma fetchFreshHolderList_source_down key w :
  alwaysFails false (heliusRpc env) ->
  fetchFreshHolderList env key w = (Ok [], later 1 w).
Proof.
  intros Hdown. specialize (Hdown (clock w)).
  unfold fetchFreshHolderList, try_catch, bind, fetch, tick, ret, throw,
    json. simpl.
  destruct (heliusRpc env (clock w)) as [e0 | ok [b |]]; simpl in *;
    first [ reflexivity | discriminate ].
Qed.

Lemma fetchHolderList_source_down w :
  alwaysFails false (heliusRpc env) ->
  misses env ("holderList_" +:+ template (tokenAddress self)) w ->
  exists w',
    fetchHolderList env self w = (Ok [], w') /\ same_caches w w'.
Proof.
  intros Hdown Hmiss.
  destruct (misses_run _ _ Hmiss) as (w1 & E & Hsame).
  exists (later 1 w1). split.
  - unfold fetchHolderList, bind. rewrite E.
    apply fetchFreshHolderList_source_down, Hdown.
  - eapply same_caches_trans; [exact Hsame | apply same_caches_later].
Qed.

(** An answer without usable security data gives the default record,
    which is not cached either. *)
Lemma fetchTokenSecurity_invalid_answer addr w r :
  tokenAddress self = Some addr ->
  (forall n, birdeyeSecurity env n = Reply true (Some r)) ->
  (if sec_success r then sec_data r else None) = None ->
  misses env ("tokenSecurity_" +:+ toLowerCase addr) w ->
  exists w',
    fetchTokenSecurity env self w = (Ok defaultSecurity, w') /\
    same_caches w w'.
Proof.
  intros Haddr Hreply Hinvalid Hmiss.
  destruct (misses_run _ _ Hmiss) as (w1 & E & Hsame).
  exists (later 1 w1). split.
  - unfold fetchTokenSecurity. rewrite Haddr. unfold bind at 1.
    rewrite E. unfold try_catch, bind.
    rewrite (fetchWithRetry_first_try (birdeyeSecurity env) w1 r (Hreply _)).
    rewrite Hinvalid. reflexivity.
  - eapply same_caches_trans; [exact Hsame | apply same_caches_later].
Qed.

(** An answer without pairs gives the empty default, which is not cached
    either. *)
Lemma fetchDexScreenerData_no_pairs w ok d :
  (forall n, dexScreener env n = Reply ok (Some d)) ->
  dx_pairs d = None \/ dx_pairs d = Some [] ->
  misses env ("dexScreenerData_" +:+ template (tokenAddress self)) w ->
  exists w',
    fetchDexScreenerData env self w = (Ok emptyDexData, w') /\
    same_caches w w'.
Proof.
  intros Hreply Hnone Hmiss.
  destruct (misses_run _ _ Hmiss) as (w1 & E & Hsame).
  exists (later 1 w1). split.
  - unfold fetchDexScreenerData, bind. rewrite E.
    unfold fetchFreshDexData, try_catch, bind, fetch, tick, ret, json.
    simpl. rewrite Hreply. simpl.
    destruct Hnone as [-> | ->]; reflexivity.
  - eapply same_caches_trans; [exact Hsame | apply same_caches_later].
Qed.

(** An answer of the ledger RPC that carries no array of accounts gives the
    empty list, which is not cached. *)
Lemma fetchHolderList_invalid_answer w ok :
  (forall n, heliusRpc env n = Reply ok (Some {| hx_value := None |})) ->
  misses env ("holderList_" +:+ template (tokenAddress self)) w ->
  exists w',
    fetchHolderList env self w = (Ok [], w') /\ same_caches w w'.
Proof.
  intros Hreply Hmiss.
  destruct (misses_run _ _ Hmiss) as (w1 & E & Hsame).
  exists (later 1 w1). split.
  - unfold fetchHolderList, bind. rewrite E.
    unfold fetchFreshHolderList, try_catch, bind, fetch, tick, ret, json.
    simpl. rewrite Hreply. reflexivity.
  - eapply same_caches_trans; [exact Hsame | apply same_caches_later].
Qed.

End AdapterFailure.

Section AggregatorDefaults.

Variable env : Env.
Variable self : TokenProvider.

(** The aggregator turns a throwing codex adapter into the default
    codex record. *)
Lemma tokenCodexOrDefault_on_throw w e w' :
  fetchTokenCodex env self w = (Throw e, w') ->
  tokenCodexOrDefault env self w = (Ok (defaultCodex self), w').
Proof.
  intros E. unfold tokenCodexOrDefault, try_catch. rewrite E. reflexivity.
Qed.

(** The aggregator turns a throwing trade-data adapter into the default
    trade data. *)
Lemma tradeDataOrDefault_on_throw w e w' :
  fetchTokenTradeData env self w = (Throw e, w') ->
  tradeDataOrDefault env self w
  = (Ok (Some (getDefaultTradeData self)), w').
Proof.
  intros E. unfold tradeDataOrDefault, try_catch, bind. rewrite E.
  reflexivity.
Qed.

End AggregatorDefaults.

Section HolderListCache.

Variable env : Env.
Variable self : TokenProvider.

(** A cache write always reaches the memory tier; the file tier is
    written unless the cache manager fails. *)
Lemma setCachedData_run key v w :
  exists w',
    setCachedData env key v w = (Ok tt, w') /\
    cache w' = <[key := v]> (cache w) /\
    (store w' = store w \/
     store w' = <[path_join cacheKey key := v]> (store w)).
Proof.
  unfold setCachedData, try_catch, bind, cache_set, writeToCache,
    try_catch, cacheManager_set, bind, tick, ret, throw. simpl.
  destruct (cacheManagerFails env (clock w)); simpl;
    eexists; (split; [reflexivity |]); simpl; auto.
Qed.

(** A successful request whose answer holds no usable account returns
    the empty list and writes nothing. *)
Lemma fetchFreshHolderList_empty_answer key w ok value :
  heliusRpc env (clock w) = Reply ok (Some {| hx_value := Some value |}) ->
  omap holderOfAccount value = [] ->
  fetchFreshHolderList env key w = (Ok [], later 1 w).
Proof.
  intros E Hempty.
  unfold fetchFreshHolderList, try_catch, bind, fetch, tick, ret, json.
  simpl. rewrite E. simpl. rewrite Hempty. reflexivity.
Qed.

(** A successful request with at least one usable account writes the
    list to the cache and returns it. *)
Lemma fetchFreshHolderList_answer key w ok value h rest :
  heliusRpc env (clock w) = Reply ok (Some {| hx_value := Some value |}) ->
  omap holderOfAccount value = h :: rest ->
  exists w',
    fetchFreshHolderList env key w = (Ok (h :: rest), w') /\
    cache w' !! key = Some (VHolders (h :: rest)).
Proof.
  intros E Hsome.
  destruct (setCachedData_run key (VHolders (h :: rest)) (later 1 w))
    as (w' & Eset & Hcache & _).
  exists w'. split.
  - unfold fetchFreshHolderList, try_catch, bind at 1, fetch, bind, tick,
      ret, json. simpl. rewrite E. simpl. rewrite Hsome.
    unfold later in Eset. simpl in Eset.
    unfold bind. rewrite Eset. reflexivity.
  - rewrite Hcache. apply lookup_insert_eq.
Qed.

End HolderListCache.

(** C4, as the code has it. When its source fails at every attempt and the
    cache holds no entry, the security, DEX-pair and holder-list adapters
    return their default record (zeroed security data, no pairs, no
    holders) instead of throwing, whereas the trade-data and token-codex
    adapters throw and it is the aggregator's guarded call that substitutes
    the default record. In all five cases both cache tiers are left exactly
    as they were: no defaulted or failed result is written. Nor is the
    default that the security and DEX-pair adapters return for an answer
    without usable data. *)
Theorem adapters_on_source_failure :
  forall (env : Env) (self : TokenProvider) (addr apiKey : string)
         (w : World),
    tokenAddress self = Some addr ->
    JS.truthy_string addr = true ->
    BIRDEYE_API_KEY env = Some apiKey ->
    JS.truthy_string apiKey = true ->
    (alwaysFails true (birdeyeSecurity env) ->
     misses env ("tokenSecurity_" +:+ toLowerCase addr) w ->
     exists w',
       fetchTokenSecurity env self w = (Ok defaultSecurity, w') /\
       same_caches w w') /\
    (alwaysFails false (dexScreener env) ->
     misses env ("dexScreenerData_" +:+ addr) w ->
     exists w',
       fetchDexScreenerData env self w = (Ok emptyDexData, w') /\
       same_caches w w') /\
    (alwaysFails false (heliusRpc env) ->
     misses env ("holderList_" +:+ addr) w ->
     exists w',
       fetchHolderList env self w = (Ok [], w') /\ same_caches w w') /\
    (alwaysFails true (birdeyeOverview env) ->
     misses env ("tokenTradeData_" +:+ addr) w ->
     exists e w',
       fetchTokenTradeData env self w = (Throw e, w') /\
       tradeDataOrDefault env self w
       = (Ok (Some (getDefaultTradeData self)), w') /\
       same_caches w w') /\
    (alwaysFails true (codexGraphql env) ->
     misses env ("token_" +:+ addr) w ->
     exists e w',
       fetchTokenCodex env self w = (Throw e, w') /\
       tokenCodexOrDefault env self w = (Ok (defaultCodex self), w') /\
       same_caches w w') /\
    (forall r,
        (forall n, birdeyeSecurity env n = Reply true (Some r)) ->
        (if sec_success r then sec_data r else None) = None ->
        misses env ("tokenSecurity_" +:+ toLowerCase addr) w ->
        exists w',
          fetchTokenSecurity env self w = (Ok defaultSecurity, w') /\
          same_caches w w') /\
    (forall ok d,
        (forall n, dexScreener env n = Reply ok (Some d)) ->
        dx_pairs d = None \/ dx_pairs d = Some [] ->
        misses env ("dexScreenerData_" +:+ addr) w ->
        exists w',
          fetchDexScreenerData env self w = (Ok emptyDexData, w') /\
          same_caches w w').
Proof.
  intros env self addr apiKey w Haddr Htruthy Hkey Hkeytruthy.
  assert (Htpl : template (tokenAddress self) = addr)
    by (rewrite Haddr; reflexivity).
  repeat split.
  - intros Hdown Hmiss.
    eapply fetchTokenSecurity_source_down; eassumption.
  - intros Hdown Hmiss. rewrite <- Htpl in Hmiss.
    apply fetchDexScreenerData_source_down; assumption.
  - intros Hdown Hmiss. rewrite <- Htpl in Hmiss.
    apply fetchHolderList_source_down; assumption.
  - intros Hdown Hmiss. rewrite <- Htpl in Hmiss.
    destruct (fetchTokenTradeData_source_down env self apiKey w
                Hkey Hkeytruthy Hdown Hmiss) as (w' & E & Hsame).
    eexists _, w'. split; [exact E |]. split; [| exact Hsame].
    eapply tradeDataOrDefault_on_throw, E.
  - intros Hdown Hmiss.
    destruct (fetchTokenCodex_source_down env self addr w
                Haddr Htruthy Hdown Hmiss) as (e & w' & E & Hsame).
    exists e, w'. split; [exact E |]. split; [| exact Hsame].
    eapply tokenCodexOrDefault_on_throw, E.
  - intros r Hreply Hinvalid Hmiss.
    eapply fetchTokenSecurity_invalid_answer; eassumption.
  - intros ok d Hreply Hnone Hmiss. rewrite <- Htpl in Hmiss.
    eapply fetchDexScreenerData_no_pairs; eassumption.
Qed.

Lemma adapters_on_source_failure_witness :
  (exists w',
      fetchTokenSecurity offline solProvider emptyWorld
      = (Ok defaultSecurity, w') /\ same_caches emptyWorld w') /\
  (exists e w',
      fetchTokenTradeData offline solProvider emptyWorld = (Throw e, w') /\
      tradeDataOrDefault offline solProvider emptyWorld
      = (Ok (Some (getDefaultTradeData solProvider)), w') /\
      same_caches emptyWorld w').
Proof.
  destruct (adapters_on_source_failure
              offline solProvider solMint "key" emptyWorld
              eq_refl eq_refl eq_refl eq_refl)
    as (Hsec & _ & _ & Htrade & _).
  split.
  - apply Hsec; [intros n; reflexivity | reflexivity].
  - apply Htrade; [intros n; reflexivity | reflexivity].
Defined.

(** C4 as stated fails for the trade-data adapter: with the overview
    source down at every attempt and nothing cached, [fetchTokenTradeData]
    throws instead of returning a default record. *)
Lemma fetchTokenTradeData_throws_when_source_down :
  alwaysFails true (birdeyeOverview offline) /\
  misses offline ("tokenTradeData_" +:+ solMint) emptyWorld /\
  fst (fetchTokenTradeData offline solProvider emptyWorld)
  = Throw (Exn "Failed to fetch token trade data").
Proof.
  split; [intros n; reflexivity |]. split; vm_compute; reflexivity.
Qed.

(** C5, as the code has it. After a cache miss, the holder-list adapter
    returns a successfully fetched empty list without writing it to the
    cache; only a non-empty list is written (to the memory tier at least);
    and a fetch error (the request fails, or the answer carries no array
    of accounts) returns the empty list and leaves the cache unwritten. *)
Theorem fetchHolderList_caches_only_nonempty :
  forall (env : Env) (self : TokenProvider) (w : World),
    misses env ("holderList_" +:+ template (tokenAddress self)) w ->
    (forall ok value,
        (forall n,
            heliusRpc env n = Reply ok (Some {| hx_value := Some value |})) ->
        omap holderOfAccount value = [] ->
        exists w',
          fetchHolderList env self w = (Ok [], w') /\ same_caches w w') /\
    (forall ok value h rest,
        (forall n,
            heliusRpc env n = Reply ok (Some {| hx_value := Some value |})) ->
        omap holderOfAccount value = h :: rest ->
        exists w',
          fetchHolderList env self w = (Ok (h :: rest), w') /\
          cache w' !! ("holderList_" +:+ template (tokenAddress self))
          = Some (VHolders (h :: rest))) /\
    (alwaysFails false (heliusRpc env) \/
     (exists ok,
         forall n, heliusRpc env n = Reply ok (Some {| hx_value := None |})) ->
     exists w',
       fetchHolderList env self w = (Ok [], w') /\ same_caches w w').
Proof.
  intros env self w Hmiss.
  destruct (misses_run _ _ _ Hmiss) as (w1 & E & Hsame).
  repeat split.
  - intros ok value Hreply Hempty. exists (later 1 w1). split.
    + unfold fetchHolderList, bind. rewrite E.
      eapply fetchFreshHolderList_empty_answer; [apply Hreply | exact Hempty].
    + eapply same_caches_trans; [exact Hsame | apply same_caches_later].
  - intros ok value h rest Hreply Hsome.
    destruct (fetchFreshHolderList_answer env
                ("holderList_" +:+ template (tokenAddress self))
                w1 ok value h rest (Hreply _) Hsome) as (w' & Ef & Hc).
    exists w'. split; [| exact Hc].
    unfold fetchHolderList, bind. rewrite E. exact Ef.
  - intros [Hdown | (ok & Hreply)].
    + apply fetchHolderList_source_down; assumption.
    + eapply fetchHolderList_invalid_answer; eassumption.
Qed.

Lemma fetchHolderList_caches_only_nonempty_witness :
  misses noHolders ("holderList_" +:+ solMint) emptyWorld /\
  exists w',
    fetchHolderList noHolders solProvider emptyWorld = (Ok [], w') /\
    same_caches emptyWorld w'.
Proof.
  split; [reflexivity |].
  destruct (fetchHolderList_caches_only_nonempty
              noHolders solProvider emptyWorld eq_refl) as (Hempty & _ & _).
  apply (Hempty true []); [intros n; reflexivity | reflexivity].
Defined.

(** C5 as stated fails: the ledger RPC answers successfully with no
    accounts, and afterwards neither cache tier holds an entry for the
    holder list. *)
Lemma empty_holder_list_is_not_cached :
  (forall n,
      heliusRpc noHolders n = Reply true (Some {| hx_value := Some [] |})) /\
  fst (fetchHolderList noHolders solProvider emptyWorld) = Ok [] /\
  cache (snd (fetchHolderList noHolders solProvider emptyWorld))
    !! ("holderList_" +:+ solMint) = None /\
  store (snd (fetchHolderList noHolders solProvider emptyWorld))
    !! path_join cacheKey ("holderList_" +:+ solMint) = None.
Proof.
  split; [intros n; reflexivity |]. repeat split; vm_compute; reflexivity.
Qed.

(** A fetched list with a holder in it is written to both tiers. *)
Example fetchHolderList_one_holder_cached :
  fst (fetchHolderList oneHolder solProvider emptyWorld)
  = Ok [ {| address := "holder1"; balance := "1000" |} ] /\
  cache (snd (fetchHolderList oneHolder solProvider emptyWorld))
    !! ("holderList_" +:+ solMint)
  = Some (VHolders [ {| address := "holder1"; balance := "1000" |} ]) /\
  store (snd (fetchHolderList oneHolder solProvider emptyWorld))
    !! path_join cacheKey ("holderList_" +:+ solMint)
  = Some (VHolders [ {| address := "holder1"; balance := "1000" |} ]).
Proof. repeat split; vm_compute; reflexivity. Qed.

(* ===================================================================== *)
(** ** The constructor *)
(* ===================================================================== *)

(** C6, as the code has it. When normalization of a non-empty input
    identifier fails, the constructor does not throw: it catches the error,
    stores [null] as the provider's token address and returns the provider.
    The [null] identifier is only noticed downstream, where
    [getProcessedTokenData] throws on it. *)
Theorem constructor_swallows_malformed_address :
  forall (normalizeAddress : string -> Res string) (addr : string) (e : exn),
    JS.truthy_string addr = true ->
    normalizeAddress addr = Throw e ->
    constructor normalizeAddress (Some addr) = Ok {| tokenAddress := None |} /\
    forall toBN toFixed2 env w,
    exists e',
      getProcessedTokenData toBN toFixed2 env {| tokenAddress := None |} w
      = (Throw e', w).
Proof.
  intros normalizeAddress addr e Htruthy Hfail. split.
  - unfold constructor. rewrite Htruthy, Hfail. reflexivity.
  - intros toBN toFixed2 env w.
    apply getProcessedTokenData_null_address. reflexivity.
Qed.

Lemma constructor_swallows_malformed_address_witness :
  constructor demo_normalizeAddress (Some "0xdeadbeef")
  = Ok {| tokenAddress := None |} /\
  forall toBN toFixed2 env w,
  exists e',
    getProcessedTokenData toBN toFixed2 env {| tokenAddress := None |} w
    = (Throw e', w).
Proof.
  apply (constructor_swallows_malformed_address
           demo_normalizeAddress "0xdeadbeef" (Exn "Invalid address format"));
    reflexivity.
Defined.

(** C6 as stated fails: an identifier that fails normalization makes the
    constructor return normally, with a [null] token address. *)
Lemma constructor_does_not_surface_malformed :
  demo_normalizeAddress "0xdeadbeef" = Throw (Exn "Invalid address format") /\
  constructor demo_normalizeAddress (Some "0xdeadbeef")
  = Ok {| tokenAddress := None |}.
Proof. split; reflexivity. Qed.

(* ===================================================================== *)
(** ** Holder-distribution trend *)
(* ===================================================================== *)

(** What [analyzeHolderDistribution] computes: every [null] bucket is first
    replaced by 0 and then averaged with the others. *)
Lemma analyzeHolderDistribution_zero_fills (t : TokenTradeData) :
  analyzeHolderDistribution (Some t) = trendExcludingNulls (zeroFilled t).
Proof. reflexivity. Qed.

(** With no trade data at all the trend is stable. *)
Lemma analyzeHolderDistribution_no_data :
  analyzeHolderDistribution None = "stable".
Proof. reflexivity. Qed.

(** When no bucket is [null] the code and the specification's wording
    agree. *)
Lemma analyzeHolderDistribution_without_nulls (t : TokenTradeData) :
  zeroFilled t = t ->
  analyzeHolderDistribution (Some t) = trendExcludingNulls t.
Proof. intros E. rewrite analyzeHolderDistribution_zero_fills, E. reflexivity. Qed.

(** When every bucket is [null] the average is 0 and the trend is
    stable, as it is in the specification's wording. *)
Lemma analyzeHolderDistribution_all_null (t : TokenTradeData) :
  unique_wallet_30m_change_percent t = None ->
  unique_wallet_1h_change_percent t = None ->
  unique_wallet_2h_change_percent t = None ->
  unique_wallet_4h_change_percent t = None ->
  unique_wallet_8h_change_percent t = None ->
  unique_wallet_24h_change_percent t = None ->
  analyzeHolderDistribution (Some t) = "stable" /\
  trendExcludingNulls t = "stable".
Proof.
  intros H1 H2 H3 H4 H5 H6.
  unfold analyzeHolderDistribution, trendExcludingNulls, intervalChange.
  rewrite H1, H2, H3, H4, H5, H6. split; vm_compute; reflexivity.
Qed.

(** C3 at a failing input. Four buckets at +15% and two [null] buckets:
    the code averages [60 / 6 = 10] and answers "stable", while the average
    over the four numeric buckets is 15 and the trend the claim describes
    is "increasing". *)
Theorem analyzeHolderDistribution_counts_null_buckets :
  analyzeHolderDistribution (Some risingTrade) = "stable" /\
  trendExcludingNulls risingTrade = "increasing".
Proof. split; vm_compute; reflexivity. Qed.

(* ===================================================================== *)
(** ** The provider never touches the recommender table *)
(* ===================================================================== *)

Section Frame.

Context {A B : Type}.

Lemma keeps_ret (a : A) : keeps_recommenders (ret a).
Proof. intros w r w' E. injection E as _ <-. reflexivity. Qed.

Lemma keeps_throw (e : exn) : keeps_recommenders (@throw A e).
Proof. intros w r w' E. injection E as _ <-. reflexivity. Qed.

Lemma keeps_bind (m : M A) (k : A -> M B) :
  keeps_recommenders m -> (forall a, keeps_recommenders (k a)) ->
  keeps_recommenders (bind m k).
Proof.
  intros Hm Hk w r w'. unfold bind.
  destruct (m w) as [[a | e] w1] eqn:E; intros E2.
  - rewrite (Hk a _ _ _ E2). eapply Hm, E.
  - injection E2 as _ <-. eapply Hm, E.
Qed.

Lemma keeps_try_catch (m : M A) (h : exn -> M A) :
  keeps_recommenders m -> (forall e, keeps_recommenders (h e)) ->
  keeps_recommenders (try_catch m h).
Proof.
  intros Hm Hh w r w'. unfold try_catch.
  destruct (m w) as [[a | e] w1] eqn:E; intros E2.
  - injection E2 as _ <-. eapply Hm, E.
  - rewrite (Hh e _ _ _ E2). eapply Hm, E.
Qed.

(** A primitive step that rebuilds the world around the same table. *)
Lemma keeps_step (f : M A) :
  (forall w, recommenders (snd (f w)) = recommenders w) ->
  keeps_recommenders f.
Proof. intros H w r w' E. specialize (H w). rewrite E in H. exact H. Qed.

End Frame.

(** Walk through a method body: binds, [try] blocks, branches and
    primitive steps. *)
Ltac keeps_walk :=
  first [ apply keeps_ret
        | apply keeps_throw
        | apply keeps_bind; [| intros ?]
        | apply keeps_try_catch; [| intros ?]
        | apply keeps_step; intros ?; reflexivity
        | match goal with
          | |- keeps_recommenders (match ?x with _ => _ end) => destruct x
          | |- keeps_recommenders (if ?b then _ else _) => destruct b
          | |- keeps_recommenders (let _ := _ in _) => cbv zeta
          end ].

Section FrameOfProvider.

Variable toBN : string -> Res num.
Variable toFixed2 : num -> string.
Variable env : Env.
Variable self : TokenProvider.

Lemma keeps_getCachedData key : keeps_recommenders (getCachedData env key).
Proof.
  unfold getCachedData, readFromCache, cacheManager_get, cache_get,
    cache_set, tick.
  repeat keeps_walk.
Qed.

Lemma keeps_setCachedData key v :
  keeps_recommenders (setCachedData env key v).
Proof.
  unfold setCachedData, writeToCache, cacheManager_set, cache_set, tick.
  repeat keeps_walk.
Qed.

Lemma keeps_fetchWithRetry {B} (source : nat -> Response B) :
  keeps_recommenders (fetchWithRetry source).
Proof.
  unfold fetchWithRetry. generalize (Exn "undefined"), MAX_RETRIES.
  intros e n. revert e.
  induction n as [| k IH]; intros e; simpl.
  - apply keeps_throw.
  - apply keeps_try_catch; [| exact IH].
    unfold attempt, fetch, json, tick. repeat keeps_walk.
Qed.

Lemma keeps_fetchHolderList : keeps_recommenders (fetchHolderList env self).
Proof.
  unfold fetchHolderList, fetchFreshHolderList, fetch, json, tick.
  repeat first [ apply keeps_getCachedData | apply keeps_setCachedData
               | keeps_walk ].
Qed.

Lemma keeps_mapM {A B} (f : A -> M B) (l : list A) :
  (forall a, keeps_recommenders (f a)) -> keeps_recommenders (mapM f l).
Proof.
  intros Hf. induction l as [| x rest IH]; simpl;
    repeat first [ apply Hf | apply IH | keeps_walk ].
Qed.

(** The aggregator reads and writes the caches only. *)
Lemma keeps_getProcessedTokenData :
  keeps_recommenders (getProcessedTokenData toBN toFixed2 env self).
Proof.
  unfold getProcessedTokenData, fetchTokenSecurity, tokenCodexOrDefault,
    fetchTokenCodex, tradeDataOrDefault, fetchTokenTradeData,
    fetchFreshTradeData, dexDataOrDefault, fetchDexScreenerData,
    fetchFreshDexData, solanaPairsOf, filterHighValueHolders,
    countHighSupplyHolders, toBN_M, cacheManager_delete, fetch, json, tick.
  repeat first [ apply keeps_getCachedData | apply keeps_setCachedData
               | apply keeps_fetchWithRetry | apply keeps_fetchHolderList
               | apply keeps_mapM; intros ? | keeps_walk ].
Qed.

End FrameOfProvider.

(* ===================================================================== *)
(** ** Trust scoring *)
(* ===================================================================== *)

Section TrustFacts.

Variable toBN : string -> Res num.
Variable toFixed2 : num -> string.
Variable env : Env.
Variable tokenProvider : TokenProvider.

(** [suspiciousVolume] is the unguarded quotient test on the snapshot
    the aggregator returns. *)
Lemma suspiciousVolume_run tokenAddress w pd w' t :
  getProcessedTokenData toBN toFixed2 env tokenProvider w = (Ok pd, w') ->
  tradeData pd = Some t ->
  suspiciousVolume toBN toFixed2 env tokenProvider tokenAddress w
  = (Ok (JS.gt (JS.div (unique_wallet_24h t) (volume_24h t))
               (Num (5 # 10))), w').
Proof.
  intros Erun Ht. unfold suspiciousVolume, bind. rewrite Erun.
  unfold tradeDataOf. rewrite Ht. reflexivity.
Qed.

(** A positive count over a zero volume is [Infinity], and
    [Infinity > 0.5] holds. *)
Lemma positive_over_zero_exceeds (q : Q) :
  (0 < q)%Q -> JS.gt (JS.div (Num q) (Num 0)) (Num (5 # 10)) = true.
Proof.
  intros Hq. unfold JS.div, JS.sgn. simpl.
  rewrite (proj1 (Qgt_alt q 0) Hq). reflexivity.
Qed.

(** Every field of the row [updateRecommenderMetrics] writes. *)
Lemma updateRecommenderMetrics_run id tp wallet w m :
  recommenders w !! id = Some m ->
  exists balance,
    updateRecommenderMetrics env id tp wallet w
    = (Ok tt,
       {| cache := cache w; store := store w;
          recommenders :=
            <[id :=
                {| recommenderId := id;
                   trustScore := calculateTrustScore tp m;
                   totalRecommendations :=
                     JS.add (totalRecommendations m) (Num 1);
                   successfulRecs :=
                     if rugPull tp then successfulRecs m
                     else JS.add (successfulRecs m) (Num 1);
                   avgTokenPerformance :=
                     JS.div (JS.add (JS.mul (avgTokenPerformance m)
                                            (totalRecommendations m))
                                    (priceChange24h tp))
                            (JS.add (totalRecommendations m) (Num 1));
                   riskScore := calculateOverallRiskScore tp m;
                   consistencyScore := calculateConsistencyScore tp m;
                   virtualConfidence := JS.div balance (Num 1000000);
                   lastActiveDate := dateNow env (2 + clock w);
                   trustDecay := decayedScore m (dateNow env (1 + clock w));
                   lastUpdated := dateNow env (3 + clock w) |}]>
              (recommenders w);
          clock := 4 + clock w |}).
Proof.
  intros Hm.
  unfold updateRecommenderMetrics, bind at 1, db_getRecommenderMetrics.
  rewrite Hm.
  unfold getRecommenederBalance, newDate, db_updateRecommenderMetrics,
    try_catch, bind, tick, ret, throw. cbn [clock].
  destruct (tokenAccountBalance env (clock w)) as [b | e];
    [exists b | exists (Num 0)]; reflexivity.
Qed.


End TrustFacts.

(** C2 at its failing input. Whenever the aggregated trade data has a
    24h volume of 0 and a positive unique-wallet count (50 in the claim's
    scenario), [suspiciousVolume] evaluates [count / 0 > 0.5] with no guard
    and returns [true], where the claim requires [false]. *)
Theorem suspiciousVolume_flags_zero_volume :
  forall (toBN : string -> Res num) (toFixed2 : num -> string) (env : Env)
         (tokenProvider : TokenProvider) (tokenAddress : string)
         (w w' : World) (pd : ProcessedTokenData) (t : TokenTradeData)
         (wallets : Q),
    getProcessedTokenData toBN toFixed2 env tokenProvider w = (Ok pd, w') ->
    tradeData pd = Some t ->
    volume_24h t = Num 0 ->
    unique_wallet_24h t = Num wallets ->
    (0 < wallets)%Q ->
    suspiciousVolume toBN toFixed2 env tokenProvider tokenAddress w
    = (Ok true, w').
Proof.
  intros toBN toFixed2 env tokenProvider tokenAddress w w' pd t wallets
         Erun Ht Hvol Hwallets Hpos.
  rewrite (suspiciousVolume_run toBN toFixed2 env tokenProvider
             tokenAddress w pd w' t Erun Ht).
  rewrite Hvol, Hwallets, (positive_over_zero_exceeds wallets Hpos).
  reflexivity.
Qed.

Lemma suspiciousVolume_flags_zero_volume_witness :
  volume_24h zeroVolumeTrade = Num 0 /\
  unique_wallet_24h zeroVolumeTrade = Num 50 /\
  fst (suspiciousVolume demo_toBN demo_toFixed2 offline solProvider solMint
                        zeroVolumeWorld) = Ok true.
Proof.
  split; [reflexivity |]. split; [reflexivity |].
  pose (run := getProcessedTokenData demo_toBN demo_toFixed2 offline
                                     solProvider zeroVolumeWorld).
  pose (pd := match fst run with
              | Ok d => d
              | Throw _ =>
                  {| security := defaultSecurity;
                     tradeData := None;
                     holderDistributionTrend := "";
                     highValueHolders := [];
                     recentTrades := false;
                     highSupplyHoldersCount := 0;
                     dexScreenerData := emptyDexData;
                     isDexScreenerListed := false;
                     isDexScreenerPaid := false;
                     tokenCodex := defaultCodex solProvider |}
              end).
  rewrite (suspiciousVolume_flags_zero_volume
             demo_toBN demo_toFixed2 offline solProvider solMint
             zeroVolumeWorld (snd run) pd zeroVolumeTrade 50).
  - reflexivity.
  - vm_compute. reflexivity.
  - vm_compute. reflexivity.
  - reflexivity.
  - reflexivity.
  - reflexivity.
Defined.

(** C9. [calculateTrustScore] and [calculateOverallRiskScore] are the same
    function of their inputs, and so the row that
    [updateRecommenderMetrics] writes for a known recommender carries equal
    [trustScore] and [riskScore] fields. *)
Theorem trustScore_equals_riskScore :
  (forall tp m, calculateTrustScore tp m = calculateOverallRiskScore tp m) /\
  (forall tp m,
      calculateTrustScore tp m
      = JS.div (JS.add (calculateRiskScore tp)
                       (calculateConsistencyScore tp m)) (Num 2)) /\
  forall (env : Env) (id wallet : string) (tp : TokenPerformance)
         (w : World) (m : RecommenderMetrics),
    recommenders w !! id = Some m ->
    exists w' m',
      updateRecommenderMetrics env id tp wallet w = (Ok tt, w') /\
      recommenders w' !! id = Some m' /\
      trustScore m' = riskScore m' /\
      trustScore m' = calculateTrustScore tp m.
Proof.
  split; [reflexivity |]. split; [reflexivity |].
  intros env id wallet tp w m Hm.
  destruct (updateRecommenderMetrics_run env id tp wallet w m Hm)
    as (balance & Erun).
  eexists _, _. split; [exact Erun |]. split.
  - simpl. apply lookup_insert_eq.
  - split; reflexivity.
Qed.

Lemma trustScore_equals_riskScore_witness :
  exists w' m',
    updateRecommenderMetrics fortyDaysLater "veteran" samplePerformance
                             "wallet" veteranWorld = (Ok tt, w') /\
    recommenders w' !! "veteran" = Some m' /\
    trustScore m' = riskScore m' /\
    trustScore m' = calculateTrustScore samplePerformance veteran.
Proof.
  refine (proj2 (proj2 trustScore_equals_riskScore)
                fortyDaysLater "veteran" "wallet" samplePerformance
                veteranWorld veteran _).
  reflexivity.
Defined.

(** The decay never uses more than [MAX_DECAY_DAYS] days. *)
Lemma decayFactor_beyond_cap (lastActive now : Z) :
  (MAX_DECAY_DAYS <= inactiveDays lastActive now)%Z ->
  decayFactor lastActive now = Qpower DECAY_RATE MAX_DECAY_DAYS.
Proof.
  intros Hd. unfold decayFactor. rewrite Z.min_r by exact Hd. reflexivity.
Qed.



(** [generateTrustScore] does return in a world where the aggregator finds
    trade data: the recommender of the example, 40 days inactive, gets the
    decayed score [80 * 0.95 ^ 30]. *)
Example generateTrustScore_veteran :
  exists tp rm w',
    generateTrustScore demo_toBN demo_toFixed2 fortyDaysLater solProvider
                       solMint "veteran" "wallet" veteranTradingWorld
    = (Ok (tp, rm), w') /\
    trustDecay rm = Num (80 * (95 # 100) ^ 30).
Proof. eexists _, _, _. split; vm_compute; reflexivity. Qed.

(* ===================================================================== *)
(** ** Gem score *)
(* ===================================================================== *)

Section GemFacts.

(** Turn the boolean comparisons of rationals in the context into
    propositions. *)
Ltac reflect_Qle :=
  repeat match goal with
         | H : Qle_bool _ _ = true |- _ => apply Qle_bool_iff in H
         | H : Qle_bool _ _ = false |- _ =>
             apply not_true_iff_false in H; rewrite Qle_bool_iff in H
         end.

Lemma sgn_positive (t : Q) : (0 < t)%Q -> JS.sgn (t + - 0) = Gt.
Proof.
  intros Ht. unfold JS.sgn. apply (proj1 (Qgt_alt _ _)). lra.
Qed.

Lemma quotient_mono (x y t : Q) :
  (0 < t)%Q -> (x <= y)%Q ->
  ((x + - 0) / (t + - 0) <= (y + - 0) / (t + - 0))%Q.
Proof.
  intros Ht Hxy. unfold Qdiv. apply Qmult_le_compat_r; [lra |].
  apply Qlt_le_weak, Qinv_lt_0_compat. lra.
Qed.

(** Against a positive finite threshold every number that is not NaN
    normalizes to a rational between 0 and 1. *)
Lemma normalize_in_unit_interval (v : num) (t : Q) :
  (0 < t)%Q -> JS.isNaN v = false ->
  exists c, normalize v (Num 0) (Num t) = Num c /\ (0 <= c <= 1)%Q.
Proof.
  intros Ht Hv. unfold normalize.
  destruct v as [x | | |]; try discriminate; simpl.
  - rewrite (sgn_positive t Ht). simpl.
    destruct (Qle_bool 1 ((x + - 0) / (t + - 0))) eqn:H1; simpl.
    + exists 1%Q. split; [reflexivity | lra].
    + destruct (Qle_bool 0 ((x + - 0) / (t + - 0))) eqn:H0; simpl;
        eexists; (split; [reflexivity |]); reflect_Qle; lra.
  - rewrite (sgn_positive t Ht). simpl.
    exists 1%Q. split; [reflexivity | lra].
  - rewrite (sgn_positive t Ht). simpl.
    exists 0%Q. split; [reflexivity | lra].
Qed.

(** ... and normalization preserves the order of its first argument. *)
Lemma normalize_mono (v1 v2 : num) (t : Q) :
  (0 < t)%Q -> JS.le v1 v2 = true ->
  exists c1 c2,
    normalize v1 (Num 0) (Num t) = Num c1 /\
    normalize v2 (Num 0) (Num t) = Num c2 /\
    (0 <= c1)%Q /\ (c1 <= c2)%Q /\ (c2 <= 1)%Q.
Proof.
  intros Ht Hle. unfold normalize.
  destruct v1 as [x | | |], v2 as [y | | |]; try discriminate; simpl;
    rewrite ?(sgn_positive t Ht); simpl.
  - simpl in Hle. apply Qle_bool_iff in Hle.
    pose proof (quotient_mono x y t Ht Hle) as Hq.
    destruct (Qle_bool 1 ((x + - 0) / (t + - 0))) eqn:X1;
      destruct (Qle_bool 1 ((y + - 0) / (t + - 0))) eqn:Y1; simpl;
      destruct (Qle_bool 0 ((x + - 0) / (t + - 0))) eqn:X0;
      destruct (Qle_bool 0 ((y + - 0) / (t + - 0))) eqn:Y0; simpl;
      eexists _, _; (split; [reflexivity |]); (split; [reflexivity |]);
      reflect_Qle; lra.
  - destruct (Qle_bool 1 ((x + - 0) / (t + - 0))) eqn:X1; simpl;
      [| destruct (Qle_bool 0 ((x + - 0) / (t + - 0))) eqn:X0; simpl];
      eexists _, _; (split; [reflexivity |]); (split; [reflexivity |]);
      reflect_Qle; lra.
  - eexists _, _. split; [reflexivity |]. split; [reflexivity |]. lra.
  - destruct (Qle_bool 1 ((y + - 0) / (t + - 0))) eqn:Y1; simpl;
      [| destruct (Qle_bool 0 ((y + - 0) / (t + - 0))) eqn:Y0; simpl];
      eexists _, _; (split; [reflexivity |]); (split; [reflexivity |]);
      reflect_Qle; lra.
  - eexists _, _. split; [reflexivity |]. split; [reflexivity |]. lra.
  - eexists _, _. split; [reflexivity |]. split; [reflexivity |]. lra.
Qed.

(** The score as a function of the four normalized signals. *)
Lemma calculateGemScore_of_normalized token criteria cv cl cp cm :
  normalize (volume24hUSD token) (Num 0) (volumeThreshold criteria)
  = Num cv ->
  normalize (liquidityUSD token) (Num 0) (liquidityThreshold criteria)
  = Num cl ->
  normalize (JS.abs (priceChange24h_percent token)) (Num 0)
            (priceSurgeThreshold criteria) = Num cp ->
  normalize (gem_marketCap token) (Num 0) (maxMarketCap criteria)
  = Num cm ->
  calculateGemScore token criteria
  = Num (inject_Z
           (Qfloor ((0 + cv * (3 # 10) + cl * (25 # 100) + cp * (25 # 100)
                     + (1 + - cm) * (2 # 10)) * 100 + (1 # 2)))).
Proof.
  intros Hv Hl Hp Hm. unfold calculateGemScore.
  rewrite Hv, Hl, Hp, Hm. reflexivity.
Qed.

End GemFacts.

(** C8, as the code has it. For criteria whose four thresholds are finite
    and strictly positive, and tokens whose signals are numbers, the gem
    score is monotonic non-decreasing in the 24h volume, in the liquidity
    and in the absolute 24h price change: raising any of them (the others
    and the market cap unchanged or raised likewise) never lowers the
    score. *)
Theorem calculateGemScore_monotone :
  forall (criteria : GemCriteria) (tv tl tp tm : Q) (a b : GemToken),
    volumeThreshold criteria = Num tv -> (0 < tv)%Q ->
    liquidityThreshold criteria = Num tl -> (0 < tl)%Q ->
    priceSurgeThreshold criteria = Num tp -> (0 < tp)%Q ->
    maxMarketCap criteria = Num tm -> (0 < tm)%Q ->
    JS.le (volume24hUSD a) (volume24hUSD b) = true ->
    JS.le (liquidityUSD a) (liquidityUSD b) = true ->
    JS.le (JS.abs (priceChange24h_percent a))
          (JS.abs (priceChange24h_percent b)) = true ->
    gem_marketCap a = gem_marketCap b ->
    JS.isNaN (gem_marketCap a) = false ->
    JS.le (calculateGemScore a criteria) (calculateGemScore b criteria)
    = true.
Proof.
  intros criteria tv tl tp tm a b Hv Htv Hl Htl Hp Htp Hm Htm
         Hvol Hliq Hprice Hcap Hnan.
  destruct (normalize_mono _ _ tv Htv Hvol)
    as (v1 & v2 & Ev1 & Ev2 & Hv0 & Hv12 & Hv1).
  destruct (normalize_mono _ _ tl Htl Hliq)
    as (l1 & l2 & El1 & El2 & Hl0 & Hl12 & Hl1).
  destruct (normalize_mono _ _ tp Htp Hprice)
    as (p1 & p2 & Ep1 & Ep2 & Hp0 & Hp12 & Hp1).
  destruct (normalize_in_unit_interval _ tm Htm Hnan) as (m & Em & Hm01).
  rewrite <- Hv in Ev1, Ev2. rewrite <- Hl in El1, El2.
  rewrite <- Hp in Ep1, Ep2. rewrite <- Hm in Em.
  rewrite (calculateGemScore_of_normalized a criteria v1 l1 p1 m
             Ev1 El1 Ep1 Em).
  rewrite Hcap in Em.
  rewrite (calculateGemScore_of_normalized b criteria v2 l2 p2 m
             Ev2 El2 Ep2 Em).
  unfold JS.le. apply Qle_bool_iff. rewrite <- Zle_Qle.
  apply Qfloor_resp_le. lra.
Qed.

Lemma calculateGemScore_monotone_witness :
  JS.le (volume24hUSD quietToken) (volume24hUSD busyToken) = true /\
  JS.le (calculateGemScore quietToken usualCriteria)
        (calculateGemScore busyToken usualCriteria) = true.
Proof.
  split; [reflexivity |].
  apply (calculateGemScore_monotone
           usualCriteria 100000 50000 20 1000000 quietToken busyToken);
    first [ reflexivity | lra ].
Defined.

(** C8 as stated fails at a threshold of 0, which is non-negative: a 24h
    volume of 0 normalizes to [0 / 0], the score is NaN, and NaN is not
    below the score of the same token with a larger volume. *)
Lemma calculateGemScore_zero_threshold_not_monotone :
  JS.le (Num 0) (volumeThreshold zeroVolumeThreshold) = true /\
  JS.le (volume24hUSD quietToken) (volume24hUSD busyToken) = true /\
  liquidityUSD quietToken = liquidityUSD busyToken /\
  priceChange24h_percent quietToken = priceChange24h_percent busyToken /\
  gem_marketCap quietToken = gem_marketCap busyToken /\
  calculateGemScore quietToken zeroVolumeThreshold = NaN /\
  JS.le (calculateGemScore quietToken zeroVolumeThreshold)
        (calculateGemScore busyToken zeroVolumeThreshold) = false.
Proof. repeat split; vm_compute; reflexivity. Qed.

(* ===================================================================== *)
(** ** The canonical pair and the order of the caller's array *)
(* ===================================================================== *)

Section SortFacts.

Context {A : Type}.
Variable comparefn : A -> A -> num.

Lemma sort_insert_perm (x : A) (l : list A) :
  sort_insert comparefn x l ≡ₚ x :: l.
Proof.
  induction l as [| y rest IH]; cbn [sort_insert]; [reflexivity |].
  destruct (JS.gt (comparefn x y) (Num 0)); [| reflexivity].
  rewrite IH. apply Permutation_swap.
Qed.

(** Sorting rearranges the array and neither drops nor adds elements. *)
Lemma array_sort_perm (l : list A) : array_sort comparefn l ≡ₚ l.
Proof.
  induction l as [| x rest IH]; simpl; [reflexivity |].
  rewrite sort_insert_perm, IH. reflexivity.
Qed.

Lemma array_sort_nonempty (x : A) (rest : list A) :
  exists first, head (array_sort comparefn (x :: rest)) = Some first.
Proof.
  destruct (array_sort comparefn (x :: rest)) as [| y l] eqn:E.
  - pose proof (array_sort_perm (x :: rest)) as Hp. rewrite E in Hp.
    apply Permutation_nil_l in Hp. discriminate.
  - exists y. reflexivity.
Qed.

End SortFacts.

Ltac reflect_Q :=
  repeat match goal with
         | H : negb _ = true |- _ => apply negb_true_iff in H
         | H : negb _ = false |- _ => apply negb_false_iff in H
         | H : Qle_bool _ _ = true |- _ => apply Qle_bool_iff in H
         | H : Qle_bool _ _ = false |- _ =>
             apply not_true_iff_false in H; rewrite Qle_bool_iff in H
         | H : Qeq_bool _ _ = true |- _ => apply Qeq_bool_iff in H
         | H : Qeq_bool _ _ = false |- _ =>
             apply not_true_iff_false in H; rewrite Qeq_bool_iff in H
         end.

Section SignOfComparison.

(** A result of the comparison function that is not NaN is below, equal
    to, or above 0, and only one of the three. *)
Lemma sign_cases (v : num) :
  JS.isNaN v = false ->
  (JS.lt v (Num 0) = true /\ JS.strict_neq v (Num 0) = true /\
   JS.gt v (Num 0) = false) \/
  (JS.lt v (Num 0) = false /\ JS.strict_neq v (Num 0) = false /\
   JS.gt v (Num 0) = false) \/
  (JS.lt v (Num 0) = false /\ JS.strict_neq v (Num 0) = true /\
   JS.gt v (Num 0) = true).
Proof.
  destruct v as [q | | |]; simpl; intros Hnan; try discriminate.
  - unfold JS.gt. simpl.
    destruct (Qle_bool 0 q) eqn:E1, (Qle_bool q 0) eqn:E2,
             (Qeq_bool q 0) eqn:E3; simpl; reflect_Q;
      first [ left; repeat split; reflexivity
            | right; left; repeat split; reflexivity
            | right; right; repeat split; reflexivity
            | exfalso; lra
            | exfalso; apply E3; lra ].
  - right. right. repeat split.
  - left. repeat split.
Qed.

Lemma negative_sign (v : num) :
  JS.lt v (Num 0) = true ->
  JS.strict_neq v (Num 0) = true /\ JS.gt v (Num 0) = false.
Proof.
  destruct v as [q | | |]; simpl; intros H; try discriminate.
  - unfold JS.gt. simpl. reflect_Q. split.
    + apply negb_true_iff, not_true_iff_false. rewrite Qeq_bool_iff. lra.
    + apply negb_false_iff, Qle_bool_iff. lra.
  - split; reflexivity.
Qed.

Lemma positive_sign (v : num) :
  JS.gt v (Num 0) = true ->
  JS.strict_neq v (Num 0) = true /\ JS.lt v (Num 0) = false.
Proof.
  destruct v as [q | | |]; unfold JS.gt; simpl; intros H; try discriminate.
  - reflect_Q. split.
    + apply negb_true_iff, not_true_iff_false. rewrite Qeq_bool_iff. lra.
    + apply negb_false_iff, Qle_bool_iff. lra.
  - split; reflexivity.
Qed.

End SignOfComparison.

Section ComparatorFacts.

Context {A : Type}.
Variable comparefn : A -> A -> Res num.

Lemma lessBy_not_equalBy (a b : A) :
  lessBy comparefn a b -> equalBy comparefn a b -> False.
Proof.
  intros (v & E & Hv) (v' & E' & Hv'). rewrite E in E'. injection E' as <-.
  apply negative_sign in Hv as [Hv _]. congruence.
Qed.

Lemma lessBy_not_greaterBy (a b : A) :
  lessBy comparefn a b -> greaterBy comparefn a b -> False.
Proof.
  intros (v & E & Hv) (v' & E' & Hv'). rewrite E in E'. injection E' as <-.
  apply negative_sign in Hv as [_ Hv]. congruence.
Qed.

Lemma equalBy_not_greaterBy (a b : A) :
  equalBy comparefn a b -> greaterBy comparefn a b -> False.
Proof.
  intros (v & E & Hv) (v' & E' & Hv'). rewrite E in E'. injection E' as <-.
  apply positive_sign in Hv' as [Hv' _]. congruence.
Qed.

Lemma comparison_cases (l : list A) (a b : A) :
  consistentComparator comparefn l -> a ∈ l -> b ∈ l ->
  lessBy comparefn a b \/ equalBy comparefn a b \/ greaterBy comparefn a b.
Proof.
  intros (Hnum & _) Ha Hb.
  destruct (Hnum a b Ha Hb) as (v & E & Hv).
  destruct (sign_cases v Hv) as [(H & _) | [(_ & H & _) | (_ & _ & H)]].
  - left. exists v. split; assumption.
  - right. left. exists v. split; assumption.
  - right. right. exists v. split; assumption.
Qed.

Lemma lessBy_irrefl (l : list A) (a : A) :
  consistentComparator comparefn l -> a ∈ l -> ~ lessBy comparefn a a.
Proof.
  intros (_ & Hrefl & _) Ha Hlt.
  exact (lessBy_not_equalBy a a Hlt (Hrefl a Ha)).
Qed.

Lemma lessBy_greaterBy (l : list A) (a b : A) :
  consistentComparator comparefn l -> a ∈ l -> b ∈ l ->
  lessBy comparefn a b -> greaterBy comparefn b a.
Proof.
  intros Hcons Ha Hb Hab.
  destruct (comparison_cases l b a Hcons Hb Ha) as [Hba | [Hba | Hba]].
  - exfalso. apply (lessBy_irrefl l a Hcons Ha).
    destruct Hcons as (_ & _ & _ & _ & Hlt & _).
    exact (Hlt a b a Ha Hb Ha Hab Hba).
  - exfalso. destruct Hcons as (_ & _ & Hsym & _).
    exact (lessBy_not_equalBy a b Hab (Hsym b a Hb Ha Hba)).
  - exact Hba.
Qed.

(** With a consistent comparator, [x] may stand in front of whatever [y]
    may stand in front of, if [x] does not compare greater than [y]. *)
Lemma not_greaterBy_front (l : list A) (x y z : A) :
  consistentComparator comparefn l -> x ∈ l -> y ∈ l -> z ∈ l ->
  ~ greaterBy comparefn x y -> ~ lessBy comparefn z y ->
  ~ lessBy comparefn z x.
Proof.
  intros Hcons Hx Hy Hz Hxy Hzy Hzx.
  pose proof Hcons as (_ & _ & Hsym & Heq & Hlt & Hgt).
  destruct (comparison_cases l x y Hcons Hx Hy) as [Hlxy | [Hexy | Hgxy]];
    [| | contradiction].
  - apply Hzy. exact (Hlt z x y Hz Hx Hy Hzx Hlxy).
  - destruct (comparison_cases l z y Hcons Hz Hy) as [Hlzy | [Hezy | Hgzy]].
    + contradiction.
    + apply (lessBy_not_equalBy z x Hzx).
      apply (Heq z y x Hz Hy Hx Hezy), (Hsym x y Hx Hy Hexy).
    + apply (equalBy_not_greaterBy x y Hexy).
      apply (Hgt x z y Hx Hz Hy); [| exact Hgzy].
      exact (lessBy_greaterBy l z x Hcons Hz Hx Hzx).
Qed.

Lemma not_greaterBy_self (l : list A) (x y : A) :
  consistentComparator comparefn l -> x ∈ l -> y ∈ l ->
  ~ greaterBy comparefn x y -> ~ lessBy comparefn y x.
Proof.
  intros Hcons Hx Hy Hxy.
  apply (not_greaterBy_front l x y y Hcons Hx Hy Hy Hxy).
  apply (lessBy_irrefl l y Hcons Hy).
Qed.

Lemma insertBy_perm (x : A) (l l' : list A) :
  insertBy comparefn x l = Ok l' -> l' ≡ₚ x :: l.
Proof.
  revert l'. induction l as [| y rest IH]; cbn [insertBy]; intros l' E.
  - injection E as <-. reflexivity.
  - destruct (comparefn x y) as [v | e]; [| discriminate].
    destruct (JS.gt v (Num 0)).
    + destruct (insertBy comparefn x rest) as [r | e]; [| discriminate].
      injection E as <-. rewrite (IH r eq_refl). apply Permutation_swap.
    + injection E as <-. reflexivity.
Qed.

Lemma insertBy_throw (x : A) (l : list A) (e : exn) :
  insertBy comparefn x l = Throw e ->
  exists y, y ∈ l /\ comparefn x y = Throw e.
Proof.
  induction l as [| y rest IH]; cbn [insertBy]; intros E; [discriminate |].
  destruct (comparefn x y) as [v | e'] eqn:Hc.
  - destruct (JS.gt v (Num 0)); [| discriminate].
    destruct (insertBy comparefn x rest) as [r | e'']; [discriminate |].
    injection E as ->. destruct (IH eq_refl) as (z & Hz & Hcz).
    exists z. split; [right; exact Hz | exact Hcz].
  - injection E as ->. exists y. split; [left | exact Hc].
Qed.

Lemma insertBy_sorted (l : list A) (x : A) (r r' : list A) :
  consistentComparator comparefn l ->
  x ∈ l -> (forall y, y ∈ r -> y ∈ l) ->
  sortedBy comparefn r ->
  insertBy comparefn x r = Ok r' ->
  sortedBy comparefn r'.
Proof.
  intros Hcons Hx. revert r'.
  induction r as [| y rest IH]; cbn [insertBy]; intros r' Hin Hsorted E.
  - injection E as <-. constructor; constructor.
  - assert (Hy : y ∈ l) by (apply Hin; left).
    assert (Hrest : forall z, z ∈ rest -> z ∈ l)
      by (intros z Hz; apply Hin; right; exact Hz).
    apply StronglySorted_inv in Hsorted as [Hsrest Hyrest].
    destruct (comparefn x y) as [v | e] eqn:Hc; [| discriminate].
    destruct (JS.gt v (Num 0)) eqn:Hgt.
    + destruct (insertBy comparefn x rest) as [r1 | e] eqn:Hins;
        [| discriminate].
      injection E as <-.
      constructor; [apply IH; auto |].
      rewrite (insertBy_perm x rest r1 Hins). constructor; [| exact Hyrest].
      intros Hlt. apply (lessBy_not_greaterBy x y Hlt).
      exists v. split; assumption.
    + injection E as <-.
      assert (Hng : ~ greaterBy comparefn x y).
      { intros (v' & E' & Hv'). rewrite Hc in E'. injection E' as <-.
        congruence. }
      constructor; [constructor; assumption |].
      constructor.
      * exact (not_greaterBy_self l x y Hcons Hx Hy Hng).
      * rewrite Forall_forall in Hyrest. apply Forall_forall. intros z Hz.
        apply (not_greaterBy_front l x y z Hcons Hx Hy (Hrest z Hz) Hng).
        apply Hyrest, Hz.
Qed.

Lemma sortBy_perm (l l' : list A) :
  sortBy comparefn l = Ok l' -> l' ≡ₚ l.
Proof.
  revert l'. induction l as [| x rest IH]; cbn [sortBy]; intros l' E.
  - injection E as <-. reflexivity.
  - destruct (sortBy comparefn rest) as [r | e]; [| discriminate].
    rewrite (insertBy_perm x r l' E), (IH r eq_refl). reflexivity.
Qed.

Lemma sortBy_throw (l : list A) (e : exn) :
  sortBy comparefn l = Throw e ->
  exists a b, a ∈ l /\ b ∈ l /\ comparefn a b = Throw e.
Proof.
  induction l as [| x rest IH]; cbn [sortBy]; intros E; [discriminate |].
  destruct (sortBy comparefn rest) as [r | e'] eqn:Hs.
  - destruct (insertBy_throw x r e E) as (y & Hy & Hc).
    exists x, y. split; [left |]. split; [| exact Hc].
    right. rewrite <- (sortBy_perm rest r Hs). exact Hy.
  - injection E as ->. destruct (IH eq_refl) as (a & b & Ha & Hb & Hc).
    exists a, b. split; [right; exact Ha |]. split; [right; exact Hb |].
    exact Hc.
Qed.

Lemma sortBy_sorted (l l0 l' : list A) :
  consistentComparator comparefn l ->
  (forall y, y ∈ l0 -> y ∈ l) ->
  sortBy comparefn l0 = Ok l' -> sortedBy comparefn l'.
Proof.
  intros Hcons. revert l'.
  induction l0 as [| x rest IH]; cbn [sortBy]; intros l' Hin E.
  - injection E as <-. constructor.
  - destruct (sortBy comparefn rest) as [r | e] eqn:Hs; [| discriminate].
    apply (insertBy_sorted l x r l' Hcons); [apply Hin; left | | | exact E].
    + intros y Hy. apply Hin. right.
      rewrite <- (sortBy_perm rest r Hs). exact Hy.
    + apply IH; [| reflexivity]. intros y Hy. apply Hin. right. exact Hy.
Qed.

End ComparatorFacts.

(** The insertion sort meets what the language fixes about [sort]. *)
Lemma insertionSort_conforming {A : Type} :
  conformingSort (@insertionSort A).
Proof.
  intros comparefn l. unfold insertionSort.
  destruct (sortBy comparefn l) as [l' | e] eqn:Hs.
  - split; [exact (sortBy_perm comparefn l l' Hs) |].
    intros Hcons. apply (sortBy_sorted comparefn l l l' Hcons); auto.
  - exact (sortBy_throw comparefn l e Hs).
Qed.

Section PairOrder.

Lemma finitePairObject_fields (p : PairObject) :
  finitePairObject p ->
  exists l m,
    po_liquidity p = Some {| usd := Num l |} /\ po_marketCap p = Some (Num m).
Proof.
  unfold finitePairObject.
  destruct (po_liquidity p) as [[u] |]; [| contradiction].
  destruct (po_marketCap p) as [cap |]; [| contradiction].
  simpl. intros [Hu Hc].
  destruct u as [l | | |]; try contradiction.
  destruct cap as [m | | |]; try contradiction.
  exists l, m. split; reflexivity.
Qed.

(** The comparison function on two pairs with finite fields. *)
Lemma comparePairs_finite (a b : PairObject) (la ma lb mb : Q) :
  po_liquidity a = Some {| usd := Num la |} -> po_marketCap a = Some (Num ma) ->
  po_liquidity b = Some {| usd := Num lb |} -> po_marketCap b = Some (Num mb) ->
  comparePairs a b
  = Ok (Num (if Qeq_bool (lb + - la) 0 then mb + - ma else lb + - la)).
Proof.
  intros Ela Ema Elb Emb.
  unfold comparePairs, readLiquidityUsd. rewrite Ela, Ema, Elb, Emb. simpl.
  destruct (Qeq_bool (lb + - la) 0); reflexivity.
Qed.

Lemma lessBy_finite (a b : PairObject) (la ma lb mb : Q) :
  po_liquidity a = Some {| usd := Num la |} -> po_marketCap a = Some (Num ma) ->
  po_liquidity b = Some {| usd := Num lb |} -> po_marketCap b = Some (Num mb) ->
  lessBy comparePairs a b <-> (lb < la \/ (lb == la /\ mb < ma))%Q.
Proof.
  intros Ela Ema Elb Emb. unfold lessBy.
  rewrite (comparePairs_finite a b la ma lb mb Ela Ema Elb Emb).
  split.
  - intros (v & E & Hv). injection E as <-. simpl in Hv.
    destruct (Qeq_bool (lb + - la) 0) eqn:Heq; reflect_Q; [right | left];
      try split; lra.
  - intros H. eexists. split; [reflexivity |]. simpl.
    apply negb_true_iff, not_true_iff_false. rewrite Qle_bool_iff.
    destruct (Qeq_bool (lb + - la) 0) eqn:Heq; reflect_Q.
    + destruct H as [H | [_ H]]; lra.
    + destruct H as [H | [H _]]; [lra |]. exfalso. apply Heq. lra.
Qed.

Lemma equalBy_finite (a b : PairObject) (la ma lb mb : Q) :
  po_liquidity a = Some {| usd := Num la |} -> po_marketCap a = Some (Num ma) ->
  po_liquidity b = Some {| usd := Num lb |} -> po_marketCap b = Some (Num mb) ->
  equalBy comparePairs a b <-> (lb == la /\ mb == ma)%Q.
Proof.
  intros Ela Ema Elb Emb. unfold equalBy.
  rewrite (comparePairs_finite a b la ma lb mb Ela Ema Elb Emb).
  split.
  - intros (v & E & Hv). injection E as <-. simpl in Hv.
    destruct (Qeq_bool (lb + - la) 0) eqn:Heq; reflect_Q.
    + split; lra.
    + contradiction.
  - intros [H1 H2]. eexists. split; [reflexivity |]. simpl.
    apply negb_false_iff, Qeq_bool_iff.
    destruct (Qeq_bool (lb + - la) 0) eqn:Heq; reflect_Q; lra.
Qed.

Lemma greaterBy_finite (a b : PairObject) (la ma lb mb : Q) :
  po_liquidity a = Some {| usd := Num la |} -> po_marketCap a = Some (Num ma) ->
  po_liquidity b = Some {| usd := Num lb |} -> po_marketCap b = Some (Num mb) ->
  greaterBy comparePairs a b <-> (la < lb \/ (lb == la /\ ma < mb))%Q.
Proof.
  intros Ela Ema Elb Emb. unfold greaterBy.
  rewrite (comparePairs_finite a b la ma lb mb Ela Ema Elb Emb).
  split.
  - intros (v & E & Hv). injection E as <-. unfold JS.gt in Hv. simpl in Hv.
    destruct (Qeq_bool (lb + - la) 0) eqn:Heq; reflect_Q; [right | left];
      try split; lra.
  - intros H. eexists. split; [reflexivity |]. unfold JS.gt. simpl.
    apply negb_true_iff, not_true_iff_false. rewrite Qle_bool_iff.
    destruct (Qeq_bool (lb + - la) 0) eqn:Heq; reflect_Q.
    + destruct H as [H | [_ H]]; lra.
    + destruct H as [H | [H _]]; [lra |]. exfalso. apply Heq. lra.
Qed.

(** On pairs with finite liquidity and market cap the comparison function
    is a consistent comparator. *)
Lemma comparePairs_consistent (l : list PairObject) :
  Forall finitePairObject l -> consistentComparator comparePairs l.
Proof.
  intros Hfin. rewrite Forall_forall in Hfin.
  repeat split.
  - intros a b Ha Hb.
    destruct (finitePairObject_fields a (Hfin a Ha)) as (la & ma & Ela & Ema).
    destruct (finitePairObject_fields b (Hfin b Hb)) as (lb & mb & Elb & Emb).
    rewrite (comparePairs_finite a b la ma lb mb Ela Ema Elb Emb).
    eexists. split; reflexivity.
  - intros a Ha.
    destruct (finitePairObject_fields a (Hfin a Ha)) as (la & ma & Ela & Ema).
    apply (equalBy_finite a a la ma la ma Ela Ema Ela Ema). split; lra.
  - intros a b Ha Hb.
    destruct (finitePairObject_fields a (Hfin a Ha)) as (la & ma & Ela & Ema).
    destruct (finitePairObject_fields b (Hfin b Hb)) as (lb & mb & Elb & Emb).
    rewrite (equalBy_finite a b la ma lb mb Ela Ema Elb Emb),
            (equalBy_finite b a lb mb la ma Elb Emb Ela Ema).
    intros [H1 H2]. split; lra.
  - intros a b c Ha Hb Hc.
    destruct (finitePairObject_fields a (Hfin a Ha)) as (la & ma & Ela & Ema).
    destruct (finitePairObject_fields b (Hfin b Hb)) as (lb & mb & Elb & Emb).
    destruct (finitePairObject_fields c (Hfin c Hc)) as (lc & mc & Elc & Emc).
    rewrite (equalBy_finite a b la ma lb mb Ela Ema Elb Emb),
            (equalBy_finite b c lb mb lc mc Elb Emb Elc Emc),
            (equalBy_finite a c la ma lc mc Ela Ema Elc Emc).
    intros [H1 H2] [H3 H4]. split; lra.
  - intros a b c Ha Hb Hc.
    destruct (finitePairObject_fields a (Hfin a Ha)) as (la & ma & Ela & Ema).
    destruct (finitePairObject_fields b (Hfin b Hb)) as (lb & mb & Elb & Emb).
    destruct (finitePairObject_fields c (Hfin c Hc)) as (lc & mc & Elc & Emc).
    rewrite (lessBy_finite a b la ma lb mb Ela Ema Elb Emb),
            (lessBy_finite b c lb mb lc mc Elb Emb Elc Emc),
            (lessBy_finite a c la ma lc mc Ela Ema Elc Emc).
    intros [H1 | [H1 H2]] [H3 | [H3 H4]];
      first [ left; lra | right; split; lra ].
  - intros a b c Ha Hb Hc.
    destruct (finitePairObject_fields a (Hfin a Ha)) as (la & ma & Ela & Ema).
    destruct (finitePairObject_fields b (Hfin b Hb)) as (lb & mb & Elb & Emb).
    destruct (finitePairObject_fields c (Hfin c Hc)) as (lc & mc & Elc & Emc).
    rewrite (greaterBy_finite a b la ma lb mb Ela Ema Elb Emb),
            (greaterBy_finite b c lb mb lc mc Elb Emb Elc Emc),
            (greaterBy_finite a c la ma lc mc Ela Ema Elc Emc).
    intros [H1 | [H1 H2]] [H3 | [H3 H4]];
      first [ left; lra | right; split; lra ].
Qed.

(** Between pairs with finite fields, the sort order of the comparison
    function is descending liquidity, ties by descending market cap. *)
Lemma not_lessBy_ranksBefore (x y : PairObject) :
  finitePairObject x -> finitePairObject y ->
  ~ lessBy comparePairs y x -> ranksBefore x y.
Proof.
  intros Hx Hy Hnl.
  destruct (finitePairObject_fields x Hx) as (lx & mx & Elx & Emx).
  destruct (finitePairObject_fields y Hy) as (ly & my & Ely & Emy).
  rewrite (lessBy_finite y x ly my lx mx Ely Emy Elx Emx) in Hnl.
  unfold ranksBefore. rewrite Elx, Ely, Emx, Emy. simpl.
  destruct (Qlt_le_dec ly lx) as [Hlt | Hle].
  - left. apply negb_true_iff, not_true_iff_false. rewrite Qle_bool_iff. lra.
  - right.
    assert (Hnlt : ~ (lx < ly)%Q) by (intros H; apply Hnl; left; exact H).
    assert (Heq : (lx == ly)%Q) by lra.
    split; [exact Heq |]. apply Qle_bool_iff.
    destruct (Qlt_le_dec mx my) as [Hm | Hm]; [| exact Hm].
    exfalso. apply Hnl. right. split; assumption.
Qed.

Lemma sortedBy_ranksBefore (l : list PairObject) :
  Forall finitePairObject l ->
  sortedBy comparePairs l -> StronglySorted ranksBefore l.
Proof.
  unfold sortedBy. induction l as [| x rest IH]; intros Hfin Hs.
  - constructor.
  - apply Forall_cons in Hfin as [Hx Hrest].
    apply StronglySorted_inv in Hs as [Hsrest Hxrest].
    constructor; [apply IH; assumption |].
    rewrite Forall_forall in Hxrest, Hrest. apply Forall_forall.
    intros y Hy. apply not_lessBy_ranksBefore; auto.
Qed.

(** The comparison function throws only on a pair without [liquidity]. *)
Lemma comparePairs_throws (a b : PairObject) (e : exn) :
  comparePairs a b = Throw e ->
  e = Exn "TypeError: Cannot read properties of undefined (reading 'usd')" /\
  (po_liquidity a = None \/ po_liquidity b = None).
Proof.
  unfold comparePairs, readLiquidityUsd.
  destruct (po_liquidity b) as [lb |].
  - destruct (po_liquidity a) as [la |].
    + destruct (JS.strict_neq _ _); discriminate.
    + intros E. injection E as <-. split; [reflexivity | left; reflexivity].
  - intros E. injection E as <-. split; [reflexivity | right; reflexivity].
Qed.

Lemma comparePairs_returns (a b : PairObject) :
  hasLiquidity a -> hasLiquidity b -> exists v, comparePairs a b = Ok v.
Proof.
  unfold hasLiquidity, comparePairs, readLiquidityUsd. intros Ha Hb.
  destruct (po_liquidity b) as [lb |]; [| contradiction].
  destruct (po_liquidity a) as [la |]; [| contradiction].
  destruct (JS.strict_neq _ _); eexists; reflexivity.
Qed.

End PairOrder.

(** C10, as the code has it. [getHighestLiquidityPair] sorts the array its
    argument refers to, in place, whatever sorting algorithm the engine
    runs. On an empty array it returns [null] and changes nothing. On a
    non-empty array whose pairs all carry a [liquidity] object the call
    returns; the store afterwards holds, under the same reference, a
    rearrangement of the caller's pairs; the returned pair is its first
    element; and every other array is untouched. When, in addition, every
    pair's liquidity and market cap are finite numbers, the array is ordered
    by descending liquidity with ties by descending market cap. A call that
    throws throws the TypeError of reading [usd] of a missing [liquidity],
    the array holds such a pair, and every other array is untouched. *)
Theorem getHighestLiquidityPair_sorts_in_place :
  forall (sort : (PairObject -> PairObject -> Res num) ->
                 list PairObject -> SortOutcome PairObject)
         (dexData : DexScreenerDataRef)
         (arrays : gmap nat (list PairObject))
         (ps : list PairObject),
    conformingSort sort ->
    arrays !! ref_pairs dexData = Some ps ->
    (ps = [] ->
     getHighestLiquidityPair sort dexData arrays = (Ok None, arrays)) /\
    (ps <> [] -> Forall hasLiquidity ps ->
     exists (first : PairObject) (sorted : list PairObject)
            (arrays' : gmap nat (list PairObject)),
       getHighestLiquidityPair sort dexData arrays
       = (Ok (Some first), arrays') /\
       arrays' !! ref_pairs dexData = Some sorted /\
       (forall r, r <> ref_pairs dexData -> arrays' !! r = arrays !! r) /\
       sorted ≡ₚ ps /\
       head sorted = Some first /\
       (Forall finitePairObject ps -> StronglySorted ranksBefore sorted)) /\
    (forall (e : exn) (arrays' : gmap nat (list PairObject)),
       getHighestLiquidityPair sort dexData arrays = (Throw e, arrays') ->
       e = Exn "TypeError: Cannot read properties of undefined (reading 'usd')"
       /\ Exists (fun p => po_liquidity p = None) ps
       /\ (forall r, r <> ref_pairs dexData -> arrays' !! r = arrays !! r)).
Proof.
  intros sort dexData arrays ps Hsort Hps.
  pose proof (Hsort comparePairs ps) as Hspec.
  split; [| split].
  - intros ->. unfold getHighestLiquidityPair. rewrite Hps. reflexivity.
  - intros Hne Hliq. destruct ps as [| p rest]; [contradiction |].
    unfold getHighestLiquidityPair. rewrite Hps.
    destruct (sort comparePairs (p :: rest)) as [sorted | e remains].
    + destruct Hspec as [Hperm Hsorted].
      destruct sorted as [| first sorted'].
      { apply Permutation_nil_l in Hperm. discriminate. }
      exists first, (first :: sorted'),
        (<[ref_pairs dexData := first :: sorted']> arrays).
      split; [reflexivity |].
      split; [apply lookup_insert_eq |].
      split; [intros r Hr; apply lookup_insert_ne; congruence |].
      split; [exact Hperm |].
      split; [reflexivity |].
      intros Hfin. apply sortedBy_ranksBefore.
      * rewrite Hperm. exact Hfin.
      * apply Hsorted, comparePairs_consistent, Hfin.
    + exfalso. destruct Hspec as (a & b & Ha & Hb & Hc).
      rewrite Forall_forall in Hliq.
      destruct (comparePairs_returns a b (Hliq a Ha) (Hliq b Hb)) as (v & Hv).
      congruence.
  - intros e arrays'. unfold getHighestLiquidityPair. rewrite Hps.
    destruct ps as [| p rest]; [discriminate |].
    destruct (sort comparePairs (p :: rest)) as [sorted | e' remains];
      [discriminate |].
    intros E. injection E as -> <-.
    destruct Hspec as (a & b & Ha & Hb & Hc).
    apply comparePairs_throws in Hc as [-> Hnone].
    split; [reflexivity |].
    split.
    + apply Exists_exists. destruct Hnone as [H | H]; eauto.
    + intros r Hr. apply lookup_insert_ne. congruence.
Qed.

Lemma getHighestLiquidityPair_sorts_in_place_witness :
  exists (first : PairObject) (sorted : list PairObject)
         (arrays' : gmap nat (list PairObject)),
    getHighestLiquidityPair insertionSort threePairsData threePairs
    = (Ok (Some first), arrays') /\
    arrays' !! 7%nat = Some sorted /\
    (forall r, r <> 7%nat -> arrays' !! r = threePairs !! r) /\
    sorted ≡ₚ map ofPair
                  [ samplePair 100 5; samplePair 300 1; samplePair 100 9 ] /\
    head sorted = Some first /\
    StronglySorted ranksBefore sorted.
Proof.
  destruct (getHighestLiquidityPair_sorts_in_place
              insertionSort threePairsData threePairs
              (map ofPair
                   [ samplePair 100 5; samplePair 300 1; samplePair 100 9 ])
              insertionSort_conforming eq_refl)
    as (_ & Hsorts & _).
  destruct Hsorts
    as (first & sorted & arrays' & Hrun & Hat & Hothers & Hperm & Hhead & Hord).
  - discriminate.
  - repeat constructor; discriminate.
  - exists first, sorted, arrays'.
    repeat (split; [assumption |]).
    apply Hord. repeat constructor.
Defined.

(** The array of the example, after the call. *)
Example getHighestLiquidityPair_three_pairs :
  getHighestLiquidityPair insertionSort threePairsData threePairs
  = (Ok (Some (ofPair (samplePair 300 1))),
     {[ 7%nat := map ofPair
                     [ samplePair 300 1; samplePair 100 9; samplePair 100 5 ] ]}).
Proof. vm_compute. reflexivity. Qed.

(** Two pairs that tie on liquidity, one of them without market cap,
    cannot be put in order. *)
Lemma tied_pairs_unordered (sorted : list PairObject) :
  sorted ≡ₚ [ uncappedPair; ofPair (samplePair 100 5) ] ->
  ~ StronglySorted ranksBefore sorted.
Proof.
  intros Hperm Hsorted. symmetry in Hperm.
  apply Permutation_length_2_inv in Hperm as [-> | ->];
    apply StronglySorted_inv in Hsorted as [_ Hfront];
    apply Forall_cons in Hfront as [Hrank _];
    unfold ranksBefore in Hrank; simpl in Hrank;
    destruct Hrank as [Hlt | [_ Hle]]; vm_compute in *; discriminate.
Qed.

(** C10 as stated fails on a non-empty array in which two pairs tie on
    liquidity and one of them has no market cap: the comparison function
    returns NaN, the call returns the pair without market cap and leaves
    the array as it was, and the array is not ordered by descending
    liquidity with ties by descending market cap. No order of the two pairs
    is, so this does not depend on the engine's sorting algorithm. *)
Lemma getHighestLiquidityPair_unordered_without_market_cap :
  tiedPairs !! 7%nat = Some [ uncappedPair; ofPair (samplePair 100 5) ] /\
  comparePairs uncappedPair (ofPair (samplePair 100 5)) = Ok NaN /\
  comparePairs (ofPair (samplePair 100 5)) uncappedPair = Ok NaN /\
  getHighestLiquidityPair insertionSort threePairsData tiedPairs
  = (Ok (Some uncappedPair), tiedPairs) /\
  ~ StronglySorted ranksBefore [ uncappedPair; ofPair (samplePair 100 5) ] /\
  ~ StronglySorted ranksBefore [ ofPair (samplePair 100 5); uncappedPair ].
Proof.
  split; [reflexivity |].
  split; [vm_compute; reflexivity |].
  split; [vm_compute; reflexivity |].
  split; [vm_compute; reflexivity |].
  split; apply tied_pairs_unordered; [reflexivity | apply Permutation_swap].
Qed.

(** With any engine, the call on that array returns and leaves the array
    out of order. *)
Lemma getHighestLiquidityPair_tied_pairs_any_engine :
  forall sort : (PairObject -> PairObject -> Res num) ->
                list PairObject -> SortOutcome PairObject,
    conformingSort sort ->
    exists (first : PairObject) (sorted : list PairObject),
      getHighestLiquidityPair sort threePairsData tiedPairs
      = (Ok (Some first), <[7%nat := sorted]> tiedPairs) /\
      head sorted = Some first /\
      ~ StronglySorted ranksBefore sorted.
Proof.
  intros sort Hsort.
  pose proof (Hsort comparePairs [ uncappedPair; ofPair (samplePair 100 5) ])
    as Hspec.
  unfold getHighestLiquidityPair.
  change (tiedPairs !! ref_pairs threePairsData)
    with (Some [ uncappedPair; ofPair (samplePair 100 5) ]).
  cbv beta iota.
  destruct (sort comparePairs [ uncappedPair; ofPair (samplePair 100 5) ])
    as [sorted | e remains].
  - destruct Hspec as [Hperm _].
    destruct sorted as [| first rest].
    { apply Permutation_nil_l in Hperm. discriminate. }
    exists first, (first :: rest).
    split; [reflexivity |]. split; [reflexivity |].
    apply tied_pairs_unordered, Hperm.
  - exfalso. destruct Hspec as (a & b & Ha & Hb & Hc).
    assert (Hliq : forall p, p ∈ [ uncappedPair; ofPair (samplePair 100 5) ] ->
                             hasLiquidity p).
    { intros p Hp. repeat (apply elem_of_cons in Hp as [-> | Hp]);
        [discriminate | discriminate |]. inversion Hp. }
    destruct (comparePairs_returns a b (Hliq a Ha) (Hliq b Hb)) as (v & Hv).
    congruence.
Qed.

(** A pair without a [liquidity] object makes the call throw. *)
Example getHighestLiquidityPair_missing_liquidity :
  getHighestLiquidityPair insertionSort threePairsData
    {[ 7%nat := [ illiquidPair; ofPair (samplePair 100 5) ] ]}
  = (Throw (Exn "TypeError: Cannot read properties of undefined (reading 'usd')"),
     {[ 7%nat := [ illiquidPair; ofPair (samplePair 100 5) ] ]}).
Proof. vm_compute. reflexivity. Qed.

(* ===================================================================== *)
(** ** Further properties: the cache tiers *)
(* ===================================================================== *)

(** X1. What [setCachedData] writes under a key, [getCachedData] reads
    back under that key, at once and without any external operation,
    whether or not the cache manager works. The write leaves every other
    key of the memory tier alone; and, for a key that is one path segment,
    it leaves alone every path of the file tier but the key's own path in
    the cache directory. *)
Theorem setCachedData_then_getCachedData :
  forall (env : Env) (key : string) (v : CacheVal) (w : World),
  exists w1,
    setCachedData env key v w = (Ok tt, w1) /\
    getCachedData env key w1 = (Ok (Some v), w1) /\
    (forall other, other <> key -> cache w1 !! other = cache w !! other) /\
    (plainKey key = true ->
     forall slot,
       slot <> path_join cacheKey key ->
       store w1 !! slot = store w !! slot).
Proof.
  intros env key v w.
  destruct (setCachedData_run env key v w) as (w1 & Eset & Hcache & Hstore).
  exists w1. split; [exact Eset |]. split; [| split].
  - unfold getCachedData, try_catch, bind, cache_get, ret.
    rewrite Hcache, lookup_insert_eq. reflexivity.
  - intros other Hne. rewrite Hcache. apply lookup_insert_ne. congruence.
  - intros _ slot Hne.
    destruct Hstore as [-> | ->]; [reflexivity |].
    apply lookup_insert_ne. congruence.
Qed.

Lemma setCachedData_then_getCachedData_witness :
  exists w1,
    setCachedData securityUp ("tokenSecurity_" +:+ toLowerCase solMint)
                  (VSecurity defaultSecurity) emptyWorld
    = (Ok tt, w1) /\
    getCachedData securityUp ("tokenSecurity_" +:+ toLowerCase solMint) w1
    = (Ok (Some (VSecurity defaultSecurity)), w1) /\
    (forall other,
       other <> "tokenSecurity_" +:+ toLowerCase solMint ->
       cache w1 !! other = cache emptyWorld !! other) /\
    (forall slot,
       slot <> path_join cacheKey ("tokenSecurity_" +:+ toLowerCase solMint) ->
       store w1 !! slot = store emptyWorld !! slot).
Proof.
  destruct (setCachedData_then_getCachedData
              securityUp ("tokenSecurity_" +:+ toLowerCase solMint)
              (VSecurity defaultSecurity) emptyWorld)
    as (w1 & Eset & Eget & Hcache & Hstore).
  exists w1. split; [exact Eset |]. split; [exact Eget |].
  split; [exact Hcache |]. apply Hstore. reflexivity.
Defined.

(** X2. An entry that only the file tier holds is found there when the
    cache manager works, and is copied into the memory tier, so that the
    next lookup finds it without an external operation. When the cache
    manager fails, the lookup is a miss and not an exception. *)
Theorem getCachedData_file_tier :
  forall (env : Env) (key : string) (v : CacheVal) (w : World),
    cache w !! key = None ->
    store w !! path_join cacheKey key = Some v ->
    (cacheManagerFails env (clock w) = false ->
     exists w',
       getCachedData env key w = (Ok (Some v), w') /\
       cache w' = <[key := v]> (cache w) /\
       store w' = store w /\
       getCachedData env key w' = (Ok (Some v), w')) /\
    (cacheManagerFails env (clock w) = true ->
     getCachedData env key w = (Ok None, later 1 w)).
Proof.
  intros env key v w Hcache Hstore. split; intros Hfault.
  - eexists. split; [| split; [| split]].
    + unfold getCachedData, try_catch, bind, cache_get, readFromCache,
        try_catch, cacheManager_get, bind, tick, ret, cache_set.
      rewrite Hcache. simpl. rewrite Hfault. simpl. rewrite Hstore.
      reflexivity.
    + reflexivity.
    + reflexivity.
    + unfold getCachedData, try_catch, bind, cache_get, ret. simpl.
      rewrite lookup_insert_eq. reflexivity.
  - unfold getCachedData, try_catch, bind, cache_get, readFromCache,
      try_catch, cacheManager_get, bind, tick, ret, throw.
    rewrite Hcache. simpl. rewrite Hfault. reflexivity.
Qed.

Lemma getCachedData_file_tier_witness :
  exists w',
    getCachedData offline ("tokenSecurity_" +:+ toLowerCase solMint)
                  fileTierWorld
    = (Ok (Some (VSecurity defaultSecurity)), w') /\
    cache w'
    = <[("tokenSecurity_" +:+ toLowerCase solMint)
        := VSecurity defaultSecurity]> (cache fileTierWorld) /\
    store w' = store fileTierWorld /\
    getCachedData offline ("tokenSecurity_" +:+ toLowerCase solMint) w'
    = (Ok (Some (VSecurity defaultSecurity)), w').
Proof.
  refine (proj1 (getCachedData_file_tier
                   offline ("tokenSecurity_" +:+ toLowerCase solMint)
                   (VSecurity defaultSecurity) fileTierWorld _ _) _);
    reflexivity.
Defined.

(* ===================================================================== *)
(** ** Further properties: the retrying fetch client *)
(* ===================================================================== *)

Section RetryOutcome.

Context {B : Type}.
Variable source : nat -> Response B.

Lemma fetchWithRetry_loop_success (k : nat) :
  forall remaining lastError w b,
    (k < remaining)%nat ->
    (forall i, (i < k)%nat ->
               responseFails true (source (i + clock w)) = true) ->
    source (k + clock w) = Reply true (Some b) ->
    fetchWithRetry_loop source remaining lastError w
    = (Ok b, later (S k) w).
Proof.
  induction k as [| k IH]; intros remaining lastError w b Hlt Hfail Hok;
    (destruct remaining as [| r]; [lia |]); simpl; unfold try_catch.
  - rewrite (attempt_succeeds source w b Hok). reflexivity.
  - destruct (attempt_fails source w (Hfail 0%nat ltac:(lia))) as (e & E).
    rewrite E.
    rewrite (IH r e (later 1 w) b).
    + rewrite later_later. do 2 f_equal. lia.
    + lia.
    + intros i Hi. simpl.
      replace (i + S (clock w))%nat with (S i + clock w)%nat by lia.
      apply Hfail. lia.
    + simpl. replace (k + S (clock w))%nat with (S k + clock w)%nat by lia.
      exact Hok.
Qed.

End RetryOutcome.

(** X3. [fetchWithRetry] returns the body of the first request that
    passes, after exactly as many requests as it took: if the first [k]
    requests fail and request [k + 1] passes, for [k] below the maximum of
    three, it returns that body and has issued [k + 1] requests. *)
Theorem fetchWithRetry_returns_first_success :
  forall (B : Type) (source : nat -> Response B) (w : World) (k : nat)
         (b : B),
    (k < MAX_RETRIES)%nat ->
    (forall i, (i < k)%nat ->
               responseFails true (source (i + clock w)) = true) ->
    source (k + clock w) = Reply true (Some b) ->
    fetchWithRetry source w = (Ok b, later (S k) w).
Proof.
  intros B source w k b Hlt Hfail Hok.
  apply fetchWithRetry_loop_success; assumption.
Qed.

Lemma fetchWithRetry_returns_first_success_witness :
  fetchWithRetry flaky emptyWorld = (Ok 7%nat, later 3 emptyWorld).
Proof.
  apply (fetchWithRetry_returns_first_success nat flaky emptyWorld 2 7%nat).
  - unfold MAX_RETRIES. lia.
  - intros i Hi. simpl.
    destruct i as [| [| i]]; [reflexivity | reflexivity | lia].
  - reflexivity.
Defined.

(** X4. When all three requests fail, [fetchWithRetry] gives up after
    exactly three and throws the error of the last one, not of an earlier
    one: the rejection reason if the third request was rejected, and the
    HTTP error if it was answered with an error status. *)
Theorem fetchWithRetry_throws_last_error :
  forall (B : Type) (source : nat -> Response B) (w : World),
    responseFails true (source (clock w)) = true ->
    responseFails true (source (1 + clock w)) = true ->
    (forall e,
        source (2 + clock w) = NetworkFailure e ->
        fetchWithRetry source w = (Throw e, later 3 w)) /\
    (forall body,
        source (2 + clock w) = Reply false body ->
        fetchWithRetry source w = (Throw (Exn "HTTP error!"), later 3 w)).
Proof.
  intros B source w H0 H1.
  destruct (attempt_fails source w H0) as (e0 & E0).
  destruct (attempt_fails source (later 1 w) H1) as (e1 & E1).
  assert (Hrun : forall r,
             attempt source (later 1 (later 1 w))
             = (Throw r, later 1 (later 1 (later 1 w))) ->
             fetchWithRetry source w = (Throw r, later 3 w)).
  { intros r E2. unfold fetchWithRetry. simpl. unfold try_catch.
    rewrite E0, E1, E2. unfold throw. rewrite !later_later. reflexivity. }
  split.
  - intros e E. apply Hrun.
    unfold attempt, fetch, bind, tick, ret, throw, later. simpl in E |- *.
    rewrite E. reflexivity.
  - intros body E. apply Hrun.
    unfold attempt, fetch, bind, tick, ret, throw, later. simpl in E |- *.
    rewrite E. reflexivity.
Qed.

Lemma fetchWithRetry_throws_last_error_witness :
  fetchWithRetry failing emptyWorld
  = (Throw (Exn "ETIMEDOUT"), later 3 emptyWorld).
Proof.
  apply (proj1 (fetchWithRetry_throws_last_error
                  nat failing emptyWorld eq_refl eq_refl)).
  reflexivity.
Defined.

(* ===================================================================== *)
(** ** Further properties: the adapters *)
(* ===================================================================== *)

(** X5. A security record fetched successfully is written to the cache,
    and the next call returns the same record from the cache without any
    external operation: the world is exactly as the first call left it. *)
Theorem fetchTokenSecurity_second_call_hits_cache :
  forall (env : Env) (self : TokenProvider) (addr : string) (w : World)
         (r : SecurityReply) (d : RawSecurity),
    tokenAddress self = Some addr ->
    misses env ("tokenSecurity_" +:+ toLowerCase addr) w ->
    (forall n, birdeyeSecurity env n = Reply true (Some r)) ->
    sec_success r = true ->
    sec_data r = Some d ->
    exists w1,
      fetchTokenSecurity env self w = (Ok (securityOfRaw d), w1) /\
      cache w1 !! ("tokenSecurity_" +:+ toLowerCase addr)
      = Some (VSecurity (securityOfRaw d)) /\
      fetchTokenSecurity env self w1 = (Ok (securityOfRaw d), w1).
Proof.
  intros env self addr w r d Haddr Hmiss Hreply Hsuccess Hdata.
  destruct (misses_run env _ _ Hmiss) as (w0 & E0 & _).
  destruct (setCachedData_run env ("tokenSecurity_" +:+ toLowerCase addr)
              (VSecurity (securityOfRaw d)) (later 1 w0))
    as (w1 & Eset & Hcache & _).
  assert (Hhit : cache w1 !! ("tokenSecurity_" +:+ toLowerCase addr)
                 = Some (VSecurity (securityOfRaw d)))
    by (rewrite Hcache; apply lookup_insert_eq).
  exists w1. split; [| split; [exact Hhit |]].
  - unfold fetchTokenSecurity. rewrite Haddr. unfold bind at 1.
    rewrite E0. unfold try_catch, bind.
    rewrite (fetchWithRetry_first_try (birdeyeSecurity env) w0 r (Hreply _)).
    rewrite Hsuccess, Hdata, Eset. reflexivity.
  - unfold fetchTokenSecurity. rewrite Haddr.
    unfold bind, getCachedData, try_catch, bind, cache_get, ret.
    rewrite Hhit. reflexivity.
Qed.

Lemma fetchTokenSecurity_second_call_hits_cache_witness :
  exists w1,
    fetchTokenSecurity securityUp solProvider emptyWorld
    = (Ok (securityOfRaw creatorOnly), w1) /\
    cache w1 !! ("tokenSecurity_" +:+ toLowerCase solMint)
    = Some (VSecurity (securityOfRaw creatorOnly)) /\
    fetchTokenSecurity securityUp solProvider w1
    = (Ok (securityOfRaw creatorOnly), w1).
Proof.
  apply (fetchTokenSecurity_second_call_hits_cache
           securityUp solProvider solMint emptyWorld
           {| sec_success := true; sec_data := Some creatorOnly |}
           creatorOnly);
    first [ reflexivity | intros n; reflexivity ].
Defined.

Lemma holderOfAccount_valid (value : list RawAccount) :
  Forall validHolder (omap holderOfAccount value).
Proof.
  induction value as [| account rest IH]; simpl; [constructor |].
  unfold holderOfAccount at 1.
  destruct (acc_address account) as [a |]; [| exact IH].
  destruct (acc_amount account) as [b |]; [| exact IH].
  destruct (JS.truthy_string a) eqn:Ha; simpl; [| exact IH].
  destruct (JS.truthy_string b) eqn:Hb; simpl; [| exact IH].
  constructor; [split; assumption | exact IH].
Qed.

(** X6. After a cache miss, every holder that [fetchHolderList] returns
    has a non-empty address and a non-empty balance: accounts lacking
    either are dropped before the list is returned or cached. *)
Theorem fetchHolderList_returns_valid_holders :
  forall (env : Env) (self : TokenProvider) (w w' : World)
         (holders : list HolderData),
    misses env ("holderList_" +:+ template (tokenAddress self)) w ->
    fetchHolderList env self w = (Ok holders, w') ->
    Forall validHolder holders.
Proof.
  intros env self w w' holders Hmiss Erun.
  destruct (misses_run env _ _ Hmiss) as (w0 & E0 & _).
  unfold fetchHolderList, bind in Erun. rewrite E0 in Erun.
  unfold fetchFreshHolderList, try_catch, bind, fetch, tick, ret, throw,
    json in Erun. simpl in Erun.
  destruct (heliusRpc env (clock w0)) as [e | ok [[[value |]] |]];
    simpl in Erun.
  - injection Erun as <- _. constructor.
  - pose proof (holderOfAccount_valid value) as Hvalid.
    destruct (omap holderOfAccount value) as [| h rest] eqn:Hh.
    + injection Erun as <- _. constructor.
    + match type of Erun with
      | context [setCachedData ?e ?k ?v ?x] =>
          destruct (setCachedData_run e k v x) as (w1 & Eset & _);
          rewrite Eset in Erun
      end.
      injection Erun as <- _. exact Hvalid.
  - injection Erun as <- _. constructor.
  - injection Erun as <- _. constructor.
Qed.

Lemma fetchHolderList_returns_valid_holders_witness :
  Forall validHolder
         [ {| address := "holder1"; balance := "1000" |};
           {| address := "holder3"; balance := "3" |} ].
Proof.
  apply (fetchHolderList_returns_valid_holders
           securityUp solProvider emptyWorld
           (snd (fetchHolderList securityUp solProvider emptyWorld))).
  - reflexivity.
  - vm_compute. reflexivity.
Defined.

Section HolderSignals.

Variable toBN : string -> Res num.
Variable toFixed2 : num -> string.
Variable env : Env.
Variable self : TokenProvider.

Lemma total_fetchHolderList : total (fetchHolderList env self).
Proof.
  unfold fetchHolderList. apply total_bind; [apply total_getCachedData |].
  intros [[s | t | d | [| h l] | c] |];
    first [ apply total_ret
          | apply total_try_catch; intros; apply total_ret ].
Qed.

(** The [map] that follows the [filter] cannot fail: a holder that passed
    the filter has a balance [toBN] accepts. *)
Lemma mapM_after_filter (tokenPriceUsd : num) (hs : list HolderData)
      (w : World) :
  mapM (fun holder =>
          match toBN (balanceOrZero holder) with
          | Ok b =>
              ret {| holderAddress := address holder;
                     balanceUsd := toFixed2 (JS.mul b tokenPriceUsd) |}
          | Throw e => throw e
          end)
       (List.filter
          (fun holder =>
             match toBN (balanceOrZero holder) with
             | Ok b => JS.gt (JS.mul b tokenPriceUsd) (Num 5)
             | Throw _ => false
             end)
          hs) w
  = (Ok (omap (highValueEntry toBN toFixed2 tokenPriceUsd) hs), w).
Proof.
  induction hs as [| h rest IH]; [reflexivity |].
  cbn [List.filter omap list_omap]. unfold highValueEntry at 1.
  destruct (toBN (balanceOrZero h)) as [b | e] eqn:Hb.
  - destruct (JS.gt (JS.mul b tokenPriceUsd) (Num 5)) eqn:Hgt.
    + cbn [mapM]. unfold bind at 1. rewrite Hb. unfold ret at 1.
      unfold bind. rewrite IH. reflexivity.
    + exact IH.
  - exact IH.
Qed.

End HolderSignals.

(** X7. Without trade data or with a price of 0, [filterHighValueHolders]
    returns the empty list and fetches nothing. With a price, it returns
    exactly the fetched holders whose balance times the price exceeds 5,
    in their order, each with its address; a balance [toBN] rejects drops
    the holder and never makes the method fail. *)
Theorem filterHighValueHolders_result :
  forall (toBN : string -> Res num) (toFixed2 : num -> string) (env : Env)
         (self : TokenProvider) (w : World),
    filterHighValueHolders toBN toFixed2 env self None w = (Ok [], w) /\
    (forall t,
        JS.truthy (price t) = false ->
        filterHighValueHolders toBN toFixed2 env self (Some t) w
        = (Ok [], w)) /\
    (forall t holders w1,
        JS.truthy (price t) = true ->
        fetchHolderList env self w = (Ok holders, w1) ->
        filterHighValueHolders toBN toFixed2 env self (Some t) w
        = (Ok (omap (highValueEntry toBN toFixed2 (price t)) holders), w1)).
Proof.
  intros toBN toFixed2 env self w. split; [reflexivity |]. split.
  - intros t Hprice. unfold filterHighValueHolders, try_catch.
    rewrite Hprice. reflexivity.
  - intros t holders w1 Hprice Efetch.
    unfold filterHighValueHolders, try_catch. rewrite Hprice. cbn [negb].
    unfold bind. rewrite Efetch.
    destruct holders as [| h rest]; [reflexivity |].
    rewrite (mapM_after_filter toBN toFixed2 (price t) (h :: rest) w1).
    reflexivity.
Qed.

Lemma filterHighValueHolders_result_witness :
  JS.truthy (price risingTrade) = true /\
  exists holders w1,
    fetchHolderList securityUp solProvider emptyWorld = (Ok holders, w1) /\
    filterHighValueHolders demo_toBN demo_toFixed2 securityUp solProvider
                           (Some risingTrade) emptyWorld
    = (Ok (omap (highValueEntry demo_toBN demo_toFixed2 (price risingTrade))
                holders), w1).
Proof.
  split; [reflexivity |]. eexists _, _. split; [vm_compute; reflexivity |].
  apply (proj2 (proj2 (filterHighValueHolders_result
                         demo_toBN demo_toFixed2 securityUp solProvider
                         emptyWorld))).
  - reflexivity.
  - vm_compute; reflexivity.
Defined.

(** X8. [countHighSupplyHolders] always completes. Either it returns 0
    without touching anything (no security data, no balance, a balance or
    supply [toBN] rejects, or a total supply of zero), or it fetched the
    holder list and its count is at most the number of holders fetched. *)
Theorem countHighSupplyHolders_bounded :
  forall (toBN : string -> Res num) (env : Env) (self : TokenProvider)
         (securityData : option TokenSecurityData) (w : World),
  exists n w',
    countHighSupplyHolders toBN env self securityData w = (Ok n, w') /\
    ((n = 0%nat /\ w' = w) \/
     exists holders,
       fetchHolderList env self w = (Ok holders, w') /\
       (n <= length holders)%nat).
Proof.
  intros toBN env self securityData w.
  unfold countHighSupplyHolders, try_catch.
  destruct securityData as [s |]; [| exists 0%nat, w; split; auto].
  destruct (negb (JS.truthy_string
                    (if JS.truthy_string (ownerBalance s)
                     then ownerBalance s else creatorBalance s)));
    [exists 0%nat, w; split; auto |].
  unfold bind at 1, toBN_M.
  destruct (toBN (if JS.truthy_string (ownerBalance s)
                  then ownerBalance s else creatorBalance s)) as [b |];
    [| exists 0%nat, w; split; auto].
  unfold ret at 1. unfold bind at 1.
  destruct (toBN (if JS.truthy_string (totalSupply s)
                  then totalSupply s else "0")) as [supply |];
    [| exists 0%nat, w; split; auto].
  unfold ret at 1.
  destruct (isZero supply); [exists 0%nat, w; split; auto |].
  unfold bind.
  destruct (fetchHolderList env self w) as [[holders | e] w1] eqn:Efetch.
  - eexists _, w1. split; [reflexivity |]. right.
    exists holders. split; [reflexivity |]. apply filter_length_le.
  - destruct (total_fetchHolderList env self w) as (hs & w2 & E2).
    rewrite E2 in Efetch. discriminate.
Qed.
(* ===================================================================== *)
(** ** Further properties: which cache entries the provider writes *)
(* ===================================================================== *)

Lemma agree_outside_refl keys slots w : agree_outside keys slots w w.
Proof. split; intros; reflexivity. Qed.

Lemma agree_outside_trans keys slots w1 w2 w3 :
  agree_outside keys slots w1 w2 -> agree_outside keys slots w2 w3 ->
  agree_outside keys slots w1 w3.
Proof.
  intros [A1 B1] [A2 B2]. split.
  - intros k Hk. rewrite (A2 k Hk). apply A1, Hk.
  - intros s Hs. rewrite (B2 s Hs). apply B1, Hs.
Qed.

Section WritesWithin.

Context {A B : Type}.
Variable keys slots : list string.

Lemma ww_ret (a : A) : writes_within keys slots (ret a).
Proof. intros w r w' E. injection E as _ <-. apply agree_outside_refl. Qed.

Lemma ww_throw (e : exn) : writes_within keys slots (@throw A e).
Proof. intros w r w' E. injection E as _ <-. apply agree_outside_refl. Qed.

Lemma ww_bind (m : M A) (k : A -> M B) :
  writes_within keys slots m -> (forall a, writes_within keys slots (k a)) ->
  writes_within keys slots (bind m k).
Proof.
  intros Hm Hk w r w'. unfold bind.
  destruct (m w) as [[a | e] w1] eqn:E; intros E2.
  - eapply agree_outside_trans; [eapply Hm, E | eapply Hk, E2].
  - injection E2 as _ <-. eapply Hm, E.
Qed.

Lemma ww_try_catch (m : M A) (h : exn -> M A) :
  writes_within keys slots m -> (forall e, writes_within keys slots (h e)) ->
  writes_within keys slots (try_catch m h).
Proof.
  intros Hm Hh w r w'. unfold try_catch.
  destruct (m w) as [[a | e] w1] eqn:E; intros E2.
  - injection E2 as _ <-. eapply Hm, E.
  - eapply agree_outside_trans; [eapply Hm, E | eapply Hh, E2].
Qed.

(** A step that changes neither tier. *)
Lemma ww_quiet (f : M A) :
  (forall w, cache (snd (f w)) = cache w /\ store (snd (f w)) = store w) ->
  writes_within keys slots f.
Proof.
  intros H w r w' E. destruct (H w) as [Hc Hs]. rewrite E in Hc, Hs.
  simpl in Hc, Hs. split; intros; [rewrite Hc | rewrite Hs]; reflexivity.
Qed.

End WritesWithin.

Section WritesOfCaches.

Variable env : Env.
Variable keys slots : list string.

Lemma ww_cache_set key v :
  In key keys -> writes_within keys slots (cache_set key v).
Proof.
  intros Hin w r w' E. injection E as _ <-. split; simpl.
  - intros k Hk. apply lookup_insert_ne. intros ->. contradiction.
  - reflexivity.
Qed.

(** The file tier is written at the key's path in the cache directory. *)
Lemma ww_writeToCache key v :
  In (path_join cacheKey key) slots ->
  writes_within keys slots (writeToCache env key v).
Proof.
  intros Hin w r w'.
  unfold writeToCache, try_catch, cacheManager_set, bind, tick, ret, throw.
  simpl. destruct (cacheManagerFails env (clock w)); simpl;
    intros E; injection E as _ <-; split; simpl; try reflexivity.
  intros s Hs. apply lookup_insert_ne. intros <-. contradiction.
Qed.

Lemma ww_setCachedData key v :
  In key keys -> In (path_join cacheKey key) slots ->
  writes_within keys slots (setCachedData env key v).
Proof.
  intros Hkey Hslot. unfold setCachedData.
  apply ww_try_catch; [| intros; apply ww_ret].
  apply ww_bind; [apply ww_cache_set, Hkey |].
  intros _. apply ww_writeToCache, Hslot.
Qed.

Lemma ww_readFromCache key : writes_within keys slots (readFromCache env key).
Proof.
  unfold readFromCache. apply ww_quiet. intros w.
  unfold try_catch, cacheManager_get, bind, tick, ret, throw. simpl.
  destruct (cacheManagerFails env (clock w)); simpl; split; reflexivity.
Qed.

(** A lookup writes the memory tier only. *)
Lemma ww_getCachedData key :
  In key keys -> writes_within keys slots (getCachedData env key).
Proof.
  intros Hin. unfold getCachedData.
  apply ww_try_catch; [| intros; apply ww_ret].
  apply ww_bind; [apply ww_quiet; intros w; split; reflexivity |].
  intros [v |]; [apply ww_ret |].
  apply ww_bind; [apply ww_readFromCache |].
  intros [v |]; [| apply ww_ret].
  apply ww_bind; [apply ww_cache_set, Hin | intros; apply ww_ret].
Qed.

Lemma ww_fetch {B} (source : nat -> Response B) :
  writes_within keys slots (fetch source).
Proof. apply ww_quiet. intros w. split; reflexivity. Qed.

Lemma ww_fetchWithRetry {B} (source : nat -> Response B) :
  writes_within keys slots (fetchWithRetry source).
Proof.
  unfold fetchWithRetry. generalize (Exn "undefined"), MAX_RETRIES.
  intros e n. revert e.
  induction n as [| k IH]; intros e; simpl; [apply ww_throw |].
  apply ww_try_catch; [| exact IH].
  unfold attempt. apply ww_bind; [apply ww_fetch |].
  intros [e0 | ok [b |]]; [apply ww_throw | |];
    destruct ok; simpl; first [apply ww_ret | apply ww_throw].
Qed.

(** [cacheManager.delete] removes the entry at the very path it is given. *)
Lemma ww_cacheManager_delete path :
  In path slots -> writes_within keys slots (cacheManager_delete env path).
Proof.
  intros Hin w r w'. unfold cacheManager_delete, bind, tick, throw. simpl.
  destruct (cacheManagerFails env (clock w)); simpl;
    intros E; injection E as _ <-; split; simpl; try reflexivity.
  intros s Hs. apply lookup_delete_ne. intros <-. contradiction.
Qed.

End WritesOfCaches.

(** Walk through a method body, as [keeps_walk] does for the recommender
    table. *)
Ltac ww_walk :=
  first [ apply ww_ret
        | apply ww_throw
        | apply ww_fetch
        | apply ww_fetchWithRetry
        | apply ww_bind; [| intros ?]
        | apply ww_try_catch; [| intros ?]
        | match goal with
          | |- writes_within _ _ (match ?x with _ => _ end) => destruct x
          | |- writes_within _ _ (if ?b then _ else _) => destruct b
          | |- writes_within _ _ (let _ := _ in _) => cbv zeta
          end ].

Section WritesOfProvider.

Variable toBN : string -> Res num.
Variable toFixed2 : num -> string.
Variable env : Env.
Variable self : TokenProvider.
Variable addr : string.
Hypothesis Haddr : tokenAddress self = Some addr.

Lemma ww_fetchTokenSecurity keys slots :
  In ("tokenSecurity_" +:+ toLowerCase addr) keys ->
  In (path_join cacheKey ("tokenSecurity_" +:+ toLowerCase addr)) slots ->
  writes_within keys slots (fetchTokenSecurity env self).
Proof using Haddr.
  intros Hkey Hslot. unfold fetchTokenSecurity. rewrite Haddr.
  repeat first [ apply ww_getCachedData; exact Hkey
               | apply ww_setCachedData; [exact Hkey | exact Hslot]
               | ww_walk ].
Qed.

Lemma ww_fetchTokenCodex keys slots :
  In ("token_" +:+ addr) keys ->
  In (path_join cacheKey ("token_" +:+ addr)) slots ->
  writes_within keys slots (fetchTokenCodex env self).
Proof using Haddr.
  intros Hkey Hslot. unfold fetchTokenCodex, json. rewrite Haddr.
  repeat first [ apply ww_getCachedData; exact Hkey
               | apply ww_setCachedData; [exact Hkey | exact Hslot]
               | ww_walk ].
Qed.

Lemma ww_fetchTokenTradeData keys slots :
  In ("tokenTradeData_" +:+ addr) keys ->
  In (path_join cacheKey ("tokenTradeData_" +:+ addr)) slots ->
  writes_within keys slots (fetchTokenTradeData env self).
Proof using Haddr.
  intros Hkey Hslot. unfold fetchTokenTradeData, fetchFreshTradeData.
  rewrite Haddr. cbn [template].
  repeat first [ apply ww_getCachedData; exact Hkey
               | apply ww_setCachedData; [exact Hkey | exact Hslot]
               | ww_walk ].
Qed.

Lemma ww_fetchDexScreenerData keys slots :
  In ("dexScreenerData_" +:+ addr) keys ->
  In (path_join cacheKey ("dexScreenerData_" +:+ addr)) slots ->
  writes_within keys slots (fetchDexScreenerData env self).
Proof using Haddr.
  intros Hkey Hslot.
  unfold fetchDexScreenerData, fetchFreshDexData, solanaPairsOf, json.
  rewrite Haddr. cbn [template].
  repeat first [ apply ww_getCachedData; exact Hkey
               | apply ww_setCachedData; [exact Hkey | exact Hslot]
               | ww_walk ].
Qed.

Lemma ww_fetchHolderList keys slots :
  In ("holderList_" +:+ addr) keys ->
  In (path_join cacheKey ("holderList_" +:+ addr)) slots ->
  writes_within keys slots (fetchHolderList env self).
Proof using Haddr.
  intros Hkey Hslot. unfold fetchHolderList, fetchFreshHolderList, json.
  rewrite Haddr. cbn [template].
  repeat first [ apply ww_getCachedData; exact Hkey
               | apply ww_setCachedData; [exact Hkey | exact Hslot]
               | ww_walk ].
Qed.

Lemma ww_mapM {X Y} keys slots (f : X -> M Y) (l : list X) :
  (forall x, writes_within keys slots (f x)) ->
  writes_within keys slots (mapM f l).
Proof.
  intros Hf. induction l as [| x rest IH]; simpl;
    repeat first [ apply Hf | apply IH | ww_walk ].
Qed.

Lemma ww_tokenCodexOrDefault keys slots :
  In ("token_" +:+ addr) keys ->
  In (path_join cacheKey ("token_" +:+ addr)) slots ->
  writes_within keys slots (tokenCodexOrDefault env self).
Proof using Haddr.
  intros Hkey Hslot. unfold tokenCodexOrDefault.
  apply ww_try_catch; [| intros; apply ww_ret].
  apply ww_fetchTokenCodex; assumption.
Qed.

(** The retry after invalid trade data deletes the file-tier entry at the
    bare key, not at the key's path in the cache directory. *)
Lemma ww_tradeDataOrDefault keys slots :
  In ("tokenTradeData_" +:+ addr) keys ->
  In (path_join cacheKey ("tokenTradeData_" +:+ addr)) slots ->
  In ("tokenTradeData_" +:+ addr) slots ->
  writes_within keys slots (tradeDataOrDefault env self).
Proof using Haddr.
  intros Hkey Hslot Hbare. unfold tradeDataOrDefault.
  apply ww_try_catch; [| intros; apply ww_ret].
  apply ww_bind; [apply ww_fetchTokenTradeData; assumption |].
  intros tradeData. destruct (invalidTradeData tradeData); [| apply ww_ret].
  cbv zeta. rewrite Haddr. cbn [template].
  apply ww_bind; [apply ww_cacheManager_delete, Hbare |].
  intros _. apply ww_fetchTokenTradeData; assumption.
Qed.

Lemma ww_dexDataOrDefault keys slots :
  In ("dexScreenerData_" +:+ addr) keys ->
  In (path_join cacheKey ("dexScreenerData_" +:+ addr)) slots ->
  writes_within keys slots (dexDataOrDefault env self).
Proof using Haddr.
  intros Hkey Hslot. unfold dexDataOrDefault.
  apply ww_try_catch; [| intros; apply ww_ret].
  apply ww_bind; [apply ww_fetchDexScreenerData; assumption |].
  intros d. destruct (pairs d); apply ww_ret.
Qed.

Lemma ww_filterHighValueHolders keys slots tradeData :
  In ("holderList_" +:+ addr) keys ->
  In (path_join cacheKey ("holderList_" +:+ addr)) slots ->
  writes_within keys slots
                (filterHighValueHolders toBN toFixed2 env self tradeData).
Proof using Haddr.
  intros Hkey Hslot. unfold filterHighValueHolders.
  repeat first [ apply ww_fetchHolderList; [exact Hkey | exact Hslot]
               | apply ww_mapM; intros ? | ww_walk ].
Qed.

Lemma ww_countHighSupplyHolders keys slots securityData :
  In ("holderList_" +:+ addr) keys ->
  In (path_join cacheKey ("holderList_" +:+ addr)) slots ->
  writes_within keys slots
                (countHighSupplyHolders toBN env self securityData).
Proof using Haddr.
  intros Hkey Hslot. unfold countHighSupplyHolders, toBN_M.
  repeat first [ apply ww_fetchHolderList; [exact Hkey | exact Hslot]
               | ww_walk ].
Qed.

Lemma ww_getProcessedTokenData :
  writes_within (providerKeys addr) (providerSlots addr)
                (getProcessedTokenData toBN toFixed2 env self).
Proof using Haddr.
  unfold getProcessedTokenData, providerKeys, providerSlots.
  cbn [map app].
  apply ww_try_catch; [| intros; apply ww_throw].
  apply ww_bind;
    [apply ww_fetchTokenSecurity; simpl; tauto | intros ?].
  apply ww_bind;
    [apply ww_tokenCodexOrDefault; simpl; tauto | intros ?].
  apply ww_bind;
    [apply ww_tradeDataOrDefault; simpl; tauto | intros ?].
  apply ww_bind;
    [apply ww_dexDataOrDefault; simpl; tauto | intros ?].
  cbv zeta.
  apply ww_bind;
    [apply ww_filterHighValueHolders; simpl; tauto | intros ?].
  apply ww_bind;
    [apply ww_countHighSupplyHolders; simpl; tauto | intros ?].
  apply ww_ret.
Qed.

End WritesOfProvider.

(** X9. What a provider for the token at [addr] (an address without a
    path separator, so that each key is one path segment) changes in the
    caches, whatever [getProcessedTokenData] does and however it ends: in
    the memory tier, entries under its own five keys only (security, codex,
    trade data, DEX pairs, holder list); in the file tier, entries at the
    paths of those five keys in the cache directory and at the bare
    trade-data key, which the retry after invalid trade data deletes. Every
    other memory key and every other file-tier path holds afterwards what
    it held before, and the recommender table is unchanged. *)
Theorem getProcessedTokenData_writes_own_keys_only :
  forall (toBN : string -> Res num) (toFixed2 : num -> string) (env : Env)
         (self : TokenProvider) (addr : string) (w w' : World)
         (r : Res ProcessedTokenData),
    tokenAddress self = Some addr ->
    hasSeparator addr = false ->
    getProcessedTokenData toBN toFixed2 env self w = (r, w') ->
    recommenders w' = recommenders w /\
    (forall key,
       ~ In key (providerKeys addr) -> cache w' !! key = cache w !! key) /\
    (forall slot,
       ~ In slot (providerSlots addr) -> store w' !! slot = store w !! slot).
Proof.
  intros toBN toFixed2 env self addr w w' r Haddr _ Erun. split.
  - eapply keeps_getProcessedTokenData, Erun.
  - eapply ww_getProcessedTokenData; eassumption.
Qed.

Lemma getProcessedTokenData_writes_own_keys_only_witness :
  recommenders
    (snd (getProcessedTokenData demo_toBN demo_toFixed2 securityUp
                                solProvider emptyWorld))
  = recommenders emptyWorld /\
  (forall key,
     ~ In key (providerKeys solMint) ->
     cache (snd (getProcessedTokenData demo_toBN demo_toFixed2 securityUp
                                       solProvider emptyWorld)) !! key
     = cache emptyWorld !! key) /\
  (forall slot,
     ~ In slot (providerSlots solMint) ->
     store (snd (getProcessedTokenData demo_toBN demo_toFixed2 securityUp
                                       solProvider emptyWorld)) !! slot
     = store emptyWorld !! slot).
Proof.
  apply (getProcessedTokenData_writes_own_keys_only
           demo_toBN demo_toFixed2 securityUp solProvider solMint emptyWorld
           _ (fst (getProcessedTokenData demo_toBN demo_toFixed2 securityUp
                                         solProvider emptyWorld))).
  - reflexivity.
  - reflexivity.
  - apply surjective_pairing.
Defined.

(** The file-tier entry at the bare trade-data key is indeed lost: without
    an API key the trade data is invalid, and the retry deletes it. *)
Example getProcessedTokenData_deletes_bare_trade_key :
  store bareKeyWorld !! ("tokenTradeData_" +:+ solMint)
  = Some (VSecurity defaultSecurity) /\
  store (snd (getProcessedTokenData demo_toBN demo_toFixed2 noApiKey
                                    solProvider bareKeyWorld))
    !! ("tokenTradeData_" +:+ solMint)
  = None.
Proof. split; vm_compute; reflexivity. Qed.

(* ===================================================================== *)
(** ** Further properties: the snapshot of [getProcessedTokenData] *)
(* ===================================================================== *)

Lemma absent_misses env key w : absent key w -> misses env key w.
Proof.
  intros [Hc Hs]. unfold misses.
  unfold getCachedData, try_catch, bind, cache_get. rewrite Hc.
  destruct (readFromCache_run env key w) as (r & Hr & [-> | ->]);
    rewrite Hr; [reflexivity |]. rewrite Hs. reflexivity.
Qed.

Lemma absent_agree_outside keys slots key w w' :
  ~ In key keys -> ~ In (path_join cacheKey key) slots ->
  agree_outside keys slots w w' -> absent key w -> absent key w'.
Proof.
  intros Hk Hs [Hcache Hstore] [Hc Hf].
  split; [rewrite (Hcache key Hk) | rewrite (Hstore _ Hs)]; assumption.
Qed.

Lemma absent_same_caches key w w' :
  same_caches w w' -> absent key w -> absent key w'.
Proof. intros [Hc Hs] [Ac As]. split; congruence. Qed.

Section Snapshot.

Variable toBN : string -> Res num.
Variable toFixed2 : num -> string.
Variable env : Env.
Variable self : TokenProvider.

(** The six steps of a run that completes, and the record it builds. *)
Lemma getProcessedTokenData_steps w data w' :
  getProcessedTokenData toBN toFixed2 env self w = (Ok data, w') ->
  exists sec codex td dex hv n w1 w2 w3 w4 w5,
    fetchTokenSecurity env self w = (Ok sec, w1) /\
    tokenCodexOrDefault env self w1 = (Ok codex, w2) /\
    tradeDataOrDefault env self w2 = (Ok td, w3) /\
    dexDataOrDefault env self w3 = (Ok dex, w4) /\
    filterHighValueHolders toBN toFixed2 env self td w4 = (Ok hv, w5) /\
    countHighSupplyHolders toBN env self (Some sec) w5 = (Ok n, w') /\
    data = {| security := sec;
              tradeData := td;
              holderDistributionTrend := analyzeHolderDistribution td;
              highValueHolders := hv;
              recentTrades := checkRecentTrades td;
              highSupplyHoldersCount := n;
              dexScreenerData := dex;
              isDexScreenerListed :=
                match pairs dex with [] => false | _ :: _ => true end;
              isDexScreenerPaid := existsb boosted (pairs dex);
              tokenCodex := codex |}.
Proof.
  unfold getProcessedTokenData, try_catch.
  match goal with
  | |- (let (_, _) := ?body w in _) = _ -> _ =>
      destruct (body w) as [[a | e] w0] eqn:Eb
  end; [| discriminate].
  intros E. injection E as -> ->.
  apply bind_Ok in Eb. destruct Eb as (sec & w1 & E1 & Eb).
  apply bind_Ok in Eb. destruct Eb as (codex & w2 & E2 & Eb).
  apply bind_Ok in Eb. destruct Eb as (td & w3 & E3 & Eb).
  apply bind_Ok in Eb. destruct Eb as (dex & w4 & E4 & Eb).
  cbv zeta in Eb.
  apply bind_Ok in Eb. destruct Eb as (hv & w5 & E5 & Eb).
  apply bind_Ok in Eb. destruct Eb as (n & w6 & E6 & Eb).
  injection Eb as <- <-.
  exists sec, codex, td, dex, hv, n, w1, w2, w3, w4, w5.
  repeat split; assumption.
Qed.

Lemma dexDataOrDefault_empty w d w' :
  dexDataOrDefault env self w = (Ok d, w') ->
  pairs d = [] -> d = emptyDexData.
Proof.
  unfold dexDataOrDefault, try_catch, bind.
  destruct (fetchDexScreenerData env self w) as [[d0 | e] w1].
  - destruct (pairs d0) eqn:Hp; intros E; injection E as <- _; intros Hd.
    + reflexivity.
    + congruence.
  - intros E _. injection E as <- _. reflexivity.
Qed.

Lemma filterHighValueHolders_nonempty td w hv w' :
  filterHighValueHolders toBN toFixed2 env self td w = (Ok hv, w') ->
  hv <> [] ->
  exists t, td = Some t /\ JS.truthy (price t) = true.
Proof.
  unfold filterHighValueHolders, try_catch.
  destruct td as [t |]; [| intros E; injection E as <- _; congruence].
  destruct (JS.truthy (price t)) eqn:Hp.
  - intros _ _. exists t. split; [reflexivity | exact Hp].
  - simpl. intros E. injection E as <- _. congruence.
Qed.

Lemma countHighSupplyHolders_positive s w n w' :
  countHighSupplyHolders toBN env self (Some s) w = (Ok n, w') ->
  (0 < n)%nat ->
  JS.truthy_string (ownerBalance s) = true \/
  JS.truthy_string (creatorBalance s) = true.
Proof.
  unfold countHighSupplyHolders, try_catch.
  destruct (JS.truthy_string (ownerBalance s)) eqn:Ho; [now left |].
  destruct (JS.truthy_string (creatorBalance s)) eqn:Hc; [now right |].
  simpl. intros E Hn. injection E as <- _. lia.
Qed.

Lemma analyzeHolderDistribution_labels td :
  analyzeHolderDistribution td = "increasing" \/
  analyzeHolderDistribution td = "decreasing" \/
  analyzeHolderDistribution td = "stable".
Proof.
  unfold analyzeHolderDistribution.
  destruct (omap validChange _) as [| c cs]; [auto |]. cbv zeta.
  destruct (JS.gt _ _); [auto |]. destruct (JS.lt _ _); auto.
Qed.

End Snapshot.

(** X10. What every snapshot satisfies, whatever the sources answered: a
    token flagged as paid is flagged as listed; a token not flagged as
    listed carries exactly the empty DEX record; the holder trend is one of
    the three labels; high-value holders are reported only with trade data
    that has a price; without trade data the trend is stable, no recent
    trades are reported and no holder is listed; and a positive count of
    high-supply holders needs an owner or creator balance in the security
    data. *)
Theorem getProcessedTokenData_snapshot_invariants :
  forall (toBN : string -> Res num) (toFixed2 : num -> string) (env : Env)
         (self : TokenProvider) (w w' : World) (data : ProcessedTokenData),
    getProcessedTokenData toBN toFixed2 env self w = (Ok data, w') ->
    (isDexScreenerPaid data = true -> isDexScreenerListed data = true) /\
    (isDexScreenerListed data = false ->
     dexScreenerData data = emptyDexData) /\
    (holderDistributionTrend data = "increasing" \/
     holderDistributionTrend data = "decreasing" \/
     holderDistributionTrend data = "stable") /\
    (highValueHolders data <> [] ->
     exists t, tradeData data = Some t /\ JS.truthy (price t) = true) /\
    (tradeData data = None ->
     holderDistributionTrend data = "stable" /\
     recentTrades data = false /\
     highValueHolders data = []) /\
    ((0 < highSupplyHoldersCount data)%nat ->
     JS.truthy_string (ownerBalance (security data)) = true \/
     JS.truthy_string (creatorBalance (security data)) = true).
Proof.
  intros toBN toFixed2 env self w w' data Erun.
  apply getProcessedTokenData_steps in Erun.
  destruct Erun
    as (sec & codex & td & dex & hv & n & w1 & w2 & w3 & w4 & w5
        & E1 & E2 & E3 & E4 & E5 & E6 & ->).
  cbn [security tradeData holderDistributionTrend highValueHolders
       recentTrades highSupplyHoldersCount dexScreenerData
       isDexScreenerListed isDexScreenerPaid].
  repeat apply conj.
  - destruct (pairs dex); [discriminate | reflexivity].
  - intros Hl. eapply dexDataOrDefault_empty; [exact E4 |].
    destruct (pairs dex); [reflexivity | discriminate].
  - apply analyzeHolderDistribution_labels.
  - intros Hhv. eapply filterHighValueHolders_nonempty; eassumption.
  - intros ->. repeat split.
    unfold filterHighValueHolders, try_catch in E5. simpl in E5.
    injection E5 as <- _. reflexivity.
  - intros Hn. eapply countHighSupplyHolders_positive; eassumption.
Qed.

Lemma getProcessedTokenData_snapshot_invariants_witness :
  exists data w',
    getProcessedTokenData demo_toBN demo_toFixed2 securityUp solProvider
                          emptyWorld = (Ok data, w') /\
    (isDexScreenerListed data = false ->
     dexScreenerData data = emptyDexData) /\
    ((0 < highSupplyHoldersCount data)%nat ->
     JS.truthy_string (ownerBalance (security data)) = true \/
     JS.truthy_string (creatorBalance (security data)) = true).
Proof.
  eexists _, _. split; [vm_compute; reflexivity |].
  edestruct (getProcessedTokenData_snapshot_invariants
               demo_toBN demo_toFixed2 securityUp solProvider emptyWorld)
    as (_ & Hd & _ & _ & _ & Hn); [vm_compute; reflexivity |].
  split; [exact Hd | exact Hn].
Defined.

(* ===================================================================== *)
(** ** Further properties: one source missing *)
(* ===================================================================== *)

(** Two of the provider's keys, and their paths, differ in their prefix. *)
Ltac distinct_paths :=
  let H := fresh "H" in
  unfold path_join, cacheKey; simpl; intros H;
  repeat (destruct H as [H | H]; [discriminate H |]);
  exact H.

Section OneSourceMissing.

Variable toBN : string -> Res num.
Variable toFixed2 : num -> string.
Variable env : Env.
Variable self : TokenProvider.
Variable addr : string.
Hypothesis Haddr : tokenAddress self = Some addr.

(** The first two steps of the aggregator write no trade-data entry, the
    first three no DEX entry, the first four no holder-list entry. *)
Lemma absent_after_codex key w sec w1 codex w2 :
  ~ In key [ "tokenSecurity_" +:+ toLowerCase addr; "token_" +:+ addr ] ->
  ~ In (path_join cacheKey key)
       [ path_join cacheKey ("tokenSecurity_" +:+ toLowerCase addr);
         path_join cacheKey ("token_" +:+ addr) ] ->
  fetchTokenSecurity env self w = (Ok sec, w1) ->
  tokenCodexOrDefault env self w1 = (Ok codex, w2) ->
  absent key w -> absent key w2.
Proof using Haddr.
  intros Hk Hs E1 E2. apply absent_agree_outside with (1 := Hk) (2 := Hs).
  eapply agree_outside_trans.
  - eapply (ww_fetchTokenSecurity env self addr Haddr); [| | exact E1];
      simpl; auto.
  - eapply (ww_tokenCodexOrDefault env self addr Haddr); [| | exact E2];
      simpl; auto.
Qed.

Lemma absent_after_trade key w td w' :
  ~ In key [ "tokenTradeData_" +:+ addr ] ->
  ~ In (path_join cacheKey key)
       [ path_join cacheKey ("tokenTradeData_" +:+ addr);
         "tokenTradeData_" +:+ addr ] ->
  tradeDataOrDefault env self w = (Ok td, w') ->
  absent key w -> absent key w'.
Proof using Haddr.
  intros Hk Hs E. apply absent_agree_outside with (1 := Hk) (2 := Hs).
  eapply (ww_tradeDataOrDefault env self addr Haddr); [| | | exact E];
    simpl; auto.
Qed.

Lemma absent_after_dex key w d w' :
  ~ In key [ "dexScreenerData_" +:+ addr ] ->
  ~ In (path_join cacheKey key)
       [ path_join cacheKey ("dexScreenerData_" +:+ addr) ] ->
  dexDataOrDefault env self w = (Ok d, w') ->
  absent key w -> absent key w'.
Proof using Haddr.
  intros Hk Hs E. apply absent_agree_outside with (1 := Hk) (2 := Hs).
  eapply (ww_dexDataOrDefault env self addr Haddr); [| | exact E];
    simpl; auto.
Qed.

(** With no holder to be had, neither holder signal reports one. *)
Lemma filterHighValueHolders_no_holders td w w1 hv w' :
  fetchHolderList env self w = (Ok [], w1) ->
  filterHighValueHolders toBN toFixed2 env self td w = (Ok hv, w') ->
  hv = [] /\ (w' = w \/ w' = w1).
Proof.
  intros Ef. unfold filterHighValueHolders, try_catch.
  destruct td as [t |]; [| intros E; injection E as <- <-; auto].
  destruct (negb (JS.truthy (price t)));
    [intros E; injection E as <- <-; auto |].
  unfold bind. rewrite Ef. intros E. injection E as <- <-. auto.
Qed.

Lemma countHighSupplyHolders_no_holders sd w w1 n w' :
  fetchHolderList env self w = (Ok [], w1) ->
  countHighSupplyHolders toBN env self sd w = (Ok n, w') ->
  n = 0%nat.
Proof.
  intros Ef. unfold countHighSupplyHolders, try_catch.
  destruct sd as [s |]; [| intros E; injection E as <- _; reflexivity].
  destruct (negb _); [intros E; injection E as <- _; reflexivity |].
  unfold bind at 1, toBN_M.
  destruct (toBN _) as [b |]; simpl;
    [| intros E; injection E as <- _; reflexivity].
  unfold bind at 1.
  destruct (toBN _) as [supply |]; simpl;
    [| intros E; injection E as <- _; reflexivity].
  destruct (isZero supply); [intros E; injection E as <- _; reflexivity |].
  unfold bind. rewrite Ef. simpl. intros E. injection E as <- _.
  reflexivity.
Qed.

Lemma holders_unavailable_run w data w' :
  alwaysFails false (heliusRpc env) ->
  absent ("holderList_" +:+ addr) w ->
  getProcessedTokenData toBN toFixed2 env self w = (Ok data, w') ->
  highValueHolders data = [] /\
  highSupplyHoldersCount data = 0%nat /\
  absent ("holderList_" +:+ addr) w'.
Proof using Haddr.
  intros Hdown Habs Erun.
  apply getProcessedTokenData_steps in Erun.
  destruct Erun
    as (sec & codex & td & dex & hv & n & w1 & w2 & w3 & w4 & w5
        & E1 & E2 & E3 & E4 & E5 & E6 & ->).
  cbn [highValueHolders highSupplyHoldersCount].
  assert (Habs4 : absent ("holderList_" +:+ addr) w4).
  { eapply absent_after_dex; [| | exact E4 |]; [distinct_paths ..|].
    eapply absent_after_trade; [| | exact E3 |]; [distinct_paths ..|].
    eapply absent_after_codex; [| | exact E1 | exact E2 | exact Habs];
      distinct_paths. }
  assert (Hfetch : forall v, absent ("holderList_" +:+ addr) v ->
                     exists v', fetchHolderList env self v = (Ok [], v') /\
                                absent ("holderList_" +:+ addr) v').
  { intros v Hv.
    destruct (fetchHolderList_source_down env self v Hdown) as (v' & Ev & Hs).
    - rewrite Haddr. apply absent_misses, Hv.
    - exists v'. split; [exact Ev |]. eapply absent_same_caches; eassumption. }
  destruct (Hfetch w4 Habs4) as (v4 & Ef4 & Hv4).
  destruct (filterHighValueHolders_no_holders _ _ _ _ _ Ef4 E5) as [-> Hw5].
  assert (Habs5 : absent ("holderList_" +:+ addr) w5)
    by (destruct Hw5 as [-> | ->]; assumption).
  destruct (Hfetch w5 Habs5) as (v5 & Ef5 & Hv5).
  split; [reflexivity |]. split.
  - eapply countHighSupplyHolders_no_holders; eassumption.
  - unfold countHighSupplyHolders, try_catch in E6.
    destruct (negb _) in E6; [injection E6 as _ <-; exact Habs5 |].
    revert E6. unfold bind at 1, toBN_M.
    destruct (toBN _) as [b |]; simpl;
      [| intros E; injection E as _ <-; exact Habs5].
    unfold bind at 1.
    destruct (toBN _) as [supply |]; simpl;
      [| intros E; injection E as _ <-; exact Habs5].
    destruct (isZero supply); [intros E; injection E as _ <-; exact Habs5 |].
    unfold bind. rewrite Ef5. simpl. intros E. injection E as _ <-.
    exact Hv5.
Qed.

Lemma no_pairs_run w data w' :
  (alwaysFails false (dexScreener env) \/
   exists ok d,
     (forall n, dexScreener env n = Reply ok (Some d)) /\
     (dx_pairs d = None \/ dx_pairs d = Some [])) ->
  absent ("dexScreenerData_" +:+ addr) w ->
  getProcessedTokenData toBN toFixed2 env self w = (Ok data, w') ->
  dexScreenerData data = emptyDexData /\
  isDexScreenerListed data = false /\
  isDexScreenerPaid data = false.
Proof using Haddr.
  intros Hsrc Habs Erun.
  apply getProcessedTokenData_steps in Erun.
  destruct Erun
    as (sec & codex & td & dex & hv & n & w1 & w2 & w3 & w4 & w5
        & E1 & E2 & E3 & E4 & E5 & E6 & ->).
  cbn [dexScreenerData isDexScreenerListed isDexScreenerPaid].
  assert (Habs3 : absent ("dexScreenerData_" +:+ addr) w3).
  { eapply absent_after_trade; [| | exact E3 |]; [distinct_paths ..|].
    eapply absent_after_codex; [| | exact E1 | exact E2 | exact Habs];
      distinct_paths. }
  assert (Hmiss : misses env ("dexScreenerData_"
                              +:+ template (tokenAddress self)) w3)
    by (rewrite Haddr; apply absent_misses, Habs3).
  assert (Ed : exists v, fetchDexScreenerData env self w3
                         = (Ok emptyDexData, v)).
  { destruct Hsrc as [Hdown | (ok & d & Hreply & Hnone)].
    - destruct (fetchDexScreenerData_source_down env self w3 Hdown Hmiss)
        as (v & Ev & _). exists v. exact Ev.
    - destruct (fetchDexScreenerData_no_pairs env self w3 ok d
                  Hreply Hnone Hmiss) as (v & Ev & _).
      exists v. exact Ev. }
  destruct Ed as (v & Ev).
  unfold dexDataOrDefault, try_catch, bind in E4. rewrite Ev in E4.
  simpl in E4. injection E4 as <- _. repeat split.
Qed.

Lemma no_api_key_run w data w' :
  BIRDEYE_API_KEY env = None ->
  (forall n, cacheManagerFails env n = false) ->
  absent ("tokenTradeData_" +:+ addr) w ->
  getProcessedTokenData toBN toFixed2 env self w = (Ok data, w') ->
  tradeData data = None.
Proof using Haddr.
  intros Hkey Hcm Habs Erun.
  apply getProcessedTokenData_steps in Erun.
  destruct Erun
    as (sec & codex & td & dex & hv & n & w1 & w2 & w3 & w4 & w5
        & E1 & E2 & E3 & E4 & E5 & E6 & ->).
  cbn [tradeData].
  assert (Habs2 : absent ("tokenTradeData_" +:+ addr) w2).
  { eapply absent_after_codex; [| | exact E1 | exact E2 | exact Habs];
      distinct_paths. }
  assert (Hnull : forall v, absent ("tokenTradeData_" +:+ addr) v ->
                    fetchTokenTradeData env self v = (Ok None, later 1 v)).
  { intros v [Hc Hs].
    unfold fetchTokenTradeData, fetchFreshTradeData. rewrite Haddr, Hkey.
    cbn [template].
    unfold bind, getCachedData, try_catch, cache_get, readFromCache,
      cacheManager_get, try_catch, bind, tick, ret.
    rewrite Hc. simpl. rewrite Hcm. simpl. rewrite Hs. reflexivity. }
  unfold tradeDataOrDefault, try_catch, bind in E3.
  rewrite (Hnull w2 Habs2) in E3. cbn [invalidTradeData] in E3.
  rewrite Haddr in E3. cbn [template] in E3.
  unfold cacheManager_delete, bind, tick in E3. simpl in E3.
  rewrite Hcm in E3.
  match type of E3 with
  | context [fetchTokenTradeData env self ?v] =>
      rewrite (Hnull v) in E3
  end.
  - injection E3 as <- _. reflexivity.
  - destruct Habs2 as [Hc Hs]. split; simpl; [exact Hc |].
    rewrite lookup_delete_ne; [exact Hs |].
    unfold path_join, cacheKey. simpl. discriminate.
Qed.

End OneSourceMissing.

(** X11. When the ledger RPC is down and no holder list is cached, the
    snapshot is still produced, it reports no high-value holder and a
    high-supply count of 0, and no holder list is cached by the run. *)
Theorem getProcessedTokenData_without_holders :
  forall (toBN : string -> Res num) (toFixed2 : num -> string) (env : Env)
         (self : TokenProvider) (addr : string) (w : World),
    tokenAddress self = Some addr ->
    alwaysFails false (heliusRpc env) ->
    absent ("holderList_" +:+ addr) w ->
    exists data w',
      getProcessedTokenData toBN toFixed2 env self w = (Ok data, w') /\
      highValueHolders data = [] /\
      highSupplyHoldersCount data = 0%nat /\
      absent ("holderList_" +:+ addr) w'.
Proof.
  intros toBN toFixed2 env self addr w Haddr Hdown Habs.
  destruct (total_getProcessedTokenData toBN toFixed2 env self addr Haddr w)
    as (data & w' & E).
  exists data, w'. split; [exact E |].
  eapply holders_unavailable_run; eassumption.
Qed.

Lemma getProcessedTokenData_without_holders_witness :
  exists data w',
    getProcessedTokenData demo_toBN demo_toFixed2 offline solProvider
                          emptyWorld = (Ok data, w') /\
    highValueHolders data = [] /\
    highSupplyHoldersCount data = 0%nat /\
    absent ("holderList_" +:+ solMint) w'.
Proof.
  apply (getProcessedTokenData_without_holders
           demo_toBN demo_toFixed2 offline solProvider solMint emptyWorld).
  - reflexivity.
  - intros n. reflexivity.
  - split; reflexivity.
Defined.

(** X12. When the DEX source is down, or answers without pairs, and no
    DEX record is cached, the snapshot is still produced and it carries the
    empty DEX record, flagged neither as listed nor as paid. *)
Theorem getProcessedTokenData_without_pairs :
  forall (toBN : string -> Res num) (toFixed2 : num -> string) (env : Env)
         (self : TokenProvider) (addr : string) (w : World),
    tokenAddress self = Some addr ->
    (alwaysFails false (dexScreener env) \/
     exists ok d,
       (forall n, dexScreener env n = Reply ok (Some d)) /\
       (dx_pairs d = None \/ dx_pairs d = Some [])) ->
    absent ("dexScreenerData_" +:+ addr) w ->
    exists data w',
      getProcessedTokenData toBN toFixed2 env self w = (Ok data, w') /\
      dexScreenerData data = emptyDexData /\
      isDexScreenerListed data = false /\
      isDexScreenerPaid data = false.
Proof.
  intros toBN toFixed2 env self addr w Haddr Hsrc Habs.
  destruct (total_getProcessedTokenData toBN toFixed2 env self addr Haddr w)
    as (data & w' & E).
  exists data, w'. split; [exact E |].
  eapply no_pairs_run; eassumption.
Qed.

Lemma getProcessedTokenData_without_pairs_witness :
  exists data w',
    getProcessedTokenData demo_toBN demo_toFixed2 securityUp solProvider
                          emptyWorld = (Ok data, w') /\
    dexScreenerData data = emptyDexData /\
    isDexScreenerListed data = false /\
    isDexScreenerPaid data = false.
Proof.
  apply (getProcessedTokenData_without_pairs
           demo_toBN demo_toFixed2 securityUp solProvider solMint emptyWorld).
  - reflexivity.
  - left. intros n. reflexivity.
  - split; reflexivity.
Defined.

(** X13. Without an API key for the overview source, with a working
    cache manager and no trade data cached, the snapshot is produced with
    [tradeData] null; the three volume checks of the trust-score manager,
    which read a field of [tradeData] unguarded, then all throw the
    TypeError. *)
Theorem volume_checks_throw_without_api_key :
  forall (toBN : string -> Res num) (toFixed2 : num -> string) (env : Env)
         (self : TokenProvider) (addr mint : string) (w : World),
    tokenAddress self = Some addr ->
    BIRDEYE_API_KEY env = None ->
    (forall n, cacheManagerFails env n = false) ->
    absent ("tokenTradeData_" +:+ addr) w ->
    exists data w',
      getProcessedTokenData toBN toFixed2 env self w = (Ok data, w') /\
      tradeData data = None /\
      suspiciousVolume toBN toFixed2 env self mint w
      = (Throw (Exn "TypeError: Cannot read properties of null"), w') /\
      sustainedGrowth toBN toFixed2 env self mint w
      = (Throw (Exn "TypeError: Cannot read properties of null"), w') /\
      isRapidDump toBN toFixed2 env self mint w
      = (Throw (Exn "TypeError: Cannot read properties of null"), w').
Proof.
  intros toBN toFixed2 env self addr mint w Haddr Hkey Hcm Habs.
  destruct (total_getProcessedTokenData toBN toFixed2 env self addr Haddr w)
    as (data & w' & E).
  exists data, w'. split; [exact E |].
  assert (Hnull : tradeData data = None)
    by (eapply no_api_key_run; eassumption).
  split; [exact Hnull |].
  unfold suspiciousVolume, sustainedGrowth, isRapidDump, bind, tradeDataOf.
  rewrite E, Hnull. repeat split.
Qed.

Lemma volume_checks_throw_without_api_key_witness :
  exists data w',
    getProcessedTokenData demo_toBN demo_toFixed2 noApiKey solProvider
                          emptyWorld = (Ok data, w') /\
    tradeData data = None /\
    suspiciousVolume demo_toBN demo_toFixed2 noApiKey solProvider solMint
                     emptyWorld
    = (Throw (Exn "TypeError: Cannot read properties of null"), w') /\
    sustainedGrowth demo_toBN demo_toFixed2 noApiKey solProvider solMint
                    emptyWorld
    = (Throw (Exn "TypeError: Cannot read properties of null"), w') /\
    isRapidDump demo_toBN demo_toFixed2 noApiKey solProvider solMint
                emptyWorld
    = (Throw (Exn "TypeError: Cannot read properties of null"), w').
Proof.
  apply (volume_checks_throw_without_api_key
           demo_toBN demo_toFixed2 noApiKey solProvider solMint solMint
           emptyWorld).
  - reflexivity.
  - reflexivity.
  - intros n. reflexivity.
  - split; reflexivity.
Defined.

(* ===================================================================== *)
(** ** Further properties: gem score, gem criteria and risk label *)
(* ===================================================================== *)

Section GemCriteriaFacts.

Lemma ratio_ge_1 (x t : Q) :
  (0 < t)%Q -> (1 <= (x + - 0) / (t + - 0))%Q <-> (t <= x)%Q.
Proof.
  intros Ht. split; intros H.
  - assert (E : (x == (x + - 0) / (t + - 0) * t)%Q) by (field; lra).
    apply Qle_trans with (1 * t)%Q; [lra |].
    rewrite E. apply Qmult_le_compat_r; lra.
  - apply Qle_shift_div_l; lra.
Qed.

Lemma rounded_percent_bounds (s : Q) :
  (0 <= s <= 1)%Q -> (0 <= Qfloor (s * 100 + (1 # 2)) <= 100)%Z.
Proof.
  intros Hs. split.
  - apply Z.le_trans with (Qfloor 0); [discriminate |].
    apply Qfloor_resp_le. lra.
  - apply Z.le_trans with (Qfloor (100 + (1 # 2))); [| discriminate].
    apply Qfloor_resp_le. lra.
Qed.

(** A signal above its threshold normalizes to 1. *)
Lemma normalize_above (v : num) (t : Q) :
  (0 < t)%Q -> JS.gt v (Num t) = true ->
  normalize v (Num 0) (Num t) = Num 1.
Proof.
  intros Ht Hgt. unfold normalize.
  destruct v as [x | | |]; try discriminate; simpl;
    rewrite (sgn_positive t Ht); simpl; [| reflexivity].
  unfold JS.gt, JS.lt in Hgt. apply negb_true_iff in Hgt.
  assert (H1 : Qle_bool 1 ((x + - 0) / (t + - 0)) = true).
  { apply Qle_bool_iff. apply (proj2 (ratio_ge_1 x t Ht)).
    apply not_true_iff_false in Hgt. rewrite Qle_bool_iff in Hgt. lra. }
  rewrite H1. reflexivity.
Qed.

(** A signal that is a number and is not below its threshold normalizes
    to 1 as well. *)
Lemma normalize_not_below (v : num) (t : Q) :
  (0 < t)%Q -> JS.isNaN v = false -> JS.lt v (Num t) = false ->
  normalize v (Num 0) (Num t) = Num 1.
Proof.
  intros Ht Hnan Hlt. unfold normalize.
  destruct v as [x | | |]; try discriminate; simpl;
    rewrite (sgn_positive t Ht); simpl; [| reflexivity].
  unfold JS.lt in Hlt. apply negb_false_iff in Hlt.
  apply Qle_bool_iff in Hlt.
  assert (H1 : Qle_bool 1 ((x + - 0) / (t + - 0)) = true)
    by (apply Qle_bool_iff; apply (proj2 (ratio_ge_1 x t Ht)); exact Hlt).
  rewrite H1. reflexivity.
Qed.

(** A signal below its threshold normalizes below 1. *)
Lemma normalize_below (v : num) (t : Q) :
  (0 < t)%Q -> JS.lt v (Num t) = true ->
  exists c, normalize v (Num 0) (Num t) = Num c /\ (0 <= c < 1)%Q.
Proof.
  intros Ht Hlt. unfold normalize.
  destruct v as [x | | |]; try discriminate; simpl;
    rewrite (sgn_positive t Ht); simpl;
    [| exists 0%Q; split; [reflexivity | lra]].
  unfold JS.lt in Hlt. apply negb_true_iff in Hlt.
  apply not_true_iff_false in Hlt. rewrite Qle_bool_iff in Hlt.
  destruct (Qle_bool 1 ((x + - 0) / (t + - 0))) eqn:H1.
  - apply Qle_bool_iff in H1. apply (proj1 (ratio_ge_1 x t Ht)) in H1. lra.
  - apply not_true_iff_false in H1. rewrite Qle_bool_iff in H1. simpl.
    destruct (Qle_bool 0 ((x + - 0) / (t + - 0))) eqn:H0; simpl.
    + apply Qle_bool_iff in H0. eexists. split; [reflexivity | lra].
    + exists 0%Q. split; [reflexivity | lra].
Qed.

Lemma abs_not_NaN (v : num) : JS.isNaN v = false -> JS.isNaN (JS.abs v) = false.
Proof. destruct v; simpl; congruence. Qed.

(** Which labels [evaluateGemCriteria] returns. *)
Lemma evaluateGemCriteria_labels token criteria :
  (In "High Liquidity" (evaluateGemCriteria token criteria) <->
   JS.gt (liquidityUSD token) (liquidityThreshold criteria) = true) /\
  (In "High Volume" (evaluateGemCriteria token criteria) <->
   JS.gt (volume24hUSD token) (volumeThreshold criteria) = true) /\
  (In "Recent Price Surge" (evaluateGemCriteria token criteria) <->
   JS.gt (JS.abs (priceChange24h_percent token))
         (priceSurgeThreshold criteria) = true) /\
  (In "Low Market Cap" (evaluateGemCriteria token criteria) <->
   JS.lt (gem_marketCap token) (maxMarketCap criteria) = true).
Proof.
  unfold evaluateGemCriteria.
  destruct (JS.gt (liquidityUSD token) _), (JS.gt (volume24hUSD token) _),
    (JS.gt (JS.abs _) _), (JS.lt (gem_marketCap token) _); simpl;
    repeat split; intros H; try reflexivity; try discriminate;
    repeat (destruct H as [H | H]; try discriminate H); auto 6.
Qed.

Lemma evaluateGemCriteria_all_four token criteria :
  length (evaluateGemCriteria token criteria) = 4%nat ->
  JS.gt (liquidityUSD token) (liquidityThreshold criteria) = true /\
  JS.gt (volume24hUSD token) (volumeThreshold criteria) = true /\
  JS.gt (JS.abs (priceChange24h_percent token))
        (priceSurgeThreshold criteria) = true /\
  JS.lt (gem_marketCap token) (maxMarketCap criteria) = true.
Proof.
  unfold evaluateGemCriteria.
  destruct (JS.gt (liquidityUSD token) _), (JS.gt (volume24hUSD token) _),
    (JS.gt (JS.abs _) _), (JS.lt (gem_marketCap token) _); simpl;
    intros H; try discriminate H; repeat split.
Qed.

End GemCriteriaFacts.

(** X14. For criteria whose four thresholds are finite and strictly
    positive and a token whose four signals are numbers (infinite ones
    included), the gem score is an integer between 0 and 100. *)
Theorem calculateGemScore_range :
  forall (criteria : GemCriteria) (tv tl tp tm : Q) (token : GemToken),
    volumeThreshold criteria = Num tv -> (0 < tv)%Q ->
    liquidityThreshold criteria = Num tl -> (0 < tl)%Q ->
    priceSurgeThreshold criteria = Num tp -> (0 < tp)%Q ->
    maxMarketCap criteria = Num tm -> (0 < tm)%Q ->
    JS.isNaN (volume24hUSD token) = false ->
    JS.isNaN (liquidityUSD token) = false ->
    JS.isNaN (priceChange24h_percent token) = false ->
    JS.isNaN (gem_marketCap token) = false ->
    exists z : Z,
      calculateGemScore token criteria = Num (inject_Z z) /\
      (0 <= z <= 100)%Z.
Proof.
  intros criteria tv tl tp tm token Hv Htv Hl Htl Hp Htp Hm Htm
         Nv Nl Np Nm.
  destruct (normalize_in_unit_interval _ tv Htv Nv) as (cv & Ev & Bv).
  destruct (normalize_in_unit_interval _ tl Htl Nl) as (cl & El & Bl).
  destruct (normalize_in_unit_interval _ tp Htp (abs_not_NaN _ Np))
    as (cp & Ep & Bp).
  destruct (normalize_in_unit_interval _ tm Htm Nm) as (cm & Em & Bm).
  rewrite <- Hv in Ev. rewrite <- Hl in El. rewrite <- Hp in Ep.
  rewrite <- Hm in Em.
  rewrite (calculateGemScore_of_normalized token criteria cv cl cp cm
             Ev El Ep Em).
  eexists. split; [reflexivity |].
  apply rounded_percent_bounds. lra.
Qed.

Lemma calculateGemScore_range_witness :
  exists z : Z,
    calculateGemScore busyToken usualCriteria = Num (inject_Z z) /\
    (0 <= z <= 100)%Z.
Proof.
  apply (calculateGemScore_range
           usualCriteria 100000 50000 20 1000000 busyToken);
    first [ reflexivity | lra ].
Defined.

(** X15. Under the same conditions the score and the criteria labels
    agree at 80: a token that [evaluateGemCriteria] matches on all four
    criteria scores at least 80, and a score above 80 is reached only by a
    token labelled Low Market Cap. *)
Theorem calculateGemScore_agrees_with_criteria :
  forall (criteria : GemCriteria) (tv tl tp tm : Q) (token : GemToken),
    volumeThreshold criteria = Num tv -> (0 < tv)%Q ->
    liquidityThreshold criteria = Num tl -> (0 < tl)%Q ->
    priceSurgeThreshold criteria = Num tp -> (0 < tp)%Q ->
    maxMarketCap criteria = Num tm -> (0 < tm)%Q ->
    JS.isNaN (volume24hUSD token) = false ->
    JS.isNaN (liquidityUSD token) = false ->
    JS.isNaN (priceChange24h_percent token) = false ->
    JS.isNaN (gem_marketCap token) = false ->
    (length (evaluateGemCriteria token criteria) = 4%nat ->
     JS.le (Num 80) (calculateGemScore token criteria) = true) /\
    (JS.gt (calculateGemScore token criteria) (Num 80) = true ->
     In "Low Market Cap" (evaluateGemCriteria token criteria)).
Proof.
  intros criteria tv tl tp tm token Hv Htv Hl Htl Hp Htp Hm Htm
         Nv Nl Np Nm.
  split.
  - intros Hall.
    destruct (evaluateGemCriteria_all_four token criteria Hall)
      as (Gl & Gv & Gp & Gm).
    rewrite Hl in Gl. rewrite Hv in Gv. rewrite Hp in Gp. rewrite Hm in Gm.
    pose proof (normalize_above _ tl Htl Gl) as El.
    pose proof (normalize_above _ tv Htv Gv) as Ev.
    pose proof (normalize_above _ tp Htp Gp) as Ep.
    destruct (normalize_below _ tm Htm Gm) as (cm & Em & Bm).
    rewrite <- Hv in Ev. rewrite <- Hl in El. rewrite <- Hp in Ep.
    rewrite <- Hm in Em.
    rewrite (calculateGemScore_of_normalized token criteria 1 1 1 cm
               Ev El Ep Em).
    unfold JS.le. apply Qle_bool_iff.
    change 80%Q with (inject_Z 80). rewrite <- Zle_Qle.
    apply Z.le_trans with (Qfloor (80 + (1 # 2))); [discriminate |].
    apply Qfloor_resp_le. lra.
  - intros Hscore.
    apply (proj2 (proj2 (proj2 (evaluateGemCriteria_labels token criteria)))).
    destruct (JS.lt (gem_marketCap token) (maxMarketCap criteria)) eqn:Hlt;
      [reflexivity | exfalso].
    rewrite Hm in Hlt.
    pose proof (normalize_not_below _ tm Htm Nm Hlt) as Em.
    destruct (normalize_in_unit_interval _ tv Htv Nv) as (cv & Ev & Bv).
    destruct (normalize_in_unit_interval _ tl Htl Nl) as (cl & El & Bl).
    destruct (normalize_in_unit_interval _ tp Htp (abs_not_NaN _ Np))
      as (cp & Ep & Bp).
    rewrite <- Hv in Ev. rewrite <- Hl in El. rewrite <- Hp in Ep.
    rewrite <- Hm in Em.
    rewrite (calculateGemScore_of_normalized token criteria cv cl cp 1
               Ev El Ep Em) in Hscore.
    unfold JS.gt, JS.lt in Hscore. apply negb_true_iff in Hscore.
    apply not_true_iff_false in Hscore. apply Hscore.
    apply Qle_bool_iff. change 80%Q with (inject_Z 80). rewrite <- Zle_Qle.
    apply Z.le_trans with (Qfloor (80 + (1 # 2))); [| discriminate].
    apply Qfloor_resp_le. lra.
Qed.

Lemma calculateGemScore_agrees_with_criteria_witness :
  length (evaluateGemCriteria gemToken usualCriteria) = 4%nat /\
  JS.le (Num 80) (calculateGemScore gemToken usualCriteria) = true /\
  JS.gt (calculateGemScore gemToken usualCriteria) (Num 80) = true /\
  In "Low Market Cap" (evaluateGemCriteria gemToken usualCriteria).
Proof.
  destruct (calculateGemScore_agrees_with_criteria
              usualCriteria 100000 50000 20 1000000 gemToken)
    as [Hall Hlow]; try first [ reflexivity | lra ].
  split; [reflexivity |]. split; [apply Hall; reflexivity |].
  split; [reflexivity |]. apply Hlow. reflexivity.
Defined.

(** X16. The risk level [assessRisk] prints and the reason
    [getRiskReason] appends to it always agree, so that the sentence is one
    of exactly three: High with extreme volatility when the absolute 24h
    price change exceeds 50, otherwise Moderate with low liquidity when
    the liquidity is below half its threshold, otherwise Low with stable
    market conditions (which is also what a token whose signals are NaN
    gets). *)
Theorem assessRisk_level_agrees_with_reason :
  forall (token : GemToken) (criteria : GemCriteria),
    (JS.gt (JS.abs (priceChange24h_percent token)) (Num 50) = true /\
     assessRisk token criteria
     = "**Risk:** High, due to recent extreme volatility") \/
    (JS.gt (JS.abs (priceChange24h_percent token)) (Num 50) = false /\
     JS.lt (liquidityUSD token)
           (JS.div (liquidityThreshold criteria) (Num 2)) = true /\
     assessRisk token criteria = "**Risk:** Moderate, due to low liquidity") \/
    (JS.gt (JS.abs (priceChange24h_percent token)) (Num 50) = false /\
     JS.lt (liquidityUSD token)
           (JS.div (liquidityThreshold criteria) (Num 2)) = false /\
     assessRisk token criteria
     = "**Risk:** Low, due to stable market conditions").
Proof.
  intros token criteria. unfold assessRisk, getRiskReason.
  destruct (JS.gt (JS.abs (priceChange24h_percent token)) (Num 50));
    [left; split; reflexivity | right].
  destruct (JS.lt (liquidityUSD token)
                  (JS.div (liquidityThreshold criteria) (Num 2)));
    [left | right]; repeat split.
Qed.

(* ===================================================================== *)
(** ** Further properties of the trust-score manager *)
(* ===================================================================== *)

Lemma calculateRiskScore_value (tp : TokenPerformance) :
  exists r, calculateRiskScore tp = Num r /\ (0 <= r <= 30)%Q /\
            (rugPull tp = true \/ tp_isScam tp = true -> (10 <= r)%Q).
Proof.
  unfold calculateRiskScore.
  destruct (rugPull tp), (tp_isScam tp), (rapidDump tp),
    (tp_suspiciousVolume tp); simpl;
    eexists; (split; [reflexivity |]); (split; [lra |]);
    intros [H | H]; first [discriminate H | lra].
Qed.

(** X17. For a token performance and a recommender average that are
    finite, the trust score is half the sum of the risk score, which lies
    between 0 and 30, and the distance of the token's 24h price change from
    the recommender's average. It is therefore never negative, never below
    half the risk score, and at least 5 for a token flagged as rug pull or
    scam: the flags raise the score. *)
Theorem calculateTrustScore_bounds :
  forall (tp : TokenPerformance) (rm : RecommenderMetrics) (p a : Q),
    priceChange24h tp = Num p ->
    avgTokenPerformance rm = Num a ->
    exists r q,
      calculateRiskScore tp = Num r /\ (0 <= r <= 30)%Q /\
      calculateTrustScore tp rm = Num q /\
      (q == (r + Qabs (p - a)) / 2)%Q /\
      (r / 2 <= q)%Q /\
      (rugPull tp = true \/ tp_isScam tp = true -> (5 <= q)%Q).
Proof.
  intros tp rm p a Hp Ha.
  destruct (calculateRiskScore_value tp) as (r & Er & Br & Bflag).
  exists r, ((r + Qabs (p + - a)) / 2)%Q.
  split; [exact Er |]. split; [exact Br |]. split.
  - unfold calculateTrustScore, calculateConsistencyScore.
    rewrite Er, Hp, Ha. reflexivity.
  - pose proof (Qabs_nonneg (p + - a)) as Habs.
    split; [reflexivity |]. split.
    + unfold Qdiv. apply Qmult_le_compat_r; [lra | discriminate].
    + intros Hflag. specialize (Bflag Hflag).
      apply Qle_shift_div_l; [reflexivity | lra].
Qed.

Lemma calculateTrustScore_bounds_witness :
  exists r q,
    calculateRiskScore samplePerformance = Num r /\ (0 <= r <= 30)%Q /\
    calculateTrustScore samplePerformance veteran = Num q /\
    (q == (r + Qabs (20 - 12)) / 2)%Q /\
    (r / 2 <= q)%Q /\
    (rugPull samplePerformance = true \/ tp_isScam samplePerformance = true ->
     (5 <= q)%Q).
Proof.
  apply (calculateTrustScore_bounds samplePerformance veteran 20 12);
    reflexivity.
Defined.

(** X18. For a known recommender whose counters are finite,
    [updateRecommenderMetrics] completes and replaces that recommender's
    row only: the number of recommendations grows by one, the successful
    ones by one unless the token was a rug pull, and the new average is the
    running mean (new average times new count equals old average times old
    count plus the token's 24h price change). Every other row and both
    cache tiers are left as they were. For an unknown recommender the
    method throws the TypeError and changes nothing. *)
Theorem updateRecommenderMetrics_bookkeeping :
  forall (env : Env) (id wallet : string) (tp : TokenPerformance)
         (w : World),
    (forall (m : RecommenderMetrics) (n s a p : Q),
        recommenders w !! id = Some m ->
        totalRecommendations m = Num n -> (0 <= n)%Q ->
        successfulRecs m = Num s ->
        avgTokenPerformance m = Num a ->
        priceChange24h tp = Num p ->
        exists w' m' a',
          updateRecommenderMetrics env id tp wallet w = (Ok tt, w') /\
          recommenders w' !! id = Some m' /\
          recommenderId m' = id /\
          totalRecommendations m' = Num (n + 1) /\
          successfulRecs m' = Num (if rugPull tp then s else s + 1) /\
          avgTokenPerformance m' = Num a' /\
          (a' * (n + 1) == a * n + p)%Q /\
          (forall other, other <> id ->
                         recommenders w' !! other = recommenders w !! other) /\
          same_caches w w') /\
    (recommenders w !! id = None ->
     updateRecommenderMetrics env id tp wallet w
     = (Throw (Exn "TypeError: Cannot read properties of null"), w)).
Proof.
  intros env id wallet tp w. split.
  - intros m n s a p Hm Hn Hn0 Hs Ha Hp.
    destruct (updateRecommenderMetrics_run env id tp wallet w m Hm)
      as (balance & E).
    eexists _, _, ((a * n + p) / (n + 1))%Q.
    split; [exact E |]. cbn [recommenders cache store].
    split; [apply lookup_insert_eq |].
    cbn [recommenderId totalRecommendations successfulRecs
         avgTokenPerformance].
    rewrite Hn, Hs, Ha, Hp. repeat apply conj.
    + reflexivity.
    + reflexivity.
    + destruct (rugPull tp); reflexivity.
    + unfold JS.div, JS.add, JS.mul, JS.sgn.
      assert (Hpos : (0 < n + 1)%Q) by lra.
      rewrite (proj1 (Qgt_alt _ _) Hpos). reflexivity.
    + field. lra.
    + intros other Hother. apply lookup_insert_ne. congruence.
    + reflexivity.
    + reflexivity.
  - intros Hnone.
    unfold updateRecommenderMetrics, bind, db_getRecommenderMetrics.
    rewrite Hnone. reflexivity.
Qed.

Lemma updateRecommenderMetrics_bookkeeping_witness :
  (exists w' m' a',
      updateRecommenderMetrics fortyDaysLater "veteran" samplePerformance
                               "wallet" veteranWorld = (Ok tt, w') /\
      recommenders w' !! "veteran" = Some m' /\
      recommenderId m' = "veteran" /\
      totalRecommendations m' = Num (4 + 1) /\
      successfulRecs m'
      = Num (if rugPull samplePerformance then 3 else 3 + 1) /\
      avgTokenPerformance m' = Num a' /\
      (a' * (4 + 1) == 12 * 4 + 20)%Q /\
      (forall other, other <> "veteran" ->
                     recommenders w' !! other
                     = recommenders veteranWorld !! other) /\
      same_caches veteranWorld w') /\
  updateRecommenderMetrics fortyDaysLater "stranger" samplePerformance
                           "wallet" veteranWorld
  = (Throw (Exn "TypeError: Cannot read properties of null"), veteranWorld).
Proof.
  split.
  - apply (proj1 (updateRecommenderMetrics_bookkeeping
                    fortyDaysLater "veteran" "wallet" samplePerformance
                    veteranWorld) veteran 4%Q 3%Q 12%Q 20%Q);
      first [ reflexivity | lra ].
  - apply (proj2 (updateRecommenderMetrics_bookkeeping
                    fortyDaysLater "stranger" "wallet" samplePerformance
                    veteranWorld)).
    reflexivity.
Defined.

Section TrustScoreFrame.

Variable toBN : string -> Res num.
Variable toFixed2 : num -> string.
Variable env : Env.
Variable tokenProvider : TokenProvider.

Lemma keeps_generateTrustScore tokenAddress id wallet :
  keeps_recommenders
    (generateTrustScore toBN toFixed2 env tokenProvider tokenAddress id
                        wallet).
Proof.
  unfold generateTrustScore, isRapidDump, sustainedGrowth, suspiciousVolume,
    tradeDataOf, getRecommenederBalance, newDate, db_getRecommenderMetrics,
    tick.
  repeat first [ apply keeps_getProcessedTokenData | keeps_walk ].
Qed.

(** Without a row for the recommender [generateTrustScore] cannot
    complete: it reads a field of the missing row. *)
Lemma generateTrustScore_unknown tokenAddress id wallet w :
  recommenders w !! id = None ->
  exists e w',
    generateTrustScore toBN toFixed2 env tokenProvider tokenAddress id wallet
                       w = (Throw e, w').
Proof.
  intros Hnone. unfold generateTrustScore. unfold bind at 1.
  destruct (getProcessedTokenData toBN toFixed2 env tokenProvider w)
    as [[pd | e] w1] eqn:E1; [| eexists _, _; reflexivity].
  apply (keeps_getProcessedTokenData toBN toFixed2 env tokenProvider) in E1.
  unfold bind at 1, db_getRecommenderMetrics. rewrite E1, Hnone.
  unfold bind at 1.
  destruct (isRapidDump toBN toFixed2 env tokenProvider tokenAddress w1)
    as [[rd | e] w2]; [| eexists _, _; reflexivity].
  unfold bind at 1.
  destruct (sustainedGrowth toBN toFixed2 env tokenProvider tokenAddress w2)
    as [[sg | e] w3]; [| eexists _, _; reflexivity].
  unfold bind at 1.
  destruct (suspiciousVolume toBN toFixed2 env tokenProvider tokenAddress w3)
    as [[sv | e] w4]; [| eexists _, _; reflexivity].
  unfold bind at 1.
  destruct (getRecommenederBalance env wallet w4)
    as [[bal | e] w5]; eexists _, _; reflexivity.
Qed.

Lemma generateTrustScore_result tokenAddress id wallet w tp rm w' :
  generateTrustScore toBN toFixed2 env tokenProvider tokenAddress id wallet w
  = (Ok (tp, rm), w') ->
  exists m,
    recommenders w !! id = Some m /\
    recommenderId rm = id /\
    trustScore rm = trustScore m /\
    totalRecommendations rm = totalRecommendations m /\
    successfulRecs rm = successfulRecs m /\
    avgTokenPerformance rm = avgTokenPerformance m /\
    riskScore rm = riskScore m /\
    consistencyScore rm = consistencyScore m /\
    rugPull tp = false.
Proof.
  intros E.
  destruct (recommenders w !! id) as [m |] eqn:Hm.
  - exists m. split; [reflexivity |].
    unfold generateTrustScore in E.
    apply bind_Ok in E as (pd & w1 & E1 & E).
    apply bind_Ok in E as (found & w2 & E2 & E).
    apply bind_Ok in E as (rd & w3 & E3 & E).
    apply bind_Ok in E as (sg & w4 & E4 & E).
    apply bind_Ok in E as (sv & w5 & E5 & E).
    apply bind_Ok in E as (bal & w6 & E6 & E).
    apply (keeps_getProcessedTokenData toBN toFixed2 env tokenProvider) in E1.
    unfold db_getRecommenderMetrics in E2. injection E2 as <- <-.
    rewrite E1, Hm in E.
    apply bind_Ok in E as (now & w7 & E7 & E).
    apply bind_Ok in E as (t & w8 & E8 & E).
    apply bind_Ok in E as (d1 & w9 & E9 & E).
    apply bind_Ok in E as (d2 & w10 & E10 & E).
    unfold ret in E. injection E as <- <- <-.
    repeat split; reflexivity.
  - destruct (generateTrustScore_unknown tokenAddress id wallet w Hm)
      as (e & w2 & E2).
    rewrite E2 in E. discriminate.
Qed.

End TrustScoreFrame.

(** X19. [generateTrustScore] only reads the recommender table: however
    it ends, the table is as it was. When it returns, the recommender has a
    row, the returned metrics carry that row's trust score, counters,
    average, risk and consistency scores unchanged, and the token
    performance is not marked as a rug pull; for a recommender without a
    row it always throws. *)
Theorem generateTrustScore_reads_only :
  forall (toBN : string -> Res num) (toFixed2 : num -> string) (env : Env)
         (tokenProvider : TokenProvider) (mint id wallet : string)
         (w w' : World) (r : Res (TokenPerformance * RecommenderMetrics)),
    generateTrustScore toBN toFixed2 env tokenProvider mint id wallet w
    = (r, w') ->
    recommenders w' = recommenders w /\
    (forall tp rm,
        r = Ok (tp, rm) ->
        exists m,
          recommenders w !! id = Some m /\
          recommenderId rm = id /\
          trustScore rm = trustScore m /\
          totalRecommendations rm = totalRecommendations m /\
          successfulRecs rm = successfulRecs m /\
          avgTokenPerformance rm = avgTokenPerformance m /\
          riskScore rm = riskScore m /\
          consistencyScore rm = consistencyScore m /\
          rugPull tp = false) /\
    (recommenders w !! id = None -> exists e, r = Throw e).
Proof.
  intros toBN toFixed2 env tokenProvider mint id wallet w w' r E.
  split; [eapply keeps_generateTrustScore, E |]. split.
  - intros tp rm ->. eapply generateTrustScore_result, E.
  - intros Hnone.
    destruct (generateTrustScore_unknown toBN toFixed2 env tokenProvider
                mint id wallet w Hnone) as (e & w2 & E2).
    rewrite E2 in E. injection E as <- _. exists e. reflexivity.
Qed.

Lemma generateTrustScore_reads_only_witness :
  exists r w',
    generateTrustScore demo_toBN demo_toFixed2 fortyDaysLater solProvider
                       solMint "veteran" "wallet" veteranTradingWorld
    = (r, w') /\
    recommenders w' = recommenders veteranTradingWorld /\
    (recommenders veteranTradingWorld !! "veteran" = None ->
     exists e, r = Throw e).
Proof.
  eexists _, _. split; [apply surjective_pairing |].
  destruct (generateTrustScore_reads_only
              demo_toBN demo_toFixed2 fortyDaysLater solProvider
              solMint "veteran" "wallet" veteranTradingWorld _ _
              (surjective_pairing _)) as (Hkeep & _ & Hnone).
  split; [exact Hkeep | exact Hnone].
Defined.

(** X20. [createTradeInBe] never throws and never touches the caches or
    the recommender table. It makes at most [retries] requests, each one
    after a rejected one, and stops at the first request that the backend
    answers, whatever the HTTP status of the answer; when every request is
    rejected it returns all the same after [retries] of them. *)
Theorem createTradeInBe_gives_up_silently :
  forall (B : Type) (backend : nat -> Response B) (retries : nat)
         (w : World),
  exists k,
    createTradeInBe backend retries w = (Ok tt, later k w) /\
    (k <= retries)%nat /\
    (forall j, (S j < k)%nat ->
               exists e, backend (j + clock w)%nat = NetworkFailure e) /\
    ((exists j ok body,
         k = S j /\ backend (j + clock w)%nat = Reply ok body) \/
     (k = retries /\
      forall j, (j < retries)%nat ->
                exists e, backend (j + clock w)%nat = NetworkFailure e)).
Proof.
  intros B backend retries. unfold createTradeInBe.
  induction retries as [| n IH]; intros w.
  - exists 0%nat. split; [destruct w; reflexivity |].
    split; [lia |]. split; [intros j Hj; lia |].
    right. split; [reflexivity | intros j Hj; lia].
  - assert (Estep : createTradeInBe_loop backend (S n) w
                    = match backend (clock w) with
                      | NetworkFailure _ =>
                          createTradeInBe_loop backend n (later 1 w)
                      | Reply _ _ => (Ok tt, later 1 w)
                      end).
    { simpl. unfold fetch, try_catch, bind, tick, ret, throw. simpl.
      destruct (backend (clock w)); reflexivity. }
    rewrite Estep. clear Estep.
    destruct (backend (clock w)) as [e | ok body] eqn:Eb.
    + destruct (IH (later 1 w)) as (k & Ek & Hk & Hbefore & Hlast).
      rewrite Ek. exists (S k). rewrite later_later.
      replace (k + 1)%nat with (S k) by lia.
      split; [reflexivity |]. split; [lia |]. split.
      * intros [| j] Hj; [exists e; exact Eb |].
        destruct (Hbefore j ltac:(lia)) as (e' & He').
        exists e'. rewrite <- He'. f_equal. simpl. lia.
      * destruct Hlast as [(j & ok & body & -> & Hj) | [-> Hall]].
        -- left. exists (S j), ok, body. split; [reflexivity |].
           rewrite <- Hj. f_equal. simpl. lia.
        -- right. split; [reflexivity |].
           intros [| j] Hj; [exists e; exact Eb |].
           destruct (Hall j ltac:(lia)) as (e' & He').
           exists e'. rewrite <- He'. f_equal. simpl. lia.
    + exists 1%nat. split; [reflexivity |]. split; [lia |].
      split; [intros j Hj; lia |].
      left. exists 0%nat, ok, body. split; [reflexivity | exact Eb].
Qed.

(* ===================================================================== *)
(** ** Further properties: the risk metrics stay on their scale *)
(* ===================================================================== *)

Section RiskScale.

Lemma or_zero_not_NaN (v : num) : JS.isNaN (JS.or v (Num 0)) = false.
Proof. destruct v; reflexivity || (unfold JS.or; simpl; destruct (negb _); reflexivity). Qed.

Lemma or_default_zero_not_NaN (x : option num) :
  JS.isNaN (JS.or_default x (Num 0)) = false.
Proof. destruct x; [apply or_zero_not_NaN | reflexivity]. Qed.

Lemma nonnegative_abs (v : num) :
  JS.isNaN v = false -> nonnegative (JS.abs v).
Proof.
  destruct v; simpl; try discriminate; intros _;
    [apply Qabs_nonneg | exact I | exact I].
Qed.

Lemma nonnegative_weighted (v : num) (weight : Q) :
  (0 < weight)%Q -> nonnegative v -> nonnegative (JS.mul v (Num weight)).
Proof.
  intros Hw. destruct v as [q | | |]; simpl; try contradiction.
  - intros Hq. apply Qmult_le_0_compat; lra.
  - intros _. unfold JS.scale_inf, JS.sgn.
    rewrite (proj1 (Qgt_alt _ _) Hw). exact I.
Qed.

Lemma nonnegative_add (a b : num) :
  nonnegative a -> nonnegative b -> nonnegative (JS.add a b).
Proof.
  destruct a, b; simpl; try contradiction; try (intros; exact I).
  intros Ha Hb. lra.
Qed.

Lemma percentage_capped (a : num) :
  nonnegative a -> percentage (JS.min (Num 100) a).
Proof.
  destruct a as [q | | |]; simpl; try contradiction.
  - intros Hq. destruct (Qle_bool 100 q) eqn:H; simpl; [lra |].
    apply not_true_iff_false in H. rewrite Qle_bool_iff in H. lra.
  - intros _. lra.
Qed.

Lemma percentage_nonnegative (a : num) : percentage a -> nonnegative a.
Proof. destruct a; simpl; try contradiction. lra. Qed.

Lemma not_negative_or_zero (v : num) :
  JS.lt v (Num 0) = false -> nonnegative (JS.or v (Num 0)).
Proof.
  intros Hlt. destruct v as [q | | |].
  - unfold JS.lt in Hlt. apply negb_false_iff, Qle_bool_iff in Hlt.
    unfold JS.or, JS.truthy. destruct (negb _); simpl; [exact Hlt | lra].
  - exact I.
  - discriminate Hlt.
  - unfold JS.or. simpl. lra.
Qed.

Variable price_change_1h_percent : TokenTradeData -> option num.

Lemma percentage_calculateVolatility data :
  percentage (calculateVolatility price_change_1h_percent data).
Proof.
  unfold calculateVolatility.
  destruct (tradeData data) as [t |]; [| simpl; lra].
  cbv zeta. cbn [fold_left fst snd].
  apply percentage_capped.
  repeat first
    [ apply nonnegative_add
    | apply nonnegative_weighted; [reflexivity |]
    | apply nonnegative_abs
    | apply or_default_zero_not_NaN
    | apply or_zero_not_NaN ].
  simpl. lra.
Qed.

Lemma percentage_calculateMarketStability data :
  percentage (calculateMarketStability data).
Proof.
  unfold calculateMarketStability.
  destruct (tradeData data) as [t |]; [| simpl; lra].
  cbv zeta. cbn [fold_left fst snd].
  apply percentage_capped.
  assert (Hcap : forall v, JS.isNaN v = false ->
                           nonnegative (JS.min (Num 100) (JS.abs v))).
  { intros v Hv. apply percentage_nonnegative, percentage_capped,
      nonnegative_abs, Hv. }
  repeat first
    [ apply nonnegative_add
    | apply nonnegative_weighted; [reflexivity |]
    | apply Hcap
    | apply abs_not_NaN
    | apply or_default_zero_not_NaN ].
  simpl. lra.
Qed.

Lemma percentage_calculateHolderConcentration data :
  JS.lt (top10HolderPercent (security data)) (Num 0) = false ->
  percentage (calculateHolderConcentration data).
Proof.
  intros Hlt. unfold calculateHolderConcentration. cbv zeta.
  apply percentage_capped.
  pose proof (not_negative_or_zero _ Hlt) as Hnn.
  destruct (JS.or (top10HolderPercent (security data)) (Num 0))
    as [q | | |]; simpl in Hnn |- *; try contradiction; [| exact I].
  unfold Qdiv. apply Qmult_le_0_compat; [| lra].
  apply Qmult_le_0_compat; [exact Hnn | discriminate].
Qed.

Lemma percentage_calculateSecurityScore data :
  JS.lt (creatorPercentage (security data)) (Num 0) = false ->
  percentage (calculateSecurityScore data).
Proof.
  intros Hlt. unfold calculateSecurityScore. cbv zeta.
  cbn [fold_left fst snd]. apply percentage_capped.
  pose proof (not_negative_or_zero _ Hlt) as Hnn.
  repeat first
    [ apply nonnegative_add
    | apply nonnegative_weighted; [reflexivity |]
    | exact Hnn ].
  - simpl. lra.
  - destruct (blueCheckmark (tokenCodex data)) as [[|] |]; simpl; lra.
  - destruct (isScam (tokenCodex data)); simpl; lra.
Qed.

Lemma percentage_calculateLiquidityRisk data :
  match head (pairs (dexScreenerData data)) with
  | Some first => finitePair first
  | None => True
  end ->
  percentage (calculateLiquidityRisk data).
Proof.
  unfold calculateLiquidityRisk, firstPairLiquidity, firstPairMarketCap.
  destruct (head (pairs (dexScreenerData data))) as [first |];
    [| intros _; simpl; lra].
  intros [Hl Hc]. cbv zeta.
  destruct (usd (liquidity first)) as [l | | |]; try contradiction.
  destruct (marketCap first) as [c | | |]; try contradiction.
  assert (Hor : forall q, exists q', JS.or (Num q) (Num 0) = Num q').
  { intros q. unfold JS.or.
    destruct (JS.truthy (Num q)); eexists; reflexivity. }
  destruct (Hor l) as (l' & ->). destruct (Hor c) as (c' & ->).
  unfold isZero. destruct (Qeq_bool c' 0) eqn:Hz; [simpl; lra |].
  apply Qeq_bool_neq in Hz.
  assert (Hs : JS.sgn c' <> Eq).
  { unfold JS.sgn. intros H. apply Qeq_alt in H. contradiction. }
  unfold JS.div. destruct (JS.sgn c'); [contradiction | |];
    simpl;
    match goal with
    | |- context [Qle_bool 0 ?x] =>
        destruct (Qle_bool 0 x) eqn:H0; simpl;
        [ destruct (Qle_bool 100 x) eqn:H1; simpl;
          [ lra
          | apply Qle_bool_iff in H0; apply not_true_iff_false in H1;
            rewrite Qle_bool_iff in H1; lra ]
        | lra ]
    end.
Qed.

Lemma percentage_calculateOverallRisk metrics :
  percentage (volatilityScore metrics) ->
  percentage (liquidityRisk metrics) ->
  percentage (holderConcentration metrics) ->
  percentage (securityScore metrics) ->
  percentage (marketStability metrics) ->
  exists z : Z,
    calculateOverallRisk metrics = Num (inject_Z z) /\ (0 <= z <= 100)%Z.
Proof.
  unfold calculateOverallRisk. cbv zeta. cbn [fold_left fst snd].
  destruct (volatilityScore metrics) as [v | | |]; try contradiction.
  destruct (liquidityRisk metrics) as [l | | |]; try contradiction.
  destruct (holderConcentration metrics) as [h | | |]; try contradiction.
  destruct (securityScore metrics) as [s | | |]; try contradiction.
  destruct (marketStability metrics) as [m | | |]; try contradiction.
  intros Hv Hl Hh Hs Hm. unfold percentage in Hv, Hl, Hh, Hs, Hm.
  cbn [JS.add JS.mul JS.round JS.min JS.le].
  match goal with
  | |- context [Qfloor ?x] =>
      assert (Hz : (0 <= Qfloor x <= 100)%Z);
      [| destruct (Qle_bool 100 (inject_Z (Qfloor x))) eqn:Hc; simpl;
         [ exists 100%Z; split; [reflexivity | lia]
         | exists (Qfloor x); split; [reflexivity | exact Hz] ] ]
  end.
  split.
  - apply Z.le_trans with (Qfloor 0); [discriminate |].
    apply Qfloor_resp_le. lra.
  - apply Z.le_trans with (Qfloor (100 + (1 # 2))); [| discriminate].
    apply Qfloor_resp_le. lra.
Qed.

End RiskScale.

(** X21. Whatever the trade data holds (numbers, NaN, infinities, null
    fields, or no trade data at all), the volatility score and the market
    stability score are finite numbers between 0 and 100. *)
Theorem volatility_and_stability_on_scale :
  forall (price_change_1h_percent : TokenTradeData -> option num)
         (data : ProcessedTokenData),
    percentage (calculateVolatility price_change_1h_percent data) /\
    percentage (calculateMarketStability data).
Proof.
  intros price_change_1h_percent data. split.
  - apply percentage_calculateVolatility.
  - apply percentage_calculateMarketStability.
Qed.

(** X22. For a snapshot whose creator percentage and top-10 holder
    percentage are not negative and whose first DEX pair, if any, has finite
    liquidity and market cap, each of the five risk metrics lies between 0
    and 100 and the overall risk computed from them is an integer between
    0 and 100. *)
Theorem calculateOverallRisk_on_scale :
  forall (price_change_1h_percent : TokenTradeData -> option num)
         (data : ProcessedTokenData),
    JS.lt (creatorPercentage (security data)) (Num 0) = false ->
    JS.lt (top10HolderPercent (security data)) (Num 0) = false ->
    match head (pairs (dexScreenerData data)) with
    | Some first => finitePair first
    | None => True
    end ->
    percentage (calculateLiquidityRisk data) /\
    percentage (calculateHolderConcentration data) /\
    percentage (calculateSecurityScore data) /\
    exists z : Z,
      calculateOverallRisk
        {| volatilityScore :=
             calculateVolatility price_change_1h_percent data;
           liquidityRisk := calculateLiquidityRisk data;
           holderConcentration := calculateHolderConcentration data;
           securityScore := calculateSecurityScore data;
           marketStability := calculateMarketStability data |}
      = Num (inject_Z z) /\
      (0 <= z <= 100)%Z.
Proof.
  intros price_change_1h_percent data Hcreator Htop Hpair.
  pose proof (percentage_calculateLiquidityRisk data Hpair) as Hl.
  pose proof (percentage_calculateHolderConcentration data Htop) as Hh.
  pose proof (percentage_calculateSecurityScore data Hcreator) as Hs.
  repeat (split; [assumption |]).
  apply percentage_calculateOverallRisk; cbn [volatilityScore liquidityRisk
    holderConcentration securityScore marketStability];
    first [ assumption
          | apply percentage_calculateVolatility
          | apply percentage_calculateMarketStability ].
Qed.

Lemma calculateOverallRisk_on_scale_witness :
  percentage (calculateLiquidityRisk listedSnapshot) /\
  percentage (calculateHolderConcentration listedSnapshot) /\
  percentage (calculateSecurityScore listedSnapshot) /\
  exists z : Z,
    calculateOverallRisk
      {| volatilityScore := calculateVolatility (fun _ => None) listedSnapshot;
         liquidityRisk := calculateLiquidityRisk listedSnapshot;
         holderConcentration := calculateHolderConcentration listedSnapshot;
         securityScore := calculateSecurityScore listedSnapshot;
         marketStability := calculateMarketStability listedSnapshot |}
    = Num (inject_Z z) /\
    (0 <= z <= 100)%Z.
Proof.
  apply (calculateOverallRisk_on_scale (fun _ => None) listedSnapshot).
  - reflexivity.
  - reflexivity.
  - split; exact I.
Defined.

(** X23. The 24h liquidity change that [calculateLiquidityChange] reports
    does not depend on the liquidity: it is 0 without a pair and for a
    liquidity of 0, and the same value, 100/19, for every other finite
    liquidity (the previous liquidity is taken to be 95% of the current
    one). *)
Theorem calculateLiquidityChange_is_constant :
  forall (data : ProcessedTokenData),
    (head (pairs (dexScreenerData data)) = None ->
     calculateLiquidityChange data = Num 0) /\
    (forall first l,
        head (pairs (dexScreenerData data)) = Some first ->
        usd (liquidity first) = Num l ->
        (l == 0)%Q ->
        calculateLiquidityChange data = Num 0) /\
    (forall first l,
        head (pairs (dexScreenerData data)) = Some first ->
        usd (liquidity first) = Num l ->
        ~ (l == 0)%Q ->
        JS.same (calculateLiquidityChange data) (Num (100 # 19))).
Proof.
  intros data. unfold calculateLiquidityChange. repeat split.
  - intros ->. reflexivity.
  - intros first l -> -> Hl. cbv zeta.
    unfold JS.or, JS.truthy.
    rewrite (proj2 (Qeq_bool_iff l 0) Hl). reflexivity.
  - intros first l -> -> Hl. cbv zeta.
    assert (Hb : Qeq_bool l 0 = false).
    { destruct (Qeq_bool l 0) eqn:H; [| reflexivity].
      apply Qeq_bool_iff in H. contradiction. }
    unfold JS.or, JS.truthy. rewrite Hb. cbn [negb JS.mul isZero].
    assert (Hp : ~ (l * (95 # 100) == 0)%Q).
    { intros H. apply Hl.
      assert (E : (l == l * (95 # 100) * (100 # 95))%Q) by (field).
      rewrite E, H. reflexivity. }
    assert (Hpb : Qeq_bool (l * (95 # 100)) 0 = false).
    { destruct (Qeq_bool (l * (95 # 100)) 0) eqn:H; [| reflexivity].
      apply Qeq_bool_iff in H. contradiction. }
    rewrite Hpb. unfold JS.sub, JS.neg, JS.add, JS.div.
    assert (Hs : JS.sgn (l * (95 # 100)) <> Eq).
    { unfold JS.sgn. intros H. apply Qeq_alt in H. contradiction. }
    destruct (JS.sgn (l * (95 # 100))); [contradiction | |];
      simpl; field; exact Hl.
Qed.

Lemma calculateLiquidityChange_is_constant_witness :
  JS.same (calculateLiquidityChange listedSnapshot) (Num (100 # 19)).
Proof.
  apply (proj2 (proj2 (calculateLiquidityChange_is_constant listedSnapshot))
           (samplePair 40000 100000) 40000%Q).
  - reflexivity.
  - reflexivity.
  - discriminate.
Defined.

(* ===================================================================== *)
(** ** Further properties: prices and buy amounts *)
(* ===================================================================== *)

Section PriceFacts.

Variable env : Env.
Variable birdeyePrice : string -> nat -> Response PriceReply.
Variable numberToString : num -> string.

Lemma try_catchP_default {A} (m : MP A) (a : A) ws :
  exists r ws', try_catchP m (fun _ => retP a) ws = (Ok r, ws').
Proof.
  unfold try_catchP, retP.
  destruct (m ws) as [[r | e] ws']; eexists _, _; reflexivity.
Qed.

Lemma getCachedPrices_nothing w :
  getCachedPrices env (w, noPrices) = (Ok None, (later 1 w, noPrices)).
Proof.
  unfold getCachedPrices, readPricesFromCache, memoryPrices_get, try_catchP,
    bindP, liftP, tick, retP, throwP, later. simpl.
  destruct (cacheManagerFails env (clock w)); reflexivity.
Qed.

Lemma fetchPriceOf_down token prices w s :
  alwaysFails true (birdeyePrice token) ->
  fetchPriceOf birdeyePrice numberToString token prices (w, s)
  = (Ok prices, (later MAX_RETRIES w, s)).
Proof.
  intros Hdown.
  destruct (fetchWithRetry_fails (birdeyePrice token) w Hdown) as (e & E).
  unfold fetchPriceOf, try_catchP, bindP, liftP. simpl fst. rewrite E.
  reflexivity.
Qed.

Lemma fetchPricesOf_down tokens prices w s :
  (forall token, alwaysFails true (birdeyePrice token)) ->
  fetchPricesOf birdeyePrice numberToString tokens prices (w, s)
  = (Ok prices, (later (length tokens * MAX_RETRIES) w, s)).
Proof.
  intros Hdown. revert w.
  induction tokens as [| token rest IH]; intros w.
  - destruct w; reflexivity.
  - cbn [fetchPricesOf]. unfold bindP.
    rewrite (fetchPriceOf_down token prices w s (Hdown token)).
    rewrite IH, later_later.
    replace (length rest * MAX_RETRIES + MAX_RETRIES)%nat
      with (length (token :: rest) * MAX_RETRIES)%nat
      by (unfold MAX_RETRIES; simpl; lia).
    reflexivity.
Qed.

Lemma fetchPrices_down w :
  (forall token, alwaysFails true (birdeyePrice token)) ->
  fetchPrices env birdeyePrice numberToString (w, noPrices)
  = (Ok zeroPrices, (later 10 w, noPrices)).
Proof.
  intros Hdown. unfold fetchPrices, try_catchP, bindP.
  rewrite getCachedPrices_nothing.
  rewrite (fetchPricesOf_down _ _ _ _ Hdown), later_later. reflexivity.
Qed.

End PriceFacts.

(** X24. [fetchPrices] never throws. Prices held in the memory tier are
    returned as they are, without any request. When nothing is cached and
    the price endpoint fails for every token, after three attempts each,
    the result is the price "0" for all three tokens, and nothing is
    cached. *)
Theorem fetchPrices_falls_back_to_zero :
  forall (env : Env) (birdeyePrice : string -> nat -> Response PriceReply)
         (numberToString : num -> string) (w : World) (s : PriceSlots),
    (exists prices ws',
        fetchPrices env birdeyePrice numberToString (w, s)
        = (Ok prices, ws')) /\
    (forall p,
        memoryPrices s = Some p ->
        fetchPrices env birdeyePrice numberToString (w, s)
        = (Ok p, (w, s))) /\
    ((forall token, alwaysFails true (birdeyePrice token)) ->
     s = noPrices ->
     fetchPrices env birdeyePrice numberToString (w, s)
     = (Ok zeroPrices, (later 10 w, noPrices))).
Proof.
  intros env birdeyePrice numberToString w s. split; [| split].
  - apply try_catchP_default.
  - intros p Hp.
    unfold fetchPrices, getCachedPrices, memoryPrices_get, try_catchP,
      bindP, retP. simpl. rewrite Hp. reflexivity.
  - intros Hdown ->. apply fetchPrices_down, Hdown.
Qed.

Lemma fetchPrices_falls_back_to_zero_witness :
  fetchPrices offline priceless (fun _ => "1") (emptyWorld, noPrices)
  = (Ok zeroPrices, (later 10 emptyWorld, noPrices)).
Proof.
  apply (proj2 (proj2 (fetchPrices_falls_back_to_zero
                         offline priceless (fun _ => "1") emptyWorld
                         noPrices))).
  - intros token n. reflexivity.
  - reflexivity.
Defined.

(** X25. When the price endpoint is down and no prices are cached,
    [calculateBuyAmounts] divides by the fallback SOL price of 0: for a
    token whose first pair has positive liquidity the low, medium and high
    buy amounts are all [Infinity] (and [none] is 0), where [toBN] reads
    the string "0" as zero. *)
Theorem calculateBuyAmounts_without_price :
  forall (toBN : string -> Res num) (env : Env)
         (birdeyePrice : string -> nat -> Response PriceReply)
         (numberToString : num -> string) (self : TokenProvider)
         (w w1 : World) (dex : DexScreenerData) (first : DexScreenerPair)
         (rest : list DexScreenerPair) (l : Q),
    fetchDexScreenerData env self w = (Ok dex, w1) ->
    pairs dex = first :: rest ->
    usd (liquidity first) = Num l ->
    (0 < l)%Q ->
    (forall token, alwaysFails true (birdeyePrice token)) ->
    toBN "0" = Ok (Num 0) ->
    calculateBuyAmounts toBN env birdeyePrice numberToString self
                        (w, noPrices)
    = (Ok {| none := Num 0; low := PosInf; medium := PosInf;
             high := PosInf |},
       (later 10 w1, noPrices)).
Proof.
  intros toBN env birdeyePrice numberToString self w w1 dex first rest l
         Hdex Hpairs Hl Hpos Hdown Hzero.
  unfold calculateBuyAmounts. unfold bindP at 1, liftP at 1. simpl fst.
  rewrite Hdex. simpl snd. unfold bindP at 1.
  rewrite (fetchPrices_down env birdeyePrice numberToString w1 Hdown).
  unfold bindP, liftP, toBN_M. simpl. rewrite Hzero, Hpairs, Hl.
  assert (Hne : Qeq_bool l 0 = false).
  { destruct (Qeq_bool l 0) eqn:H; [| reflexivity].
    apply Qeq_bool_iff in H. lra. }
  assert (Hle : Qle_bool l 0 = false).
  { destruct (Qle_bool l 0) eqn:H; [| reflexivity].
    apply Qle_bool_iff in H. lra. }
  unfold JS.or, JS.truthy. rewrite Hne. cbn [negb JS.le]. rewrite Hle.
  assert (Hinf : forall c, (0 < c)%Q ->
                           JS.div (JS.mul (Num l) (Num c)) (Num 0) = PosInf).
  { intros c Hc. unfold JS.mul, JS.div, JS.sgn.
    assert (Hp : (0 < l * c)%Q) by (apply Qmult_lt_0_compat; assumption).
    rewrite (proj1 (Qgt_alt _ _) Hp). reflexivity. }
  cbv zeta. unfold ret, retP. rewrite !Hinf by reflexivity. reflexivity.
Qed.

Lemma calculateBuyAmounts_without_price_witness :
  exists w1,
    calculateBuyAmounts demo_toBN dexUp priceless (fun _ => "1") solProvider
                        (emptyWorld, noPrices)
    = (Ok {| none := Num 0; low := PosInf; medium := PosInf;
             high := PosInf |},
       (later 10 w1, noPrices)).
Proof.
  eexists.
  eapply (calculateBuyAmounts_without_price
            demo_toBN dexUp priceless (fun _ => "1") solProvider emptyWorld
            _ _ (samplePair 40000 100000) [] 40000).
  - vm_compute. reflexivity.
  - reflexivity.
  - reflexivity.
  - reflexivity.
  - intros token n. reflexivity.
  - reflexivity.
Defined.

(* ===================================================================== *)
(** ** Further properties: risk concerns and trend summary *)
(* ===================================================================== *)

Section RiskConcerns.

Lemma not_above (v t : Q) : JS.gt (Num v) (Num t) = false -> (v <= t)%Q.
Proof.
  unfold JS.gt, JS.lt. intros H. apply negb_false_iff in H.
  apply Qle_bool_iff, H.
Qed.

Lemma above (v t : Q) : JS.gt (Num v) (Num t) = true -> (t < v)%Q.
Proof.
  unfold JS.gt, JS.lt. intros H. apply negb_true_iff in H.
  apply not_true_iff_false in H. rewrite Qle_bool_iff in H. lra.
Qed.

(** The overall risk of five finite metrics. *)
Lemma calculateOverallRisk_value (v l h s m : Q) :
  exists z : Z,
    calculateOverallRisk
      {| volatilityScore := Num v; liquidityRisk := Num l;
         holderConcentration := Num h; securityScore := Num s;
         marketStability := Num m |}
    = Num (inject_Z z) /\
    (z = 100%Z \/
     z = Qfloor (0 + v * (25 # 100) + l * (25 # 100) + h * (2 # 10)
                 + s * (2 # 10) + m * (1 # 10) + (1 # 2))) /\
    (z <= Qfloor (0 + v * (25 # 100) + l * (25 # 100) + h * (2 # 10)
                  + s * (2 # 10) + m * (1 # 10) + (1 # 2)))%Z.
Proof.
  unfold calculateOverallRisk. cbv zeta.
  cbn [fold_left fst snd volatilityScore liquidityRisk holderConcentration
       securityScore marketStability JS.add JS.mul JS.round JS.min JS.le].
  match goal with
  | |- context [Qle_bool 100 (inject_Z ?z)] =>
      destruct (Qle_bool 100 (inject_Z z)) eqn:Hc
  end.
  - exists 100%Z. split; [reflexivity |]. split; [now left |].
    apply Qle_bool_iff in Hc. change 100%Q with (inject_Z 100) in Hc.
    rewrite <- Zle_Qle in Hc. exact Hc.
  - eexists. split; [reflexivity |]. split; [now right | lia].
Qed.

Lemma floor_above (x : Q) (n : Z) :
  (n < Qfloor x)%Z -> (inject_Z n + 1 <= x)%Q.
Proof.
  intros H. apply Qle_trans with (inject_Z (Qfloor x)); [| apply Qfloor_le].
  change (inject_Z n + 1)%Q with (inject_Z n + inject_Z 1)%Q.
  rewrite <- inject_Z_plus, <- Zle_Qle. lia.
Qed.

Lemma floor_at_least (x : Q) (n : Z) :
  (inject_Z n <= x)%Q -> (n <= Qfloor x)%Z.
Proof.
  intros H. rewrite <- (Qfloor_Z n). apply Qfloor_resp_le, H.
Qed.

End RiskConcerns.

(** X26. For five risk metrics on the 0 to 100 scale and the overall
    risk [calculateOverallRisk] derives from them, [formatRiskConcerns]
    never reports an extreme risk level on its own: at least two of the
    five specific concerns are listed with it, after "Key Risks: ". And when all five metrics
    exceed 70, a risk level, elevated or extreme, is always listed after
    the five concerns. *)
Theorem riskConcerns_extreme_is_explained :
  forall (metrics : RiskSubscores),
    percentage (volatilityScore metrics) ->
    percentage (liquidityRisk metrics) ->
    percentage (holderConcentration metrics) ->
    percentage (securityScore metrics) ->
    percentage (marketStability metrics) ->
    (In "extreme risk level" (riskConcerns (withOverallRisk metrics)) ->
     (3 <= length (riskConcerns (withOverallRisk metrics)))%nat /\
     formatRiskConcerns (withOverallRisk metrics)
     = "Key Risks: "
       +:+ String.concat ", " (riskConcerns (withOverallRisk metrics))) /\
    (JS.gt (volatilityScore metrics) (Num 70) = true ->
     JS.gt (liquidityRisk metrics) (Num 70) = true ->
     JS.gt (holderConcentration metrics) (Num 70) = true ->
     JS.gt (securityScore metrics) (Num 70) = true ->
     JS.gt (marketStability metrics) (Num 70) = true ->
     length (riskConcerns (withOverallRisk metrics)) = 6%nat).
Proof.
  intros [sv sl sh ss sm]. cbn [volatilityScore liquidityRisk
    holderConcentration securityScore marketStability].
  destruct sv as [v | | |]; try contradiction.
  destruct sl as [l | | |]; try contradiction.
  destruct sh as [h | | |]; try contradiction.
  destruct ss as [s | | |]; try contradiction.
  destruct sm as [m | | |]; try contradiction.
  unfold percentage. intros Hv Hl Hh Hs Hm.
  destruct (calculateOverallRisk_value v l h s m) as (z & Ez & Hz & Hzle).
  assert (Hformat : forall r,
             (3 <= length (riskConcerns r))%nat ->
             (3 <= length (riskConcerns r))%nat /\
             formatRiskConcerns r
             = "Key Risks: " +:+ String.concat ", " (riskConcerns r)).
  { intros r Hlen. split; [exact Hlen |]. unfold formatRiskConcerns.
    cbv zeta. destruct (riskConcerns r); [simpl in Hlen; lia | reflexivity]. }
  split; [intros Hin; apply Hformat; revert Hin |];
    unfold riskConcerns, withOverallRisk;
    cbn [subscores overallRisk volatilityScore liquidityRisk
         holderConcentration securityScore marketStability];
    rewrite Ez.
  - destruct (JS.gt (Num (inject_Z z)) (Num 80)) eqn:He.
    + apply above in He. change 80%Q with (inject_Z 80) in He.
      rewrite <- Zlt_Qlt in He.
      assert (Hsum : (inject_Z 80 + 1
                      <= 0 + v * (25 # 100) + l * (25 # 100) + h * (2 # 10)
                         + s * (2 # 10) + m * (1 # 10) + (1 # 2))%Q)
        by (apply floor_above; lia).
      intros _.
      destruct (JS.gt (Num v) (Num 70)) eqn:Bv;
        destruct (JS.gt (Num l) (Num 70)) eqn:Bl;
        destruct (JS.gt (Num h) (Num 70)) eqn:Bh;
        destruct (JS.gt (Num s) (Num 70)) eqn:Bs;
        destruct (JS.gt (Num m) (Num 70)) eqn:Bm;
        cbn [app length]; try lia; exfalso;
        repeat match goal with
               | H : JS.gt (Num _) (Num 70) = false |- _ =>
                   apply not_above in H
               | H : JS.gt (Num _) (Num 70) = true |- _ => clear H
               end;
        change (inject_Z 80 + 1)%Q with 81%Q in Hsum; lra.
    + intros Hin. exfalso.
      destruct (JS.gt (Num v) (Num 70)), (JS.gt (Num l) (Num 70)),
        (JS.gt (Num h) (Num 70)), (JS.gt (Num s) (Num 70)),
        (JS.gt (Num m) (Num 70)),
        (JS.gt (Num (inject_Z z)) (Num 60));
        cbn [app] in Hin;
        repeat (destruct Hin as [Hin | Hin]; [discriminate Hin |]);
        exact Hin.
  - intros Bv Bl Bh Bs Bm. rewrite Bv, Bl, Bh, Bs, Bm.
    apply above in Bv, Bl, Bh, Bs, Bm.
    assert (H60 : JS.gt (Num (inject_Z z)) (Num 60) = true).
    { unfold JS.gt, JS.lt. apply negb_true_iff.
      apply not_true_iff_false. rewrite Qle_bool_iff.
      change 60%Q with (inject_Z 60). rewrite <- Zle_Qle.
      assert (70 <= Qfloor (0 + v * (25 # 100) + l * (25 # 100)
                            + h * (2 # 10) + s * (2 # 10) + m * (1 # 10)
                            + (1 # 2)))%Z
        by (apply floor_at_least; change (inject_Z 70) with 70%Q; lra).
      destruct Hz as [-> | ->]; lia. }
    rewrite H60.
    destruct (JS.gt (Num (inject_Z z)) (Num 80)); reflexivity.
Qed.

Lemma riskConcerns_extreme_is_explained_witness :
  In "extreme risk level" (riskConcerns (withOverallRisk riskyScores)) /\
  (3 <= length (riskConcerns (withOverallRisk riskyScores)))%nat /\
  formatRiskConcerns (withOverallRisk riskyScores)
  = "Key Risks: "
    +:+ String.concat ", " (riskConcerns (withOverallRisk riskyScores)).
Proof.
  assert (Hin : In "extreme risk level"
                   (riskConcerns (withOverallRisk riskyScores)))
    by (vm_compute; auto).
  split; [exact Hin |].
  apply (proj1 (riskConcerns_extreme_is_explained riskyScores
                  ltac:(simpl; lra) ltac:(simpl; lra) ltac:(simpl; lra)
                  ltac:(simpl; lra) ltac:(simpl; lra))).
  exact Hin.
Defined.



(* ===================================================================== *)
(** ** Further properties: the trade decision *)
(* ===================================================================== *)

(** X28. Given the snapshot [getProcessedTokenData] returns and a
    [toBN] that does not throw, [shouldTradeToken] answers no when the
    snapshot has no DEX pair or no trade data, and answers yes for every
    token whose first pair has less than 1000 USD of liquidity or a market
    cap below 100000, whatever its other signals: a low liquidity or a low
    market cap is one of the alternatives that make the answer yes. *)
Theorem shouldTradeToken_accepts_illiquid :
  forall (toBN : string -> Res num) (toFixed2 : num -> string) (env : Env)
         (bigNumberOf : string -> num)
         (price_change_12h_percent : TokenTradeData -> option num)
         (self : TokenProvider) (w w' : World) (data : ProcessedTokenData),
    (forall s, exists b, toBN s = Ok b) ->
    getProcessedTokenData toBN toFixed2 env self w = (Ok data, w') ->
    (head (pairs (dexScreenerData data)) = None ->
     shouldTradeToken toBN toFixed2 env bigNumberOf price_change_12h_percent
                      self w = (Ok false, w')) /\
    (forall first,
        head (pairs (dexScreenerData data)) = Some first ->
        tradeData data = None ->
        shouldTradeToken toBN toFixed2 env bigNumberOf
                         price_change_12h_percent self w
        = (Ok false, w')) /\
    (forall first t,
        head (pairs (dexScreenerData data)) = Some first ->
        tradeData data = Some t ->
        JS.lt (JS.or (usd (liquidity first)) (Num 0)) (Num 1000) = true \/
        JS.lt (JS.or (marketCap first) (Num 0)) (Num 100000) = true ->
        shouldTradeToken toBN toFixed2 env bigNumberOf
                         price_change_12h_percent self w
        = (Ok true, w')).
Proof.
  intros toBN toFixed2 env bigNumberOf price_change_12h_percent self w w'
         data Htotal Erun.
  assert (HtoBN : forall s, exists b, toBN_M toBN s w' = (Ok b, w')).
  { intros s. destruct (Htotal s) as (b & Eb). exists b.
    unfold toBN_M. rewrite Eb. reflexivity. }
  repeat split.
  - intros Hnone.
    unfold shouldTradeToken, try_catch. unfold bind at 1. rewrite Erun.
    cbv beta iota. rewrite Hnone. reflexivity.
  - intros first Hfirst Htrade.
    unfold shouldTradeToken, try_catch. unfold bind at 1. rewrite Erun.
    cbv beta iota. rewrite Hfirst. cbv zeta.
    destruct (HtoBN (orZeroString (ownerBalance (security data))))
      as (ob & Eob).
    destruct (HtoBN (orZeroString (creatorBalance (security data))))
      as (cb & Ecb).
    unfold bind.
    repeat (first [rewrite Eob | rewrite Ecb]; cbv beta iota).
    rewrite Htrade. reflexivity.
  - intros first t Hfirst Htrade Hlow.
    unfold shouldTradeToken, try_catch. unfold bind at 1. rewrite Erun.
    cbv beta iota. rewrite Hfirst. cbv zeta.
    destruct (HtoBN (orZeroString (ownerBalance (security data))))
      as (ob & Eob).
    destruct (HtoBN (orZeroString (creatorBalance (security data))))
      as (cb & Ecb).
    destruct (HtoBN "0") as (z & Ez).
    unfold bind.
    repeat (first [rewrite Eob | rewrite Ecb]; cbv beta iota).
    rewrite Htrade.
    assert (Hvol : exists v,
               (if JS.truthy (volume_24h_usd t)
                then ret (volume_24h_usd t)
                else toBN_M toBN "0") w' = (Ok v, w')).
    { destruct (JS.truthy (volume_24h_usd t));
        [eexists; reflexivity | exists z; exact Ez]. }
    destruct Hvol as (v & ->). unfold ret. f_equal. f_equal.
    destruct Hlow as [-> | ->]; rewrite ?orb_true_r; reflexivity.
Qed.

Lemma shouldTradeToken_accepts_illiquid_witness :
  exists w',
    shouldTradeToken demo_toBN demo_toFixed2 thinMarket (fun _ => NaN)
                     (fun _ => None) solProvider emptyWorld
    = (Ok true, w').
Proof.
  assert (Htotal : forall s, exists b, demo_toBN s = Ok b).
  { intros s. unfold demo_toBN.
    destruct s; [eexists; reflexivity |].
    destruct (digits_value _ _); eexists; reflexivity. }
  eexists.
  eapply (fun Hrun =>
            proj2 (proj2 (shouldTradeToken_accepts_illiquid
                            demo_toBN demo_toFixed2 thinMarket
                            (fun _ => NaN) (fun _ => None) solProvider
                            emptyWorld _ _ Htotal Hrun))
                  (samplePair 500 50000)).
  - vm_compute. reflexivity.
  - reflexivity.
  - reflexivity.
  - left. reflexivity.
Defined.

(* ===================================================================== *)
(** ** Further properties: the recommendation summaries *)
(* ===================================================================== *)

Lemma groupPush_keys acc r k :
  k ∈ map fst (groupPush acc r) <->
  k = rec_tokenAddress r \/ k ∈ map fst acc.
Proof.
  induction acc as [| [key recs] rest IH]; simpl.
  - rewrite elem_of_cons, elem_of_nil. tauto.
  - destruct (String.eqb key (rec_tokenAddress r)) eqn:E; simpl.
    + apply String.eqb_eq in E. subst key. rewrite !elem_of_cons. tauto.
    + rewrite !elem_of_cons, IH. tauto.
Qed.

Lemma groupPush_NoDup acc r :
  NoDup (map fst acc) -> NoDup (map fst (groupPush acc r)).
Proof.
  induction acc as [| [key recs] rest IH]; simpl; intros Hnd.
  - apply NoDup_singleton.
  - apply NoDup_cons in Hnd as [Hnotin Hrest].
    destruct (String.eqb key (rec_tokenAddress r)) eqn:E; simpl.
    + apply NoDup_cons. split; assumption.
    + apply NoDup_cons. split; [| apply IH, Hrest].
      rewrite groupPush_keys. intros [-> | Hin]; [| contradiction].
      rewrite String.eqb_refl in E. discriminate.
Qed.

Lemma groupPush_members acc r :
  Forall (fun group =>
            snd group <> [] /\
            Forall (fun x => rec_tokenAddress x = fst group) (snd group))
         acc ->
  Forall (fun group =>
            snd group <> [] /\
            Forall (fun x => rec_tokenAddress x = fst group) (snd group))
         (groupPush acc r).
Proof.
  induction acc as [| [key recs] rest IH]; simpl; intros Hall.
  - repeat constructor. discriminate.
  - inversion Hall as [| ? ? [Hne Hkey] Hrest]; subst. simpl in Hne, Hkey.
    destruct (String.eqb key (rec_tokenAddress r)) eqn:E.
    + apply String.eqb_eq in E. constructor; [| exact Hrest]. simpl. split.
      * destruct recs; discriminate.
      * apply Forall_app. split; [exact Hkey |]. repeat constructor.
        symmetry. exact E.
    + constructor; [split; assumption | apply IH, Hrest].
Qed.

Lemma groupPush_perm acc r :
  flat_map snd (groupPush acc r) ≡ₚ r :: flat_map snd acc.
Proof.
  induction acc as [| [key recs] rest IH]; simpl.
  - reflexivity.
  - destruct (String.eqb key (rec_tokenAddress r)); simpl.
    + rewrite <- app_assoc. simpl.
      rewrite <- Permutation_middle. reflexivity.
    + rewrite IH. rewrite <- Permutation_middle. reflexivity.
Qed.

Lemma grouped_invariant recs acc :
  NoDup (map fst acc) ->
  Forall (fun group =>
            snd group <> [] /\
            Forall (fun x => rec_tokenAddress x = fst group) (snd group))
         acc ->
  NoDup (map fst (fold_left groupPush recs acc)) /\
  Forall (fun group =>
            snd group <> [] /\
            Forall (fun x => rec_tokenAddress x = fst group) (snd group))
         (fold_left groupPush recs acc) /\
  flat_map snd (fold_left groupPush recs acc) ≡ₚ flat_map snd acc ++ recs.
Proof.
  revert acc. induction recs as [| r rest IH]; intros acc Hnd Hall; simpl.
  - rewrite app_nil_r. auto.
  - destruct (IH (groupPush acc r) (groupPush_NoDup acc r Hnd)
                (groupPush_members acc r Hall)) as (H1 & H2 & H3).
    split; [exact H1 |]. split; [exact H2 |].
    rewrite H3, groupPush_perm. apply Permutation_middle.
Qed.

Section RecommendationFacts.

Variable getTokenPerformance : string -> option TokenPerformance.
Variable getRecommenderMetrics : string -> option RecommenderMetrics.

Lemma forEach_data recs totals totals' :
  forEach getTokenPerformance getRecommenderMetrics recs totals = Ok totals' ->
  map rd_recommenderId (recommenderData totals')
  = map rd_recommenderId (recommenderData totals)
    ++ map rec_recommenderId recs.
Proof.
  revert totals. induction recs as [| r rest IH]; intros totals; simpl.
  - intros E. injection E as <-. rewrite app_nil_r. reflexivity.
  - unfold accumulate.
    destruct (getTokenPerformance (rec_tokenAddress r)) as [tp |];
      [| discriminate].
    destruct (getRecommenderMetrics (rec_recommenderId r)) as [rm |];
      [| discriminate].
    intros E. apply IH in E. rewrite E. cbn [recommenderData].
    rewrite map_app, <- app_assoc. reflexivity.
Qed.

Lemma summarize_data group summary :
  summarize getTokenPerformance getRecommenderMetrics group = Ok summary ->
  sum_tokenAddress summary = fst group /\
  map rd_recommenderId (sum_recommenders summary)
  = map rec_recommenderId (snd group).
Proof.
  unfold summarize. cbv zeta.
  destruct (forEach _ _ _ _) as [totals | e] eqn:E; [| discriminate].
  intros H. injection H as <-. cbn [sum_tokenAddress sum_recommenders].
  split; [reflexivity |]. apply forEach_data in E. exact E.
Qed.

Lemma mapRes_Forall2 {A B} (f : A -> Res B) l ys :
  mapRes f l = Ok ys -> Forall2 (fun x y => f x = Ok y) l ys.
Proof.
  revert ys. induction l as [| x rest IH]; simpl; intros ys.
  - intros E. injection E as <-. constructor.
  - destruct (f x) as [y | e] eqn:Ex; [| discriminate].
    destruct (mapRes f rest) as [zs | e]; [| discriminate].
    intros E. injection E as <-. constructor; [exact Ex | apply IH; reflexivity].
Qed.

Lemma summaries_of_groups groups summaries :
  Forall (fun group =>
            snd group <> [] /\
            Forall (fun x => rec_tokenAddress x = fst group) (snd group))
         groups ->
  Forall2 (fun group summary =>
             summarize getTokenPerformance getRecommenderMetrics group
             = Ok summary) groups summaries ->
  map sum_tokenAddress summaries = map fst groups /\
  Forall (fun summary => sum_recommenders summary <> []) summaries /\
  flat_map (fun summary =>
              map (fun d => (sum_tokenAddress summary, rd_recommenderId d))
                  (sum_recommenders summary)) summaries
  = map (fun r => (rec_tokenAddress r, rec_recommenderId r))
        (flat_map snd groups).
Proof.
  intros Hall H2. induction H2 as [| group summary groups summaries E H2 IH].
  - repeat split. constructor.
  - inversion Hall as [| ? ? [Hne Hkey] Hrest]; subst.
    destruct (IH Hrest) as (I1 & I2 & I3).
    destruct (summarize_data group summary E) as [Ek Eids].
    simpl. rewrite I1, I3, Ek, map_app. split; [reflexivity |]. split.
    + constructor; [| exact I2]. intros Hnil. apply Hne.
      rewrite Hnil in Eids. simpl in Eids.
      destruct (snd group); [reflexivity | discriminate].
    + f_equal.
      rewrite <- (map_map rd_recommenderId (fun i => (fst group, i))), Eids,
        map_map.
      apply map_ext_Forall. eapply Forall_impl; [exact Hkey |].
      intros r Hr. simpl in Hr. rewrite Hr. reflexivity.
Qed.

End RecommendationFacts.

Section SortedSummaries.

Lemma byTrust_insert_sorted (x : TokenRecommendationSummary)
      (l : list TokenRecommendationSummary) :
  JS.finite (averageTrustScore x) ->
  Forall (fun s => JS.finite (averageTrustScore s)) l ->
  StronglySorted trustedBefore l ->
  StronglySorted trustedBefore (sort_insert byTrustScore x l).
Proof.
  intros Hx Hfin Hsorted.
  induction l as [| y rest IH]; cbn [sort_insert].
  - constructor; constructor.
  - apply Forall_cons in Hfin as [Hy Hrest].
    apply StronglySorted_inv in Hsorted as [Hsrest Hyrest].
    assert (Hcases : (JS.gt (byTrustScore x y) (Num 0) = true /\ trustedBefore y x)
                     \/ (JS.gt (byTrustScore x y) (Num 0) = false
                         /\ trustedBefore x y)).
    { unfold byTrustScore, trustedBefore.
      destruct (averageTrustScore x) as [qx | | |]; try contradiction.
      destruct (averageTrustScore y) as [qy | | |]; try contradiction.
      unfold JS.sub, JS.neg, JS.add, JS.gt, JS.lt, JS.le.
      destruct (Qle_bool (qy + - qx) 0) eqn:Hd; [right | left];
        (split; [reflexivity |]); apply Qle_bool_iff.
      - apply Qle_bool_iff in Hd. lra.
      - apply not_true_iff_false in Hd. rewrite Qle_bool_iff in Hd. lra. }
    destruct Hcases as [[-> Hyx] | [-> Hxy]].
    + constructor; [apply IH; assumption |].
      rewrite sort_insert_perm. constructor; [exact Hyx | exact Hyrest].
    + constructor; [constructor; assumption |].
      constructor; [exact Hxy |].
      rewrite Forall_forall in Hyrest, Hrest. apply Forall_forall.
      intros z Hz. specialize (Hyrest z Hz). specialize (Hrest z Hz).
      unfold trustedBefore in *.
      destruct (averageTrustScore x) as [qx | | |]; try contradiction.
      destruct (averageTrustScore y) as [qy | | |]; try contradiction.
      destruct (averageTrustScore z) as [qz | | |]; try contradiction.
      unfold JS.le in *. apply Qle_bool_iff in Hxy, Hyrest.
      apply Qle_bool_iff. lra.
Qed.

Lemma byTrust_sorted (l : list TokenRecommendationSummary) :
  Forall (fun s => JS.finite (averageTrustScore s)) l ->
  StronglySorted trustedBefore (array_sort byTrustScore l).
Proof.
  induction l as [| x rest IH]; intros Hfin; simpl.
  - constructor.
  - apply Forall_cons in Hfin as [Hx Hrest].
    apply byTrust_insert_sorted; [exact Hx | | apply IH, Hrest].
    change (foldr (sort_insert byTrustScore) [] rest)
      with (array_sort byTrustScore rest).
    rewrite array_sort_perm. exact Hrest.
Qed.

End SortedSummaries.

(** X29. When [getRecommendations] returns, its summaries partition the
    recommendations of the date range by token address: no token address
    occurs in two summaries, every summary lists at least one recommender
    (so no average divides by zero), and the (token, recommender) entries
    over all summaries are exactly those of the recommendations, each
    counted once. When the average trust scores are finite, the summaries
    come in descending order of them. *)
Theorem getRecommendations_partitions :
  forall (getRecommendationsByDateRange
            : Z -> Z -> list TokenRecommendation)
         (getTokenPerformance : string -> option TokenPerformance)
         (getRecommenderMetrics : string -> option RecommenderMetrics)
         (startDate endDate : Z)
         (result : list TokenRecommendationSummary),
    getRecommendations getRecommendationsByDateRange getTokenPerformance
                       getRecommenderMetrics startDate endDate
    = Ok result ->
    NoDup (map sum_tokenAddress result) /\
    Forall (fun summary => sum_recommenders summary <> []) result /\
    flat_map (fun summary =>
                map (fun d => (sum_tokenAddress summary, rd_recommenderId d))
                    (sum_recommenders summary)) result
    ≡ₚ map (fun r => (rec_tokenAddress r, rec_recommenderId r))
           (getRecommendationsByDateRange startDate endDate) /\
    (Forall (fun summary => JS.finite (averageTrustScore summary)) result ->
     StronglySorted trustedBefore result).
Proof.
  intros byRange getTokenPerformance getRecommenderMetrics startDate endDate
         result.
  unfold getRecommendations. cbv zeta.
  destruct (mapRes _ _) as [summaries | e] eqn:E; [| discriminate].
  intros H. injection H as <-.
  destruct (grouped_invariant (byRange startDate endDate) [])
    as (Hnd & Hall & Hperm); [apply NoDup_nil_2 | constructor |].
  simpl in Hperm.
  destruct (summaries_of_groups getTokenPerformance getRecommenderMetrics
              _ _ Hall (mapRes_Forall2 _ _ _ E)) as (Hkeys & Hne & Hflat).
  pose proof (array_sort_perm byTrustScore summaries) as Hsort.
  repeat split.
  - rewrite Hsort, Hkeys. exact Hnd.
  - eapply Permutation_Forall; [apply Permutation_sym, Hsort | exact Hne].
  - rewrite (Permutation_flat_map _ Hsort), Hflat.
    apply Permutation_map, Hperm.
  - intros Hfin. apply byTrust_sorted. rewrite <- Hsort. exact Hfin.
Qed.

Lemma getRecommendations_partitions_witness :
  exists result,
    getRecommendations (fun _ _ => sampleRecommendations)
                       (fun _ => Some samplePerformance)
                       (fun _ => Some veteran) 0 1
    = Ok result /\
    NoDup (map sum_tokenAddress result) /\
    Forall (fun summary => sum_recommenders summary <> []) result /\
    flat_map (fun summary =>
                map (fun d => (sum_tokenAddress summary, rd_recommenderId d))
                    (sum_recommenders summary)) result
    ≡ₚ map (fun r => (rec_tokenAddress r, rec_recommenderId r))
           sampleRecommendations /\
    (Forall (fun summary => JS.finite (averageTrustScore summary)) result ->
     StronglySorted trustedBefore result).
Proof.
  eexists. split; [vm_compute; reflexivity |].
  apply (getRecommendations_partitions
           (fun _ _ => sampleRecommendations)
           (fun _ => Some samplePerformance) (fun _ => Some veteran) 0 1).
  vm_compute. reflexivity.
Defined.

(* ===================================================================== *)
(** ** Further properties: the cache of [WalletProvider] *)
(* ===================================================================== *)

Section WalletCacheFacts.

Context {V : Type}.

Lemma validateCache_initialized (this : WalletProvider V) :
  isCacheInitialized this = true ->
  validateCache this
  = (true, {| wp_cache := delete "_test_validate_" (wp_cache this);
              isCacheInitialized := true |}).
Proof.
  intros Hinit. unfold validateCache. rewrite Hinit. cbn [negb]. cbv zeta.
  rewrite lookup_insert_eq. cbn [differsFrom String.eqb negb].
  rewrite delete_insert_eq. reflexivity.
Qed.

End WalletCacheFacts.

(** X30. On a provider whose cache is initialized, [setCacheValue]
    succeeds and a following [getCacheValue] of the same key returns the
    value, every other key reading as it did before, with one exception:
    the key "_test_validate_" is used by the validation that precedes every
    access, so a value stored under it is never read back. On a provider
    whose cache is not initialized, [setCacheValue] returns false,
    [getCacheValue] returns undefined, and neither changes anything. *)
Theorem wallet_cache_round_trip :
  forall (V : Type) (this : WalletProvider V) (key : string) (value : V),
    (isCacheInitialized this = true ->
     fst (setCacheValue key value this) = true /\
     (key <> "_test_validate_" ->
      fst (getCacheValue key (snd (setCacheValue key value this)))
      = Some (Stored value)) /\
     fst (getCacheValue "_test_validate_"
                        (snd (setCacheValue key value this))) = None /\
     (forall other,
         other <> key -> other <> "_test_validate_" ->
         fst (getCacheValue other (snd (setCacheValue key value this)))
         = wp_cache this !! other)) /\
    (isCacheInitialized this = false ->
     setCacheValue key value this = (false, this) /\
     getCacheValue key this = (None, this)).
Proof.
  intros V this key value. split.
  - intros Hinit. unfold setCacheValue, getCacheValue.
    rewrite (validateCache_initialized this Hinit).
    cbn [fst snd]. split; [reflexivity |].
    rewrite validateCache_initialized by reflexivity.
    cbn [fst snd wp_cache]. repeat split.
    + intros Hkey. rewrite lookup_delete_ne by congruence.
      apply lookup_insert_eq.
    + apply lookup_delete_eq.
    + intros other Hother Htest.
      rewrite lookup_delete_ne by congruence.
      rewrite lookup_insert_ne by congruence.
      apply lookup_delete_ne. congruence.
  - intros Hinit. unfold setCacheValue, getCacheValue, validateCache.
    rewrite Hinit. split; reflexivity.
Qed.

Lemma wallet_cache_round_trip_witness :
  fst (setCacheValue "portfolio" 7%nat freshWallet) = true /\
  fst (getCacheValue "portfolio"
                     (snd (setCacheValue "portfolio" 7%nat freshWallet)))
  = Some (Stored 7%nat).
Proof.
  destruct (proj1 (wallet_cache_round_trip nat freshWallet "portfolio" 7%nat)
                  eq_refl) as (Hset & Hget & _).
  split; [exact Hset |]. apply Hget. discriminate.
Defined.
